(** * GANime: the adversarial training loop of [GANime/gan.py]

    A shallow embedding of [plotter], [weight_init] and the class [GAN]
    ([__init__], [train], [generate]) over an explicit heap of parameter
    tensors, followed by the properties of the training step, of the weight
    initialiser and of the generation procedure.

    Modelling conventions.
    - Python objects that the code mutates or compares by identity live in
      a store: a parameter is a key of [params] (its [.data]) and of [grads]
      (its [.grad]); every tensor object created during a run gets a fresh
      identifier [tid].
    - torch's numeric kernels (the networks' forward maps, their
      vector-Jacobian products, the loss, the AdamW update, the samplers) are
      the fields of the class [Torch]: every theorem holds for all of them.
    - Calls into torch, numpy and matplotlib return.  What can raise is
      what the source writes itself ([assert], attribute access on a layer,
      subscripts and [%]), and [plt.subplots] on an empty grid.  Failures
      inside torch (devices or shapes that do not match, memory) are outside
      the model.
    - A run leaves a [trace] of the library calls it made, in order. *)

From stdpp Require Import base option list gmap strings pretty.
From Stdlib Require Import ZArith QArith.

Set Warnings "-register-all".
Local Open Scope Z_scope.

(** ** Tensors *)

Inductive device := CPU | CUDA.

Global Instance device_eq_dec : EqDecision device.
Proof. solve_decision. Defined.

(** [a == b] on devices *)
Definition device_eqb (a b : device) : bool :=
  match a, b with
  | CPU, CPU | CUDA, CUDA => true
  | _, _ => false
  end.

(** A dense tensor: its shape, where it lives, and its elements in row-major
    order.  [E] is the element type (float32 in the source). *)
Record tensor (E : Type) := Tensor {
  shape : list Z;
  dev : device;
  data : list E
}.
Arguments Tensor {E} _ _ _.
Arguments shape {E} _.
Arguments dev {E} _.
Arguments data {E} _.

Definition numel (sh : list Z) : Z := foldr Z.mul 1 sh.
Arguments numel : simpl never.

(** ** Layers

    An [nn.Module]: its identity, the name of its class, the parameters
    registered under [weight] and [bias] ([None] when the attribute is missing
    or is Python's [None]) and its sub-modules in registration order. *)
Inductive nn_module := Layer {
  mid : nat;
  cls_name : string;
  weight : option nat;
  bias : option nat;
  children : list nn_module
}.

(** [Module.named_modules]: the module itself, then its descendants, depth
    first; [memo] holds the modules already yielded, so that a module reachable
    twice is yielded once. *)
Fixpoint named_modules (memo : gset nat) (m : nn_module) : list nn_module * gset nat :=
  match m with
  | Layer i _ _ _ cs =>
      if decide (i ∈ memo) then ([], memo)
      else
        let fix go (memo : gset nat) (cs : list nn_module) : list nn_module * gset nat :=
          match cs with
          | [] => ([], memo)
          | c :: cs' =>
              let r1 := named_modules memo c in
              let r2 := go r1.2 cs' in
              (r1.1 ++ r2.1, r2.2)
          end in
        let r := go ({[i]} ∪ memo) cs in
        (m :: r.1, r.2)
  end.

(** [model.modules()] *)
Definition modules (m : nn_module) : list nn_module := (named_modules ∅ m).1.

(** Every module object of the tree, with repetitions. *)
Fixpoint descendants (m : nn_module) : list nn_module :=
  match m with
  | Layer _ _ _ _ cs => m :: flat_map descendants cs
  end.

Definition own_params (m : nn_module) : list nat :=
  option_list (weight m) ++ option_list (bias m).

(** First occurrences only, in order. *)
Fixpoint uniq (seen : list nat) (l : list nat) : list nat :=
  match l with
  | [] => []
  | x :: l' => if decide (x ∈ seen) then uniq seen l' else x :: uniq (x :: seen) l'
  end.

(** [model.parameters()]: the parameters of every module of [modules], each
    parameter object once. *)
Definition parameters (m : nn_module) : list nat :=
  uniq [] (flat_map own_params (modules m)).
Arguments parameters : simpl never.

(** ** The numeric backend *)

Class Torch := {
  (** a tensor element *)
  elt : Type;
  (** a Python float stored into a float tensor *)
  fl : Q → elt;
  (** the state of torch's default random generator *)
  rng_state : Type;
  (** the buffers of a module tree (running statistics and the like) *)
  buffers : Type;
  (** the per-parameter state of AdamW *)
  adam_state : Type;
  (** [Module.zero_grad] drops the gradients ([set_to_none=True], the default
      of recent torch) or overwrites them with zeros (older torch) *)
  zero_grad_set_to_none : bool;
  (** [n] standard normal draws *)
  randn_data : rng_state → Z → list elt * rng_state;
  (** [n] draws of a normal distribution of the given mean and deviation *)
  normal_data : rng_state → Z → Q → Q → list elt * rng_state;
  (** element-wise sum of two floats *)
  fadd : elt → elt → elt;
  (** shape of one output sample of a network, from the shape of one input sample *)
  item_shape : nn_module → list Z → list Z;
  (** forward map of a network: parameter values, buffers, input *)
  forward_data : nn_module → list (option (tensor elt)) → option buffers → tensor elt → list elt;
  (** buffers after a forward pass *)
  forward_buffers : nn_module → list (option (tensor elt)) → option buffers → tensor elt → buffers;
  (** gradient of the [i]-th parameter of a network, from the gradient of its output *)
  vjp_param : nn_module → list (option (tensor elt)) → option buffers → tensor elt → nat → tensor elt → tensor elt;
  (** gradient of the input of a network, from the gradient of its output *)
  vjp_input : nn_module → list (option (tensor elt)) → option buffers → tensor elt → tensor elt → tensor elt;
  (** [nn.BCELoss()] with mean reduction: prediction, target *)
  bce_value : tensor elt → tensor elt → elt;
  bce_vjp : tensor elt → tensor elt → tensor elt → tensor elt;
  (** one AdamW update of one parameter: learning rate, betas, state, value, gradient *)
  adamw_update : Q → Q * Q → option adam_state → tensor elt → tensor elt → tensor elt * adam_state;
  (** ['{:.4f}'.format] of a float *)
  fmt4 : elt → string
}.

(** ** Autograd values, events, exceptions *)

Inductive net := Gen | Dis.

Global Instance net_eq_dec : EqDecision net.
Proof. solve_decision. Defined.

Inductive exn :=
  | AssertionError (msg : string)
  | AttributeError
  | IndexError
  | TypeError
  | ValueError
  | ZeroDivisionError.

Inductive result (A : Type) :=
  | Ok (a : A)
  | Raise (e : exn).
Arguments Ok {A} _.
Arguments Raise {A} _.

(** One library call of a run.  Tensors are named by their [tid]. *)
Inductive event :=
  | EvModuleTo (n : net) (d : device)
  | EvZeroGrad (n : net)
  | EvRandn (size : list Z) (out : nat)
  | EvYield (out : nat)
  | EvForward (n : net) (tracked : bool) (inp out : nat)
  | EvTo (d : device) (inp out : nat)
  | EvDetach (inp out : nat)
  | EvView (inp out : nat)
  | EvFull (size : list Z) (fill : Q) (out : nat)
  | EvLoss (pred target out : nat)
  | EvAdd (a b out : nat)
  | EvBackward (root : nat)
  | EvStep (n : net)
  | EvInitNormal (p : nat) (mean std : Q)
  | EvInitConstant (p : nat) (v : Q)
  | EvPrint (line : string)
  | EvShow (src : nat) (rows columns : Z) (cells : list (Z * Z * Z)).

Section Model.
Context `{Torch}.

(** The recorded computation behind a tensor: what [backward] walks. *)
Inductive graph :=
  | GNone
  | GForward (m : nn_module) (θ : list (option (tensor elt))) (b : option buffers)
      (x : tensor elt) (gx : graph)
  | GView (g : graph)
  | GBce (pred target : tensor elt) (g : graph)
  | GAdd (g1 g2 : graph).

(** A tensor object. *)
Record var := Var {
  tid : nat;
  value : tensor elt;
  grad_fn : graph
}.

(** The heap and the outside world: the values and gradients of the
    parameters, the buffers of the module trees, the tensor objects created so
    far, torch's random generator, and the calls made so far. *)
Record world := World {
  params : gmap nat (tensor elt);
  grads : gmap nat (tensor elt);
  bufs : gmap nat buffers;
  heap : gmap nat (tensor elt);
  rng : rng_state;
  next_tid : nat;
  trace : list event
}.

Definition set_params (f : gmap nat (tensor elt) → gmap nat (tensor elt)) (w : world) : world :=
  World (f (params w)) (grads w) (bufs w) (heap w) (rng w) (next_tid w) (trace w).
Definition set_grads (f : gmap nat (tensor elt) → gmap nat (tensor elt)) (w : world) : world :=
  World (params w) (f (grads w)) (bufs w) (heap w) (rng w) (next_tid w) (trace w).
Definition set_bufs (f : gmap nat buffers → gmap nat buffers) (w : world) : world :=
  World (params w) (grads w) (f (bufs w)) (heap w) (rng w) (next_tid w) (trace w).
Definition set_rng (r : rng_state) (w : world) : world :=
  World (params w) (grads w) (bufs w) (heap w) r (next_tid w) (trace w).
Definition set_trace (t : list event) (w : world) : world :=
  World (params w) (grads w) (bufs w) (heap w) (rng w) (next_tid w) t.
(** The tensor [v] becomes the object [next_tid]. *)
Definition alloc (v : tensor elt) (w : world) : world :=
  World (params w) (grads w) (bufs w) (<[next_tid w := v]> (heap w)) (rng w)
    (S (next_tid w)) (trace w).

(** ** The monad of the program: state and exceptions.  An exception keeps
    the state reached when it was raised. *)
Definition M (A : Type) : Type := world → result A * world.

Definition ret {A} (a : A) : M A := λ w, (Ok a, w).
Definition raise {A} (e : exn) : M A := λ w, (Raise e, w).
Definition bind {A B} (c : M A) (k : A → M B) : M B :=
  λ w, match (c w).1 with
       | Ok a => k a (c w).2
       | Raise e => (Raise e, (c w).2)
       end.

Definition emit (e : event) : M unit :=
  λ w, (Ok (), set_trace (trace w ++ [e]) w).

(** A new tensor object, announced by the event [ev] of its identifier. *)
Definition new_var (ev : nat → event) (v : tensor elt) (g : graph) : M var :=
  λ w, (Ok (Var (next_tid w) v g), set_trace (trace w ++ [ev (next_tid w)]) (alloc v w)).

(** [assert cond, msg] *)
Definition assert_ (cond : bool) (msg : string) : M unit :=
  if cond then ret () else raise (AssertionError msg).

(** [for x in xs: body], threading the local variables [s] of the loop. *)
Fixpoint for_ {A S} (xs : list A) (s : S) (body : A → S → M S) : M S :=
  match xs with
  | [] => ret s
  | x :: xs' => bind (body x s) (λ s', for_ xs' s' body)
  end.

(** [range(n)] *)
Definition range (n : Z) : list Z := seqZ 0 n.

(** [enumerate(xs)] *)
Definition enumerate {A} (xs : list A) : list (Z * A) :=
  zip (seqZ 0 (Z.of_nat (length xs))) xs.

End Model.

Notation "x <- c ;; k" := (bind c (λ x, k))
  (at level 100, c at next level, right associativity, only parsing).
Notation "c ;;; k" := (bind c (λ _, k))
  (at level 100, right associativity, only parsing).

(** ** torch *)

Section Ops.
Context `{Torch}.

(** [torch.randn(size..., device=d, dtype=torch.float)] *)
Definition randn (size : list Z) (d : device) : M var :=
  λ w, let r := randn_data (rng w) (numel size) in
       new_var (EvRandn size) (Tensor size d r.1) GNone (set_rng r.2 w).

(** [torch.full(size, fill, device=d, dtype=torch.float)] *)
Definition full (size : list Z) (fill : Q) (d : device) : M var :=
  new_var (EvFull size fill) (Tensor size d (replicate (Z.to_nat (numel size)) (fl fill))) GNone.

(** [x.to(d)]: the tensor itself when it is on [d] already, a copy otherwise. *)
Definition to (x : var) (d : device) : M var :=
  if device_eqb (dev (value x)) d then ret x
  else new_var (EvTo d (tid x)) (Tensor (shape (value x)) d (data (value x))) (grad_fn x).

(** [x.cpu()] *)
Definition cpu (x : var) : M var := to x CPU.

(** [x.detach()] *)
Definition detach (x : var) : M var :=
  new_var (EvDetach (tid x)) (value x) GNone.

(** [x.view(-1)] *)
Definition view_flat (x : var) : M var :=
  new_var (EvView (tid x))
    (Tensor [numel (shape (value x))] (dev (value x)) (data (value x)))
    (match grad_fn x with GNone => GNone | g => GView g end).

(** [x.shape[0]] *)
Definition shape0 (x : var) : M Z :=
  match shape (value x) with
  | [] => raise IndexError
  | n :: _ => ret n
  end.

(** [x.item()] *)
Definition item (x : var) : elt := hd (fl 0) (data (value x)).

(** [a + b] on tensors *)
Definition add (a b : var) : M var :=
  new_var (EvAdd (tid a) (tid b))
    (Tensor (shape (value a)) (dev (value a)) (zip_with fadd (data (value a)) (data (value b))))
    (match grad_fn a, grad_fn b with GNone, GNone => GNone | ga, gb => GAdd ga gb end).

(** [loss(pred, target)] for [loss = nn.BCELoss()] *)
Definition loss (pred target : var) : M var :=
  new_var (EvLoss (tid pred) (tid target))
    (Tensor [] (dev (value pred)) [bce_value (value pred) (value target)])
    (match grad_fn pred with GNone => GNone | g => GBce (value pred) (value target) g end).

(** Modelled from the spec: the networks of [.components] are not in this
    file; a network maps a batch to a batch of as many samples. *)
Definition forward_shape (m : nn_module) (sh : list Z) : list Z :=
  match sh with
  | [] => []
  | n :: s => n :: item_shape m s
  end.

(** [m(x)], as the call of the attribute [n] of the [GAN] object; [tracked] is
    false under [torch.no_grad()]. *)
Definition call (n : net) (m : nn_module) (tracked : bool) (x : var) : M var :=
  λ w, let θ := (λ p, params w !! p) <$> parameters m in
       let b := bufs w !! mid m in
       new_var (EvForward n tracked (tid x))
         (Tensor (forward_shape m (shape (value x))) (dev (value x)) (forward_data m θ b (value x)))
         (if tracked then GForward m θ b (value x) (grad_fn x) else GNone)
         (set_bufs <[mid m := forward_buffers m θ b (value x)]> w).

(** [m.to(d)]: every parameter is moved in place, and so is its gradient
    when it has one.  (The buffers move too; the model does not record where
    they are.) *)
Definition module_to (n : net) (m : nn_module) (d : device) : M unit :=
  λ w, emit (EvModuleTo n d)
        (set_grads (λ gs, foldr (λ p gs, alter (λ t, Tensor (shape t) d (data t)) p gs) gs (parameters m))
           (set_params (λ ps, foldr (λ p ps, alter (λ t, Tensor (shape t) d (data t)) p ps) ps (parameters m)) w)).

(** [m.zero_grad()] *)
Definition zero_one (g : tensor elt) : tensor elt :=
  Tensor (shape g) (dev g) ((λ _, fl 0) <$> data g).

Definition zero_grad (n : net) (m : nn_module) : M unit :=
  λ w, emit (EvZeroGrad n)
        (set_grads (λ gs, foldr (λ p gs, if zero_grad_set_to_none then delete p gs else alter zero_one p gs)
                            gs (parameters m)) w).

(** *** Backward *)

Definition tadd (a b : tensor elt) : tensor elt :=
  Tensor (shape a) (dev a) (zip_with fadd (data a) (data b)).

(** What [.grad] becomes when the gradient [g] arrives. *)
Definition accum (old : option (tensor elt)) (g : tensor elt) : tensor elt :=
  match old with
  | None => g
  | Some o => tadd o g
  end.

(** The gradients of the parameters [ps], numbered from [i], are added to their [.grad]. *)
Fixpoint accumulate (ps : list nat) (i : nat) (f : nat → tensor elt)
    (gs : gmap nat (tensor elt)) : gmap nat (tensor elt) :=
  match ps with
  | [] => gs
  | p :: ps' => accumulate ps' (S i) f (<[p := accum (gs !! p) (f i)]> gs)
  end.

(** Reverse sweep from a node whose output gradient is [up]. *)
Fixpoint backprop (g : graph) (up : tensor elt) (gs : gmap nat (tensor elt)) : gmap nat (tensor elt) :=
  match g with
  | GNone => gs
  | GForward m θ b x gx =>
      backprop gx (vjp_input m θ b x up) (accumulate (parameters m) 0 (λ i, vjp_param m θ b x i up) gs)
  | GView g' => backprop g' up gs
  | GBce pred target g' => backprop g' (bce_vjp pred target up) gs
  | GAdd g1 g2 => backprop g2 up (backprop g1 up gs)
  end.

(** [x.backward()] for a scalar [x] *)
Definition backward (x : var) : M unit :=
  λ w, emit (EvBackward (tid x))
        (set_grads (backprop (grad_fn x) (Tensor [] (dev (value x)) [fl 1])) w).

(** *** AdamW *)

Record optimizer := Optimizer {
  opt_params : list nat;
  opt_lr : Q;
  opt_betas : Q * Q;
  opt_state : gmap nat adam_state
}.

(** [torch.optim.AdamW(params, lr=lr, betas=betas)] *)
Definition AdamW (ps : list nat) (lr : Q) (betas : Q * Q) : optimizer :=
  Optimizer ps lr betas ∅.

(** One pass of [step] over the parameters [ps]: a parameter without gradient
    is skipped. *)
Fixpoint step_params (lr : Q) (betas : Q * Q) (ps : list nat) (gs : gmap nat (tensor elt))
    (acc : gmap nat (tensor elt) * gmap nat adam_state) : gmap nat (tensor elt) * gmap nat adam_state :=
  match ps with
  | [] => acc
  | p :: ps' =>
      step_params lr betas ps' gs
        match acc.1 !! p, gs !! p with
        | Some θ, Some g =>
            let r := adamw_update lr betas (acc.2 !! p) θ g in
            (<[p := r.1]> acc.1, <[p := r.2]> acc.2)
        | _, _ => acc
        end
  end.

(** [o.step()], as the call on the optimizer variable of network [n] *)
Definition step (n : net) (o : optimizer) : M optimizer :=
  λ w, let r := step_params (opt_lr o) (opt_betas o) (opt_params o) (grads w) (params w, opt_state o) in
       bind (emit (EvStep n)) (λ _, ret (Optimizer (opt_params o) (opt_lr o) (opt_betas o) r.2))
         (set_params (λ _, r.1) w).

End Ops.

(** ** [gan.py] *)

(** [needle in hay] on strings *)
Fixpoint contains (needle hay : string) : bool :=
  String.prefix needle hay ||
  match hay with
  | EmptyString => false
  | String _ hay' => contains needle hay'
  end.

(** What [plt.subplots(rows, columns)] returns as [ax] (with the default
    [squeeze=True]): the Axes object itself for a 1x1 grid, a one-dimensional
    array for a single row or a single column, a two-dimensional array
    otherwise. *)
Inductive axes :=
  | AxesOne
  | Axes1D (n : Z)
  | Axes2D (r c : Z).

Definition subplots_axes (rows columns : Z) : axes :=
  if decide (rows = 1 ∧ columns = 1) then AxesOne
  else if decide (rows = 1) then Axes1D columns
  else if decide (columns = 1) then Axes1D rows
  else Axes2D rows columns.

Section Gan.
Context `{Torch}.

(** [plt.subplots(rows, columns, figsize=(10,10))], which refuses an empty grid *)
Definition subplots (rows columns : Z) : M axes :=
  if decide (0 < rows ∧ 0 < columns) then ret (subplots_axes rows columns)
  else raise ValueError.

(** [ax[i,j]] for [0 <= i] and [0 <= j] *)
Definition ax_getitem (ax : axes) (i j : Z) : M unit :=
  match ax with
  | AxesOne => raise TypeError
  | Axes1D _ => raise IndexError
  | Axes2D r c => if decide (i < r ∧ j < c) then ret () else raise IndexError
  end.

(** [data[k]] for [0 <= k], on an array of the given shape *)
Definition array_getitem (sh : list Z) (k : Z) : M unit :=
  match sh with
  | [] => raise IndexError
  | n :: _ => if decide (k < n) then ret () else raise IndexError
  end.

(** [plotter(data, rows, columns)] with the default [renormalize_func].  The
    figure is the list of the cells drawn, each with the index of its image
    in [data]; pixel values are not modelled. *)
Definition plotter (data : var) (rows columns : Z) : M unit :=
  ax <- subplots rows columns ;;
  cells <- for_ (range rows) [] (λ i cells,
    for_ (range columns) cells (λ j cells,
      ax_getitem ax i j ;;;
      array_getitem (shape (value data)) (j + i * columns) ;;;
      ret (cells ++ [(i, j, j + i * columns)]))) ;;
  emit (EvShow (tid data) rows columns cells).

(** [nn.init.normal_(p.data, mean, std)]: the tensor is refilled in place. *)
Definition normal_ (p : nat) (mean std : Q) : M unit :=
  λ w, match params w !! p with
       | Some t =>
           let r := normal_data (rng w) (numel (shape t)) mean std in
           emit (EvInitNormal p mean std)
             (set_rng r.2 (set_params <[p := Tensor (shape t) (dev t) r.1]> w))
       | None => emit (EvInitNormal p mean std) w
       end.

(** [nn.init.constant_(p.data, v)] *)
Definition constant_ (p : nat) (v : Q) : M unit :=
  λ w, emit (EvInitConstant p v)
        (set_params (alter (λ t, Tensor (shape t) (dev t) ((λ _, fl v) <$> data t)) p) w).

(** [layer.weight.data], [layer.bias.data] *)
Definition attr_data (a : option nat) : M nat :=
  match a with
  | Some p => ret p
  | None => raise AttributeError
  end.

Definition std : Q := 0.02.

Definition weight_init_layer (layer : nn_module) : M unit :=
  let name := cls_name layer in
  if contains "Conv" name then
    let mean := 0%Q in
    p <- attr_data (weight layer) ;;
    normal_ p mean std
  else if contains "BatchNorm" name then
    let mean := 1%Q in
    p <- attr_data (weight layer) ;;
    normal_ p mean std ;;;
    q <- attr_data (bias layer) ;;
    constant_ q 0
  else ret ().

Definition weight_init (model : nn_module) : M unit :=
  for_ (modules model) () (λ layer _, weight_init_layer layer).

(** The attributes of a [GAN] object. *)
Record GAN := {
  seed_size : Z;
  gen : nn_module;
  dis : nn_module;
  print_loss_every : Z;
  gen_lr : Q;
  dis_lr : Q;
  gen_betas : Q * Q;
  dis_betas : Q * Q
}.

(** [GAN.__init__]; [generator] and [discriminator] are the two constructors
    of [.components]. *)
Definition GAN_init (generator discriminator : Z → nn_module)
    (seed_size print_loss_every : Z) (gen_lr dis_lr : Q) (gen_betas dis_betas : Q * Q) : M GAN :=
  let gen := generator seed_size in
  weight_init gen ;;;
  let dis := discriminator seed_size in
  weight_init dis ;;;
  ret {| seed_size := seed_size; gen := gen; dis := dis;
         print_loss_every := print_loss_every;
         gen_lr := gen_lr; dis_lr := dis_lr;
         gen_betas := gen_betas; dis_betas := dis_betas |}.

Definition net_of (self : GAN) (n : net) : nn_module :=
  match n with Gen => gen self | Dis => dis self end.

(** A Python object passed as [dl]: the qualified name of its type, and the
    batches one iteration over it yields (a shuffling loader draws from the
    default random generator). *)
Record pyobj := {
  py_type : string;
  py_iter : rng_state → list (tensor elt) * rng_state
}.

Definition DataLoader : string := "torch.utils.data.dataloader.DataLoader".

(** [torch.device("cuda" if torch.cuda.is_available() else "cpu")] *)
Definition default_device (cuda_is_available : bool) : device :=
  if cuda_is_available then CUDA else CPU.

Definition tab : string := String (Ascii.ascii_of_nat 9) EmptyString.

(** Lines 91-115: the update of the discriminator.  Returns [fake_img],
    [real_dis_lbl], [dis_loss] and the optimizer. *)
Definition dis_phase (self : GAN) (dis_optimizer : optimizer) (device : device)
    (data : var) (b : Z) : M (var * var * var * optimizer) :=
  zero_grad Dis (dis self) ;;;
  noise <- randn [b; seed_size self; 1; 1] device ;;
  fake_img <- call Gen (gen self) true noise ;;
  real_img <- to data device ;;
  fake_detached <- detach fake_img ;;
  fake_dis_pred <- call Dis (dis self) true fake_detached ;;
  real_dis_pred <- call Dis (dis self) true real_img ;;
  fake_dis_lbl <- full [b] 0.1 device ;;
  real_dis_lbl <- full [b] 0.9 device ;;
  fake_flat <- view_flat fake_dis_pred ;;
  fake_dis_loss <- loss fake_flat fake_dis_lbl ;;
  real_flat <- view_flat real_dis_pred ;;
  real_dis_loss <- loss real_flat real_dis_lbl ;;
  backward real_dis_loss ;;;
  backward fake_dis_loss ;;;
  dis_loss <- add fake_dis_loss real_dis_loss ;;
  dis_optimizer <- step Dis dis_optimizer ;;
  ret (fake_img, real_dis_lbl, dis_loss, dis_optimizer).

(** Lines 123-133: the update of the generator.  Returns [gen_loss] and the
    optimizer. *)
Definition gen_phase (self : GAN) (gen_optimizer : optimizer)
    (fake_img real_dis_lbl : var) : M (var * optimizer) :=
  zero_grad Gen (gen self) ;;;
  fake_gen_pred <- call Dis (dis self) true fake_img ;;
  fake_flat <- view_flat fake_gen_pred ;;
  gen_loss <- loss fake_flat real_dis_lbl ;;
  backward gen_loss ;;;
  gen_optimizer <- step Gen gen_optimizer ;;
  ret (gen_loss, gen_optimizer).

(** Lines 139-143 *)
Definition report (self : GAN) (i epoch num_epochs : Z) (dis_loss gen_loss : var) : M unit :=
  let dis_loss_show := fmt4 (item dis_loss) in
  let gen_loss_show := fmt4 (item gen_loss) in
  if decide (print_loss_every self = 0) then raise ZeroDivisionError
  else if decide (i `mod` print_loss_every self = 0) then
    emit (EvPrint ("Iteration " +:+ pretty i +:+ tab +:+ "[Epoch " +:+ pretty epoch +:+ "/"
                   +:+ pretty num_epochs +:+ "]" +:+ tab +:+ "Losses:" +:+ tab
                   +:+ " L_discriminator = " +:+ dis_loss_show +:+ tab
                   +:+ " L_generator = " +:+ gen_loss_show))
  else ret ().

(** The body of the inner loop, lines 81-143, on the batch [data] of index [i]. *)
Definition train_step (self : GAN) (device : device) (epoch num_epochs : Z)
    (i : Z) (data : var) (opts : optimizer * optimizer) : M (optimizer * optimizer) :=
  let '(gen_optimizer, dis_optimizer) := opts in
  b <- shape0 data ;;
  r <- dis_phase self dis_optimizer device data b ;;
  let '(fake_img, real_dis_lbl, dis_loss, dis_optimizer) := r in
  r <- gen_phase self gen_optimizer fake_img real_dis_lbl ;;
  let '(gen_loss, gen_optimizer) := r in
  report self i epoch num_epochs dis_loss gen_loss ;;;
  ret (gen_optimizer, dis_optimizer).

(** Lines 146-149 *)
Definition end_of_epoch (self : GAN) (plot : bool) (fixed_seed : option var) : M unit :=
  if plot then
    match fixed_seed with
    | Some fixed_seed =>
        pred <- call Gen (gen self) false fixed_seed ;;
        pred_cpu <- cpu pred ;;
        plotter pred_cpu 8 8
    | None => ret ()
    end
  else ret ().

(** [enumerate(dl)]: the batches of one pass over the loader *)
Definition iterate (dl : pyobj) : M (list (Z * tensor elt)) :=
  λ w, let r := py_iter dl (rng w) in (Ok (enumerate r.1), set_rng r.2 w).

(** The body of the outer loop, lines 80-149 *)
Definition train_epoch (self : GAN) (dl : pyobj) (device : device) (plot : bool)
    (fixed_seed : option var) (num_epochs : Z)
    (epoch : Z) (opts : optimizer * optimizer) : M (optimizer * optimizer) :=
  batches <- iterate dl ;;
  opts <- for_ batches opts (λ '(i, t) opts,
    data <- new_var EvYield t GNone ;;
    train_step self device epoch num_epochs i data opts) ;;
  end_of_epoch self plot fixed_seed ;;;
  ret opts.

(** [GAN.train] *)
Definition train (self : GAN) (dl : pyobj) (num_epochs batch_size : Z)
    (device : device) (plot : bool) : M unit :=
  assert_ (bool_decide (py_type dl = DataLoader))
    "Require PyTorch's DataLoader for your dataloader" ;;;
  let gen_optimizer := AdamW (parameters (gen self)) (gen_lr self) (gen_betas self) in
  let dis_optimizer := AdamW (parameters (dis self)) (dis_lr self) (dis_betas self) in
  module_to Dis (dis self) device ;;;
  module_to Gen (gen self) device ;;;
  fixed_seed <- (if plot then
                   fixed_seed <- randn [64; seed_size self; 1; 1] device ;;
                   ret (Some fixed_seed)
                 else ret None) ;;
  for_ (range num_epochs) (gen_optimizer, dis_optimizer)
    (train_epoch self dl device plot fixed_seed num_epochs) ;;;
  ret ().

(** What [generate] returns: a pair or a single tensor. *)
Inductive generated :=
  | Pair (generated noise : var)
  | Single (generated : var).

(** [GAN.generate] *)
Definition generate (self : GAN) (num_rows num_cols : Z) (device : device)
    (plot return_noise : bool) : M generated :=
  noise <- randn [num_rows * num_cols; seed_size self; 1; 1] device ;;
  out <- call Gen (gen self) true noise ;;
  out_cpu <- cpu out ;;
  generated <- detach out_cpu ;;
  (if plot then plotter generated num_rows num_cols else ret ()) ;;;
  if return_noise then
    noise_cpu <- cpu noise ;;
    ret (Pair generated noise_cpu)
  else ret (Single generated).

(** A call [self.generate()] with every argument at its default. *)
Definition generate_plain (self : GAN) (cuda_is_available : bool) : M generated :=
  generate self 8 8 (default_device cuda_is_available) true true.

End Gan.

Arguments plotter : simpl never.


(** ** Reading a trace *)

(** The tensors an event creates, and those it reads. *)
Definition event_outputs (e : event) : list nat :=
  match e with
  | EvRandn _ o | EvYield o | EvForward _ _ _ o | EvTo _ _ o | EvDetach _ o
  | EvView _ o | EvFull _ _ o | EvLoss _ _ o | EvAdd _ _ o => [o]
  | _ => []
  end.


Definition net_eqb (n n' : net) : bool :=
  match n, n' with
  | Gen, Gen | Dis, Dis => true
  | _, _ => false
  end.

(** The forward passes of network [n]: gradient tracking, input, output. *)
Definition forwards_of (n : net) (evs : list event) : list (bool * nat * nat) :=
  omap (λ e, match e with
             | EvForward n' tr i o => if net_eqb n' n then Some (tr, i, o) else None
             | _ => None
             end) evs.


(** The calls of [torch.full]: size, fill value, output. *)
Definition fulls (evs : list event) : list (list Z * Q * nat) :=
  omap (λ e, match e with EvFull sz v o => Some (sz, v, o) | _ => None end) evs.

(** The loss evaluations: prediction, target, output. *)
Definition losses (evs : list event) : list (nat * nat * nat) :=
  omap (λ e, match e with EvLoss p t o => Some (p, t, o) | _ => None end) evs.


(** The forward passes of the generator made without gradient tracking. *)
Definition untracked_inputs (evs : list event) : list nat :=
  omap (λ e, match e with EvForward Gen false i _ => Some i | _ => None end) evs.

(** The optimizer steps, the batches yielded and the figures shown. *)
Definition steps_of (evs : list event) : list net :=
  omap (λ e, match e with EvStep n => Some n | _ => None end) evs.

Definition yields_of (evs : list event) : list nat :=
  omap (λ e, match e with EvYield o => Some o | _ => None end) evs.

Definition shows_of (evs : list event) : list (nat * Z * Z * list (Z * Z * Z)) :=
  omap (λ e, match e with EvShow src r c cells => Some (src, r, c, cells) | _ => None end) evs.

Definition prints_of (evs : list event) : list string :=
  omap (λ e, match e with EvPrint line => Some line | _ => None end) evs.



Fixpoint after (P : event → bool) (evs : list event) : list event :=
  match evs with
  | [] => []
  | e :: evs' => if P e then evs' else after P evs'
  end.

(** [self.gen.zero_grad()], the first call of the generator update, and
    [dis_optimizer.step()], the last call of the discriminator update. *)
Definition is_zero_grad_gen (e : event) : bool :=
  match e with EvZeroGrad Gen => true | _ => false end.


(** The calls of lines 91-115 in order, when the first free tensor
    identifier is [n]; [moved] tells whether [data.to(device)] had to copy. *)
Definition dis_calls (b seed : Z) (d : device) (data : nat) (moved : bool) (n : nat) : list event :=
  let k := (if moved then 1 else 0)%nat in
  let real_img := if moved then (n + 2)%nat else data in
  [EvZeroGrad Dis;
   EvRandn [b; seed; 1; 1] n;
   EvForward Gen true n (n + 1)] ++
  (if moved then [EvTo d data (n + 2)] else []) ++
  [EvDetach (n + 1) (n + k + 2);
   EvForward Dis true (n + k + 2) (n + k + 3);
   EvForward Dis true real_img (n + k + 4);
   EvFull [b] 0.1 (n + k + 5);
   EvFull [b] 0.9 (n + k + 6);
   EvView (n + k + 3) (n + k + 7);
   EvLoss (n + k + 7) (n + k + 5) (n + k + 8);
   EvView (n + k + 4) (n + k + 9);
   EvLoss (n + k + 9) (n + k + 6) (n + k + 10);
   EvBackward (n + k + 10);
   EvBackward (n + k + 8);
   EvAdd (n + k + 8) (n + k + 10) (n + k + 11);
   EvStep Dis]%nat.

(** The calls of lines 123-133 in order, on the tensors [fake_img] and
    [real_dis_lbl], when the first free tensor identifier is [n]. *)
Definition gen_calls (fake_img real_dis_lbl : nat) (n : nat) : list event :=
  [EvZeroGrad Gen;
   EvForward Dis true fake_img n;
   EvView n (n + 1);
   EvLoss (n + 1) real_dis_lbl (n + 2);
   EvBackward (n + 2);
   EvStep Gen]%nat.

(** The calls of lines 91-133. *)
Definition step_calls (b seed : Z) (d : device) (data : nat) (moved : bool) (n : nat) : list event :=
  let k := (if moved then 1 else 0)%nat in
  dis_calls b seed d data moved n ++ gen_calls (n + 1) (n + k + 6) (n + k + 12).

(** The loop of [named_modules] over the sub-modules. *)
Fixpoint named_modules_list (memo : gset nat) (cs : list nn_module) : list nn_module * gset nat :=
  match cs with
  | [] => ([], memo)
  | c :: cs' =>
      let r1 := named_modules memo c in
      let r2 := named_modules_list r1.2 cs' in
      (r1.1 ++ r2.1, r2.2)
  end.

(** Number of module objects of a tree, with repetitions. *)
Fixpoint msize (m : nn_module) : nat :=
  match m with
  | Layer _ _ _ _ cs => S (foldr (λ c n, (msize c + n)%nat) 0%nat cs)
  end.

(** Identifiers are object identities: two modules of the tree with the same
    identifier are the same module. *)
Definition identified (ds : list nn_module) : Prop :=
  ∀ x y, x ∈ ds → y ∈ ds → mid x = mid y → x = y.

(** A memo is closed on [ds] when a module of [ds] that is in it has all its
    descendants in it. *)
Definition closed_on (memo : gset nat) (ds : list nn_module) : Prop :=
  ∀ x, x ∈ ds → mid x ∈ memo → ∀ d, d ∈ descendants x → mid d ∈ memo.

(** What one traversal yields from the memo [memo]: modules of [ds] not in
    the memo, each once; the memo grows by them; and every module of [ds] is
    in the memo afterwards. *)
Definition traversal (memo : gset nat) (ds : list nn_module) (r : list nn_module * gset nat) : Prop :=
  NoDup (mid <$> r.1)
  ∧ (∀ x, x ∈ r.1 → mid x ∉ memo)
  ∧ (∀ x, x ∈ r.1 → x ∈ ds)
  ∧ (∀ i, i ∈ r.2 ↔ i ∈ memo ∨ i ∈ mid <$> r.1)
  ∧ (∀ d, d ∈ ds → mid d ∈ r.2).

(** The parameters [weight_init] writes in a layer, and the calls it makes
    for it. *)
Definition init_targets (layer : nn_module) : list nat :=
  if contains "Conv" (cls_name layer) then option_list (weight layer)
  else if contains "BatchNorm" (cls_name layer) then
    option_list (weight layer) ++ option_list (bias layer)
  else [].

Definition init_calls (layer : nn_module) : list event :=
  if contains "Conv" (cls_name layer) then
    (λ p, EvInitNormal p 0 0.02) <$> option_list (weight layer)
  else if contains "BatchNorm" (cls_name layer) then
    ((λ p, EvInitNormal p 1 0.02) <$> option_list (weight layer))
    ++ ((λ q, EvInitConstant q 0) <$> option_list (bias layer))
  else [].

(** The attributes that [weight_init] reads exist. *)
Definition has_attrs (layer : nn_module) : Prop :=
  if contains "Conv" (cls_name layer) then is_Some (weight layer)
  else if contains "BatchNorm" (cls_name layer) then
    is_Some (weight layer) ∧ is_Some (bias layer)
  else True.

(** The cells of a grid, row by row. *)
Definition grid_cells (rows columns : Z) : list (Z * Z * Z) :=
  foldl (λ cells i, foldl (λ cells j, cells ++ [(i, j, j + i * columns)]) cells (range columns))
    [] (range rows).

Section Reached.
Context `{Torch}.

(** A backward sweep reaches the parameters of the networks on its path only. *)
Fixpoint reached (g : graph) : list nat :=
  match g with
  | GNone => []
  | GForward m _ _ _ gx => parameters m ++ reached gx
  | GView g' => reached g'
  | GBce _ _ g' => reached g'
  | GAdd g1 g2 => reached g1 ++ reached g2
  end.



(** What [generate] computes before it plots: the latent batch, and the
    batch generated from it, detached and on the host. *)
Definition latents (self : GAN) (num_rows num_cols : Z) (d : device) (w : world) : tensor elt :=
  Tensor [num_rows * num_cols; seed_size self; 1; 1] d
    (randn_data (rng w) (numel [num_rows * num_cols; seed_size self; 1; 1])).1.

Definition images (self : GAN) (num_rows num_cols : Z) (d : device) (w : world) : tensor elt :=
  Tensor (num_rows * num_cols :: item_shape (gen self) [seed_size self; 1; 1]) CPU
    (forward_data (gen self) ((λ p, params w !! p) <$> parameters (gen self))
       (bufs w !! mid (gen self)) (latents self num_rows num_cols d w)).

Definition on_cpu (t : tensor elt) : tensor elt := Tensor (shape t) CPU (data t).

(** What [normal_] and [constant_] leave in a tensor. *)
Definition normal_fill (r : rng_state) (mean std : Q) (t : tensor elt) : tensor elt :=
  Tensor (shape t) (dev t) (normal_data r (numel (shape t)) mean std).1.

Definition constant_fill (v : Q) (t : tensor elt) : tensor elt :=
  Tensor (shape t) (dev t) ((λ _, fl v) <$> data t).

(** An event creates tensors numbered from [n] on; an event that is a
    forward pass of the generator without gradient tracking reads the tensor
    [fid]. *)
Definition fresh_from (n : nat) (e : event) : Prop :=
  Forall (λ o, (n ≤ o)%nat) (event_outputs e).

Definition uses_fixed (fid : nat) (e : event) : Prop :=
  match e with
  | EvForward Gen false i _ => i = fid
  | _ => True
  end.

(** From [w] to [w']: tensor objects are only added, under fresh
    identifiers, and the calls made in between obey [uses_fixed]. *)
Definition grows (fid : nat) (w w' : world) : Prop :=
  (next_tid w ≤ next_tid w')%nat
  ∧ (∀ i, (i < next_tid w)%nat → heap w' !! i = heap w !! i)
  ∧ ∃ evs, trace w' = trace w ++ evs
           ∧ Forall (λ e, fresh_from (next_tid w) e ∧ uses_fixed fid e) evs.

(** The same, with no forward pass of the generator without gradient
    tracking in between. *)
Definition quiet (fid : nat) (w w' : world) : Prop :=
  grows fid w w' ∧ untracked_inputs (trace w') = untracked_inputs (trace w).

(** What [weight_init] has done to the parameters of a layer, between the
    states [w] and [w']. *)
Definition initialised (layer : nn_module) (w w' : world) : Prop :=
  if contains "Conv" (cls_name layer) then
    ∀ p, weight layer = Some p →
      ∃ r, params w' !! p = normal_fill r 0 0.02 <$> params w !! p
  else if contains "BatchNorm" (cls_name layer) then
    ∀ p q, weight layer = Some p → bias layer = Some q →
      (∃ r, params w' !! p = normal_fill r 1 0.02 <$> params w !! p)
      ∧ params w' !! q = constant_fill 0 <$> params w !! q
  else True.

(** The calls of one epoch with the plot on, in two parts.  First those of
    its batches: as many batches as one pass over the loader yields, each
    followed by the two optimizer steps, with no forward pass of the
    generator without gradient tracking and no figure.  Then those of the
    end of the epoch: the forward pass of the generator on the tensor [fid]
    without gradient tracking, the copy of its output to the host if it is
    not there, and the 8x8 figure of that output. *)
Definition epoch_events (dl : pyobj) (fid : nat) (sg : list event * list event) : Prop :=
  untracked_inputs sg.1 = [] ∧ shows_of sg.1 = []
  ∧ (∃ r, length (yields_of sg.1) = length (py_iter dl r).1)
  ∧ steps_of sg.1 = concat (replicate (length (yields_of sg.1)) [Dis; Gen])
  ∧ ∃ out src cells,
      (sg.2 = [EvForward Gen false fid out; EvShow src 8 8 cells] ∧ src = out)
      ∨ sg.2 = [EvForward Gen false fid out; EvTo CPU out src; EvShow src 8 8 cells].

End Reached.

(** Lookup of an identifier in a heap built by successive allocations. *)
Ltac heap_lookup :=
  repeat (rewrite lookup_insert; destruct (decide _) as [?|?];
          [first [lia | reflexivity | idtac] | try lia]);
  try reflexivity.

(** ** A small concrete backend and a small model, to run the definitions on *)

(** Floats are rationals; the samplers return their mean; a network's output
    is filled with the sum of its first parameter and its input's first
    element; AdamW subtracts the learning rate times the gradient. *)
Definition toy_first (t : option (tensor Q)) : Q :=
  match t with
  | Some (Tensor _ _ (x :: _)) => x
  | _ => 0%Q
  end.

Definition toy_forward (m : nn_module) (θ : list (option (tensor Q))) (x : tensor Q) : Q :=
  (toy_first (mjoin (head θ)) + toy_first (Some x))%Q.

Definition toy_item_shape (m : nn_module) : list Z :=
  if decide (cls_name m = "Generator") then [3; 2; 2] else [1; 1; 1].

Definition toy_numel_out (m : nn_module) (sh : list Z) : Z :=
  match sh with
  | [] => 1
  | n :: _ => n * numel (toy_item_shape m)
  end.

Definition toy_torch : Torch := {|
  elt := Q;
  fl := id;
  rng_state := nat;
  buffers := nat;
  adam_state := nat;
  zero_grad_set_to_none := true;
  randn_data r n := (replicate (Z.to_nat n) (inject_Z (Z.of_nat r)), S r);
  normal_data r n mean std := (replicate (Z.to_nat n) mean, S r);
  fadd := Qplus;
  item_shape m sh := toy_item_shape m;
  forward_data m θ b x := replicate (Z.to_nat (toy_numel_out m (shape x))) (toy_forward m θ x);
  forward_buffers m θ b x := S (default 0%nat b);
  vjp_param m θ b x i up := Tensor [1] (dev x) [toy_first (Some up)];
  vjp_input m θ b x up := Tensor (shape x) (dev x) ((λ _, toy_first (Some up)) <$> data x);
  bce_value pred target := (toy_first (Some pred) - toy_first (Some target))%Q;
  bce_vjp pred target up := Tensor (shape pred) (dev pred) ((λ _, toy_first (Some up)) <$> data pred);
  adamw_update lr betas st θ g :=
    (Tensor (shape θ) (dev θ) ((λ x, x - lr * toy_first (Some g))%Q <$> data θ), S (default 0%nat st));
  fmt4 x := pretty (Qnum x) +:+ "/" +:+ pretty (Zpos (Qden x))
|}.

Section Toy.
#[local] Existing Instance toy_torch.

Definition toy_gen : nn_module :=
  Layer 0 "Generator" None None
    [Layer 1 "ConvTranspose2d" (Some 10%nat) None [];
     Layer 2 "BatchNorm2d" (Some 11%nat) (Some 12%nat) [];
     Layer 3 "ReLU" None None []].

Definition toy_dis : nn_module :=
  Layer 4 "Discriminator" None None
    [Layer 5 "Conv2d" (Some 20%nat) (Some 21%nat) [];
     Layer 6 "Sigmoid" None None []].

Definition toy_scalar (x : Q) : tensor Q := Tensor [1] CPU [x].

Definition toy_world : world :=
  World (list_to_map [(10%nat, toy_scalar 5); (11%nat, toy_scalar 6); (12%nat, toy_scalar 7);
                      (20%nat, toy_scalar 8); (21%nat, toy_scalar 9)])
    ∅ ∅ ∅ 0%nat 0%nat [].

Definition toy_self : GAN :=
  {| seed_size := 2; gen := toy_gen; dis := toy_dis; print_loss_every := 25;
     gen_lr := 0.0002%Q; dis_lr := 0.0002%Q;
     gen_betas := (0.5%Q, 0.999%Q); dis_betas := (0.5%Q, 0.999%Q) |}.

(** Two batches of four 3x2x2 images. *)
Definition toy_batch (x : Q) : tensor Q := Tensor [4; 3; 2; 2] CPU (replicate 48 x).

Definition toy_dl : pyobj :=
  {| py_type := DataLoader; py_iter := λ r, ([toy_batch 1; toy_batch 2], r) |}.

(** The first batch, as yielded by the loader, and the state it is
    yielded in. *)
Definition toy_data : var := Var 0 (toy_batch 1) GNone.

Definition toy_world1 : world := (new_var EvYield (toy_batch 1) GNone toy_world).2.

(** A Python list passed where a loader is expected. *)
Definition toy_list : pyobj :=
  {| py_type := "builtins.list"; py_iter := λ r, ([toy_batch 1], r) |}.

(** A layer whose class name contains both "Conv" and "BatchNorm". *)
Definition toy_fused : nn_module :=
  Layer 7 "ConvBatchNorm2d" (Some 30%nat) (Some 31%nat) [].

Definition toy_world_fused : world :=
  World (list_to_map [(30%nat, toy_scalar 5); (31%nat, toy_scalar 7)]) ∅ ∅ ∅ 0%nat 0%nat [].

End Toy.


(** ** Further observers *)

(** The calls [weight_init] makes. *)
Definition init_event (e : event) : bool :=
  match e with
  | EvInitNormal _ _ _ | EvInitConstant _ _ => true
  | _ => false
  end.

(** The calls [weight_init] makes for a layer whose attributes are not all
    there, up to the attribute access that fails. *)
Definition init_calls_partial (layer : nn_module) : list event :=
  if contains "Conv" (cls_name layer) then []
  else (λ p, EvInitNormal p 1 0.02) <$> option_list (weight layer).

Section Layout.
Context `{Torch}.

(** From [w] to [w']: the same parameters, each with its shape and its device. *)
Definition same_layout (w w' : world) : Prop :=
  ∀ p, match params w !! p, params w' !! p with
       | Some t, Some t' => shape t' = shape t ∧ dev t' = dev t
       | None, None => True
       | _, _ => False
       end.

(** From [w] to [w']: nothing but the values of the parameters, the random
    generator and the trace has changed, and the trace by calls of
    [nn.init] only. *)
Definition only_refills (w w' : world) : Prop :=
  grads w' = grads w ∧ bufs w' = bufs w ∧ heap w' = heap w ∧ next_tid w' = next_tid w
  ∧ same_layout w w'
  ∧ ∃ evs, trace w' = trace w ++ evs ∧ Forall (λ e, init_event e = true) evs.

End Layout.

Section Runs.
Context `{Torch}.

(** From [w] to [w']: [nb] batches were yielded, each followed by an update
    of the discriminator and then one of the generator, and [ns] figures
    were shown. *)
Definition ran (nb ns : nat) (w w' : world) : Prop :=
  ∃ evs, trace w' = trace w ++ evs
         ∧ steps_of evs = concat (replicate nb [Dis; Gen])
         ∧ length (yields_of evs) = nb
         ∧ length (shows_of evs) = ns.

(** Every batch the loader yields has a first dimension. *)
Definition batched (dl : pyobj) : Prop :=
  ∀ r t, t ∈ (py_iter dl r).1 → shape t ≠ [].

(** [m.to(d)] on the value of a parameter. *)
Definition moved_to (d : device) (t : tensor elt) : tensor elt :=
  Tensor (shape t) d (data t).

(** From [w] to [w']: the parameters outside [ps] have kept their value and
    their gradient. *)
Definition outside (ps : list nat) (w w' : world) : Prop :=
  ∀ p, p ∉ ps → params w' !! p = params w !! p ∧ grads w' !! p = grads w !! p.

End Runs.

Section Untrained.
Context `{Torch}.

(** From [w] to [w']: no parameter and no gradient has changed. *)
Definition untrained (w w' : world) : Prop :=
  params w' = params w ∧ grads w' = grads w.

(** The two optimizers of [train] hold the parameters of their networks. *)
Definition own_optimizers (self : GAN) (opts : optimizer * optimizer) : Prop :=
  opt_params opts.1 = parameters (gen self) ∧ opt_params opts.2 = parameters (dis self).

End Untrained.

(** ** More of the small model *)

Section ToyMore.
#[local] Existing Instance toy_torch.

(** A network whose batch normalisation has a weight and no bias. *)
Definition toy_no_bias : nn_module :=
  Layer 8 "Net" None None
    [Layer 9 "Conv2d" (Some 40%nat) None [];
     Layer 10 "BatchNorm2d" (Some 41%nat) None [];
     Layer 11 "Conv2d" (Some 42%nat) None []].

(** The object [GAN(seed_size=2, print_loss_every=0)]. *)
Definition toy_self0 : GAN :=
  {| seed_size := 2; gen := toy_gen; dis := toy_dis; print_loss_every := 0;
     gen_lr := 0.0002%Q; dis_lr := 0.0002%Q;
     gen_betas := (0.5%Q, 0.999%Q); dis_betas := (0.5%Q, 0.999%Q) |}.



(** The state of the small model once the first weight of the generator
    has a gradient, on the host. *)
Definition toy_world_graded : world :=
  set_grads (λ _, {[10%nat := toy_scalar 1]}) toy_world.

End ToyMore.
(** * Properties *)

(** ** Parameter lists *)




Section Frames.
Context `{Torch}.

(** ** What the optimizer and the backward sweep touch *)

Lemma step_params_frame lr betas ps gs acc (p : nat) :
  p ∉ ps → (step_params lr betas ps gs acc).1 !! p = acc.1 !! p.
Proof.
  revert acc. induction ps as [|q ps IH]; intros acc Hp; simpl; [done|].
  apply not_elem_of_cons in Hp as [Hne Hp].
  rewrite IH by done.
  destruct (acc.1 !! q), (gs !! q); simpl; try done.
  by rewrite lookup_insert_ne.
Qed.

Lemma accumulate_frame ps i f gs (p : nat) :
  p ∉ ps → accumulate ps i f gs !! p = gs !! p.
Proof.
  revert i gs. induction ps as [|q ps IH]; intros i gs Hp; simpl; [done|].
  apply not_elem_of_cons in Hp as [Hne Hp].
  rewrite IH by done. by rewrite lookup_insert_ne.
Qed.


Lemma step_params_local lr betas ps gs acc acc' (p : nat) :
  acc.1 !! p = acc'.1 !! p → acc.2 !! p = acc'.2 !! p →
  (step_params lr betas ps gs acc).1 !! p = (step_params lr betas ps gs acc').1 !! p.
Proof.
  revert acc acc'. induction ps as [|q ps IH]; intros acc acc' H1 H2; simpl; [done|].
  destruct (decide (q = p)) as [->|Hne].
  - rewrite <- H1, <- H2.
    destruct (acc.1 !! p) eqn:E1, (gs !! p); simpl; apply IH; simpl;
      rewrite ?lookup_insert_eq; congruence.
  - apply IH.
    + destruct (acc.1 !! q), (acc'.1 !! q), (gs !! q); simpl; by rewrite ?lookup_insert_ne.
    + destruct (acc.1 !! q), (acc'.1 !! q), (gs !! q); simpl; by rewrite ?lookup_insert_ne.
Qed.

Lemma backprop_frame g up gs (p : nat) :
  p ∉ reached g → backprop g up gs !! p = gs !! p.
Proof.
  revert up gs. induction g as [|m θ b x gx IH|g IH|pr tg g IH|g1 IH1 g2 IH2];
    intros up gs Hp; simpl in *; try done; try (by apply IH).
  - apply not_elem_of_app in Hp as [Hm Hg].
    rewrite IH by done. by apply accumulate_frame.
  - apply not_elem_of_app in Hp as [H1 H2].
    rewrite IH2 by done. by apply IH1.
Qed.

End Frames.

Section Step.
Context `{Torch}.

(** ** The two phases of a training step and the parameters *)

Lemma dis_phase_params self o device data b w :
  ∃ gs, params (dis_phase self o device data b w).2 =
        (step_params (opt_lr o) (opt_betas o) (opt_params o) gs (params w, opt_state o)).1.
Proof.
  unfold dis_phase, to. destruct (device_eqb _ _); eexists; cbn; reflexivity.
Qed.

Lemma gen_phase_params self o fake_img real_dis_lbl w :
  ∃ gs, params (gen_phase self o fake_img real_dis_lbl w).2 =
        (step_params (opt_lr o) (opt_betas o) (opt_params o) gs (params w, opt_state o)).1.
Proof. unfold gen_phase. eexists; cbn; reflexivity. Qed.

Lemma train_step_params self device epoch num_epochs i data og od w b s :
  shape (value data) = b :: s →
  ∃ gs_d gs_g,
    params (train_step self device epoch num_epochs i data (og, od) w).2 =
    (step_params (opt_lr og) (opt_betas og) (opt_params og) gs_g
       ((step_params (opt_lr od) (opt_betas od) (opt_params od) gs_d (params w, opt_state od)).1,
        opt_state og)).1.
Proof.
  intros Hshape. unfold train_step, shape0. rewrite Hshape.
  unfold dis_phase, gen_phase, report, to.
  destruct (device_eqb _ _); repeat case_decide; do 2 eexists; cbn; reflexivity.
Qed.

(** C1. Under the invariant that the two networks share no parameter: the
    discriminator update (lines 91-115) leaves every generator parameter as it
    was, the generator update (lines 123-133) leaves every discriminator
    parameter as it was, each optimizer's [step] leaves the other network's
    parameters as they were, each phase changes the parameter store by its
    one AdamW pass and by nothing else, and a whole step on a batch with a
    sample dimension leaves a generator parameter at the value that the
    generator's AdamW pass gives it from its value before the step. *)
Theorem C1_updates_leave_the_other_network (self : GAN) lr_g betas_g st_g lr_d betas_d st_d
    (device : device) (data fake_img real_dis_lbl : var) (b : Z) (s : list Z)
    (epoch num_epochs i : Z) (w : world) :
  parameters (gen self) ## parameters (dis self) →
  shape (value data) = b :: s →
  (∀ p, p ∈ parameters (gen self) →
     params (dis_phase self (Optimizer (parameters (dis self)) lr_d betas_d st_d)
               device data b w).2 !! p = params w !! p)
  ∧ (∀ p, p ∈ parameters (dis self) →
     params (gen_phase self (Optimizer (parameters (gen self)) lr_g betas_g st_g)
               fake_img real_dis_lbl w).2 !! p = params w !! p)
  ∧ (∀ p, p ∈ parameters (gen self) →
     params (step Dis (Optimizer (parameters (dis self)) lr_d betas_d st_d) w).2 !! p
     = params w !! p)
  ∧ (∀ p, p ∈ parameters (dis self) →
     params (step Gen (Optimizer (parameters (gen self)) lr_g betas_g st_g) w).2 !! p
     = params w !! p)
  ∧ (∃ gs, params (dis_phase self (Optimizer (parameters (dis self)) lr_d betas_d st_d)
                     device data b w).2 =
           (step_params lr_d betas_d (parameters (dis self)) gs (params w, st_d)).1)
  ∧ (∃ gs, params (gen_phase self (Optimizer (parameters (gen self)) lr_g betas_g st_g)
                     fake_img real_dis_lbl w).2 =
           (step_params lr_g betas_g (parameters (gen self)) gs (params w, st_g)).1)
  ∧ (∃ gs, ∀ p, p ∈ parameters (gen self) →
       params (train_step self device epoch num_epochs i data
                 (Optimizer (parameters (gen self)) lr_g betas_g st_g,
                  Optimizer (parameters (dis self)) lr_d betas_d st_d) w).2 !! p =
       (step_params lr_g betas_g (parameters (gen self)) gs (params w, st_g)).1 !! p).
Proof.
  intros Hdisj Hshape.
  assert (Hgd : ∀ p, p ∈ parameters (gen self) → p ∉ parameters (dis self))
    by (intros p Hg Hd; exact (Hdisj p Hg Hd)).
  assert (Hdg : ∀ p, p ∈ parameters (dis self) → p ∉ parameters (gen self))
    by (intros p Hd Hg; exact (Hdisj p Hg Hd)).
  split_and!.
  - intros p Hp. destruct (dis_phase_params self
      (Optimizer (parameters (dis self)) lr_d betas_d st_d) device data b w) as [gs ->].
    apply step_params_frame. auto.
  - intros p Hp. destruct (gen_phase_params self
      (Optimizer (parameters (gen self)) lr_g betas_g st_g) fake_img real_dis_lbl w) as [gs ->].
    apply step_params_frame. auto.
  - intros p Hp. apply (step_params_frame _ _ _ _ (params w, st_d)). auto.
  - intros p Hp. apply (step_params_frame _ _ _ _ (params w, st_g)). auto.
  - apply (dis_phase_params self (Optimizer (parameters (dis self)) lr_d betas_d st_d)).
  - apply (gen_phase_params self (Optimizer (parameters (gen self)) lr_g betas_g st_g)).
  - destruct (train_step_params self device epoch num_epochs i data
      (Optimizer (parameters (gen self)) lr_g betas_g st_g)
      (Optimizer (parameters (dis self)) lr_d betas_d st_d) w b s Hshape) as (gs_d & gs_g & ->).
    exists gs_g. intros p Hp. simpl.
    apply step_params_local; simpl; [|done].
    apply step_params_frame. auto.
Qed.

(** ** The batch source and the batch-size argument *)

(** C7. A batch source whose type is not torch's [DataLoader] makes [train]
    raise [AssertionError] with the message of line 68, in the state in which
    it was called: no parameter, gradient, buffer or tensor has changed, no
    network was moved, no library call was made. *)
Theorem C7_wrong_batch_source_fails_fast (self : GAN) (dl : pyobj) (num_epochs batch_size : Z)
    (device : device) (plot : bool) (w : world) :
  py_type dl ≠ DataLoader →
  train self dl num_epochs batch_size device plot w =
  (Raise (AssertionError "Require PyTorch's DataLoader for your dataloader"), w).
Proof.
  intros Hty. unfold train, assert_. rewrite bool_decide_eq_false_2 by done. reflexivity.
Qed.

(** C9. The argument [batch_size] of [train] is not read: two calls that
    differ in it only are the same computation, hence leave the same
    parameters, gradients, tensors, random state and trace (which holds the
    printed lines), and return or raise alike. *)
Theorem C9_batch_size_is_not_read (self : GAN) (dl : pyobj) (num_epochs : Z)
    (batch_size batch_size' : Z) (device : device) (plot : bool) :
  train self dl num_epochs batch_size device plot =
  train self dl num_epochs batch_size' device plot.
Proof. unfold train. reflexivity. Qed.

End Step.

(** ** One training step, call by call *)

Lemma app4 {A} (a b c d : list A) : ((a ++ b) ++ c) ++ d = a ++ (b ++ c) ++ d.
Proof. by rewrite <- !app_assoc. Qed.

Lemma numel_1 (b : Z) : numel [b] = b.
Proof. unfold numel. simpl. lia. Qed.

Section StepCalls.
Context `{Torch}.

Lemma bind_Ok {A B} (c : M A) (k : A → M B) w a w' :
  c w = (Ok a, w') → bind c k w = k a w'.
Proof. intros Hc. unfold bind. by rewrite Hc. Qed.

Lemma bind_Raise {A B} (c : M A) (k : A → M B) w e w' :
  c w = (Raise e, w') → bind c k w = (Raise e, w').
Proof. intros Hc. unfold bind. by rewrite Hc. Qed.

Lemma steps_of_app evs evs' : steps_of (evs ++ evs') = steps_of evs ++ steps_of evs'.
Proof. apply omap_app. Qed.

Lemma yields_of_app evs evs' : yields_of (evs ++ evs') = yields_of evs ++ yields_of evs'.
Proof. apply omap_app. Qed.

Lemma shows_of_app evs evs' : shows_of (evs ++ evs') = shows_of evs ++ shows_of evs'.
Proof. apply omap_app. Qed.

Lemma prints_of_app evs evs' : prints_of (evs ++ evs') = prints_of evs ++ prints_of evs'.
Proof. apply omap_app. Qed.

Lemma steps_of_step_calls b seed d batch moved n :
  steps_of (step_calls b seed d batch moved n) = [Dis; Gen]
  ∧ yields_of (step_calls b seed d batch moved n) = []
  ∧ shows_of (step_calls b seed d batch moved n) = []
  ∧ prints_of (step_calls b seed d batch moved n) = [].
Proof. by destruct moved. Qed.

(** The discriminator update returns; its calls, the tensors it leaves on
    the heap, and what it hands to the generator update. *)
Lemma dis_phase_spec self o device data b w :
  let moved := negb (device_eqb (dev (value data)) device) in
  let k := (if moved then 1 else 0)%nat in
  let n := next_tid w in
  ∃ fake_img real_dis_lbl dis_loss o' w1,
    dis_phase self o device data b w = (Ok (fake_img, real_dis_lbl, dis_loss, o'), w1)
    ∧ tid fake_img = (n + 1)%nat
    ∧ tid real_dis_lbl = (n + k + 6)%nat
    ∧ tid dis_loss = (n + k + 11)%nat
    ∧ opt_params o' = opt_params o ∧ opt_lr o' = opt_lr o ∧ opt_betas o' = opt_betas o
    ∧ next_tid w1 = (n + k + 12)%nat
    ∧ trace w1 = trace w ++ dis_calls b (seed_size self) device (tid data) moved n
    ∧ heap w1 !! (n + 1)%nat = Some (value fake_img)
    ∧ heap w1 !! (n + k + 5)%nat = Some (Tensor [b] device (replicate (Z.to_nat b) (fl 0.1)))
    ∧ heap w1 !! (n + k + 6)%nat = Some (Tensor [b] device (replicate (Z.to_nat b) (fl 0.9)))
    ∧ value real_dis_lbl = Tensor [b] device (replicate (Z.to_nat b) (fl 0.9))
    ∧ (∀ i, (i < n)%nat → heap w1 !! i = heap w !! i).
Proof.
  intros moved k n. subst moved k n. unfold dis_phase, to, dis_calls.
  destruct (device_eqb _ _); cbn [negb].
  - do 5 eexists. split; [cbn; reflexivity|]. cbn. rewrite !numel_1.
    split_and!; try reflexivity; try lia.
    + rewrite <- !app_assoc. cbn. repeat f_equal; lia.
    + heap_lookup.
    + heap_lookup.
    + heap_lookup.
    + intros i Hi. heap_lookup.
  - do 5 eexists. split; [cbn; reflexivity|]. cbn. rewrite !numel_1.
    split_and!; try reflexivity; try lia.
    + rewrite <- !app_assoc. cbn. repeat f_equal; lia.
    + heap_lookup.
    + heap_lookup.
    + heap_lookup.
    + intros i Hi. heap_lookup.
Qed.

(** The generator update returns; its calls. *)
Lemma gen_phase_spec self o fake_img real_dis_lbl w :
  let n := next_tid w in
  ∃ gen_loss o' w2,
    gen_phase self o fake_img real_dis_lbl w = (Ok (gen_loss, o'), w2)
    ∧ tid gen_loss = (n + 2)%nat
    ∧ opt_params o' = opt_params o ∧ opt_lr o' = opt_lr o ∧ opt_betas o' = opt_betas o
    ∧ next_tid w2 = (n + 3)%nat
    ∧ trace w2 = trace w ++ gen_calls (tid fake_img) (tid real_dis_lbl) n
    ∧ (∀ i, (i < n)%nat → heap w2 !! i = heap w !! i).
Proof.
  intros n. subst n. unfold gen_phase, gen_calls.
  do 3 eexists. split; [cbn; reflexivity|]. cbn.
  split_and!; try reflexivity; try lia.
  - rewrite <- !app_assoc. cbn. repeat f_equal; lia.
  - intros i Hi. heap_lookup.
Qed.




(** The report prints at most one line and touches nothing else; it raises
    only on a zero logging interval. *)
Lemma report_spec self i epoch num_epochs dis_loss gen_loss w :
  ∃ r pr, report self i epoch num_epochs dis_loss gen_loss w = (r, set_trace (trace w ++ pr) w)
          ∧ (pr = [] ∨ ∃ line, pr = [EvPrint line])
          ∧ (print_loss_every self ≠ 0 → r = Ok ()).
Proof.
  unfold report. repeat case_decide.
  - exists (Raise ZeroDivisionError), []. rewrite app_nil_r. destruct w. split_and!; auto. done.
  - eexists (Ok ()), [_]. split_and!; [reflexivity|eauto|done].
  - exists (Ok ()), []. rewrite app_nil_r. destruct w. split_and!; auto.
Qed.

(** A whole step on a batch with a sample dimension: it makes the calls of
    [step_calls], then prints at most one line. *)
Lemma train_step_spec self device epoch num_epochs i data opts w b s :
  shape (value data) = b :: s →
  let moved := negb (device_eqb (dev (value data)) device) in
  let k := (if moved then 1 else 0)%nat in
  let n := next_tid w in
  ∃ r w' pr,
    train_step self device epoch num_epochs i data opts w = (r, w')
    ∧ trace w' = trace w ++ step_calls b (seed_size self) device (tid data) moved n ++ pr
    ∧ (pr = [] ∨ ∃ line, pr = [EvPrint line])
    ∧ next_tid w' = (n + k + 15)%nat
    ∧ heap w' !! (n + k + 5)%nat = Some (Tensor [b] device (replicate (Z.to_nat b) (fl 0.1)))
    ∧ heap w' !! (n + k + 6)%nat = Some (Tensor [b] device (replicate (Z.to_nat b) (fl 0.9)))
    ∧ (∀ i, (i < n)%nat → heap w' !! i = heap w !! i)
    ∧ (∀ i, (i < n + k + 12)%nat →
         heap w' !! i = heap (dis_phase self opts.2 device data b w).2 !! i)
    ∧ (print_loss_every self ≠ 0 →
       ∃ og od, r = Ok (og, od)
                ∧ opt_params og = opt_params opts.1 ∧ opt_params od = opt_params opts.2
                ∧ opt_lr og = opt_lr opts.1 ∧ opt_lr od = opt_lr opts.2
                ∧ opt_betas og = opt_betas opts.1 ∧ opt_betas od = opt_betas opts.2).
Proof.
  intros Hshape moved k n. destruct opts as [og od]. unfold train_step, shape0.
  rewrite Hshape.
  destruct (dis_phase_spec self od device data b w)
    as (fi & lbl & dl & od' & w1 & Hrun1 & Hfi & Hlbl & Hdl & Hp1 & Hl1 & Hb1 & Hn1 & Ht1
        & Hh1 & Hh5 & Hh6 & Hv & Hext1).
  destruct (gen_phase_spec self og fi lbl w1)
    as (gl & og' & w2 & Hrun2 & Hgl & Hp2 & Hl2 & Hb2 & Hn2 & Ht2 & Hext2).
  destruct (report_spec self i epoch num_epochs dl gl w2) as (r & pr & Hrun3 & Hpr & Hr).
  fold moved k n in Hlbl, Hdl, Hn1, Ht1, Hh5, Hh6, Hfi, Hh1, Hext1.
  erewrite (bind_Ok (ret b)) by reflexivity.
  erewrite bind_Ok by exact Hrun1. cbv beta iota.
  erewrite bind_Ok by exact Hrun2. cbv beta iota.
  unfold bind at 1. rewrite Hrun3. cbv beta iota. cbn [fst snd].
  exists (match r with Ok _ => Ok (og', od') | Raise e => Raise e end),
    (set_trace (trace w2 ++ pr) w2), pr. split_and!.
  - destruct r; reflexivity.
  - unfold set_trace; cbn [trace]. rewrite Ht2, Ht1, Hfi, Hlbl, Hn1. unfold step_calls. cbv zeta.
    apply app4.
  - done.
  - simpl. lia.
  - simpl. rewrite Hext2 by lia. done.
  - simpl. rewrite Hext2 by lia. done.
  - intros j Hj. simpl. rewrite Hext2 by lia. by apply Hext1.
  - intros j Hj. simpl. rewrite Hrun1. simpl. apply Hext2. lia.
  - intros Hple. rewrite (Hr Hple). exists og', od'. simpl. split_and!; done.
Qed.

End StepCalls.

Section StepClaims.
Context `{Torch}.


(** The gradients after the discriminator update: [zero_grad], then the
    sweep from the real loss, then the sweep from the fake loss. *)
Lemma dis_phase_grads self o device (batch : var) b w :
  grad_fn batch = GNone →
  let θ := (λ p, params w !! p) <$> parameters (dis self) in
  let one := Tensor [] device [fl 1] in
  ∃ buf_r buf_f pred_r pred_f fake_img,
    grads (dis_phase self o device batch b w).2 =
    accumulate (parameters (dis self)) 0
      (λ i, vjp_param (dis self) θ buf_f fake_img i
              (bce_vjp pred_f (Tensor [b] device (replicate (Z.to_nat b) (fl 0.1))) one))
      (accumulate (parameters (dis self)) 0
         (λ i, vjp_param (dis self) θ buf_r
                 (Tensor (shape (value batch)) device (data (value batch))) i
                 (bce_vjp pred_r (Tensor [b] device (replicate (Z.to_nat b) (fl 0.9))) one))
         (foldr (λ p gs, if zero_grad_set_to_none then delete p gs else alter zero_one p gs)
            (grads w) (parameters (dis self)))).
Proof.
  destruct batch as [t [sh d dt] g]. simpl. intros ->.
  unfold dis_phase, to. simpl. destruct (device_eqb d device) eqn:Hd.
  - assert (d = device) as -> by (by destruct d, device).
    do 5 eexists. cbn. rewrite !numel_1. reflexivity.
  - do 5 eexists. cbn. rewrite !numel_1. reflexivity.
Qed.

(** C2. In a training step on a batch with a sample dimension, the generator
    runs forward once, on the noise sampled by the step; the generator update
    (from its [zero_grad] on) runs the discriminator once, on the very tensor
    object which that forward pass returned, and runs the generator not at
    all; the object holds at the end of the step the value it held at the end
    of the discriminator update. *)
Theorem C2_fake_batch_is_generated_once (self : GAN) (device : device) (epoch num_epochs i : Z)
    (batch : var) (opts : optimizer * optimizer) (w : world) (b : Z) (s : list Z) :
  shape (value batch) = b :: s →
  ∃ evs noise fake_img pred value_of_fake_img,
    trace (train_step self device epoch num_epochs i batch opts w).2 = trace w ++ evs
    ∧ EvRandn [b; seed_size self; 1; 1] noise ∈ evs
    ∧ forwards_of Gen evs = [(true, noise, fake_img)]
    ∧ forwards_of Dis (after is_zero_grad_gen evs) = [(true, fake_img, pred)]
    ∧ forwards_of Gen (after is_zero_grad_gen evs) = []
    ∧ heap (dis_phase self opts.2 device batch b w).2 !! fake_img = Some value_of_fake_img
    ∧ heap (train_step self device epoch num_epochs i batch opts w).2 !! fake_img
      = Some value_of_fake_img.
Proof.
  intros Hshape.
  destruct (train_step_spec self device epoch num_epochs i batch opts w b s Hshape)
    as (r & w' & pr & Hrun & Htr & Hpr & Hn & _ & _ & _ & Hext & _).
  destruct (dis_phase_spec self opts.2 device batch b w)
    as (fi & lbl & dl & od' & w1 & Hrun1 & Hfi & _ & _ & _ & _ & _ & Hn1 & _ & Hh1 & _).
  rewrite Hrun. rewrite Hrun1 in *. cbn [fst snd] in *.
  exists (step_calls b (seed_size self) device (tid batch)
            (negb (device_eqb (dev (value batch)) device)) (next_tid w) ++ pr),
    (next_tid w), (next_tid w + 1)%nat,
    (next_tid w + (if negb (device_eqb (dev (value batch)) device) then 1 else 0) + 12)%nat,
    (value fi).
  split; [exact Htr|].
  split_and!.
  - unfold step_calls, dis_calls. rewrite !elem_of_app, !elem_of_cons. tauto.
  - destruct Hpr as [->|[line ->]]; by destruct (device_eqb _ _).
  - destruct Hpr as [->|[line ->]]; by destruct (device_eqb _ _).
  - destruct Hpr as [->|[line ->]]; by destruct (device_eqb _ _).
  - exact Hh1.
  - rewrite Hext by lia. exact Hh1.
Qed.

(** C6. In a training step on a batch whose first dimension is [b], [torch.full]
    is called twice, for the size [(b,)] with 0.1 and for the size [(b,)] with
    0.9; the two tensors hold [b] copies of 0.1 and [b] copies of 0.9; the first
    is the target of the fake loss, the second the target of the real loss
    and of the generator loss. *)
Theorem C6_smoothed_labels (self : GAN) (device : device) (epoch num_epochs i : Z)
    (batch : var) (opts : optimizer * optimizer) (w : world) (b : Z) (s : list Z) :
  shape (value batch) = b :: s →
  ∃ evs fake_dis_lbl real_dis_lbl p1 o1 p2 o2 p3 o3,
    trace (train_step self device epoch num_epochs i batch opts w).2 = trace w ++ evs
    ∧ fulls evs = [([b], 0.1%Q, fake_dis_lbl); ([b], 0.9%Q, real_dis_lbl)]
    ∧ heap (train_step self device epoch num_epochs i batch opts w).2 !! fake_dis_lbl
      = Some (Tensor [b] device (replicate (Z.to_nat b) (fl 0.1)))
    ∧ heap (train_step self device epoch num_epochs i batch opts w).2 !! real_dis_lbl
      = Some (Tensor [b] device (replicate (Z.to_nat b) (fl 0.9)))
    ∧ losses evs = [(p1, fake_dis_lbl, o1); (p2, real_dis_lbl, o2); (p3, real_dis_lbl, o3)].
Proof.
  intros Hshape.
  destruct (train_step_spec self device epoch num_epochs i batch opts w b s Hshape)
    as (r & w' & pr & Hrun & Htr & Hpr & Hn & Hh5 & Hh6 & _).
  rewrite Hrun. cbn [fst snd].
  set (k := (if negb (device_eqb (dev (value batch)) device) then 1 else 0)%nat) in *.
  set (n := next_tid w) in *.
  exists (step_calls b (seed_size self) device (tid batch)
            (negb (device_eqb (dev (value batch)) device)) n ++ pr),
    (n + k + 5)%nat, (n + k + 6)%nat,
    (n + k + 7)%nat, (n + k + 8)%nat, (n + k + 9)%nat, (n + k + 10)%nat,
    (n + k + 12 + 1)%nat, (n + k + 12 + 2)%nat.
  split; [exact Htr|]. subst k.
  split_and!; try done.
  - destruct Hpr as [->|[line ->]]; by destruct (device_eqb _ _).
  - destruct Hpr as [->|[line ->]]; by destruct (device_eqb _ _).
Qed.



End StepClaims.

(** ** The plotter and [generate] *)

Section Generate.
Context `{Torch}.

Lemma for_pure {A S} (xs : list A) (s : S) (body : A → S → M S) (f : A → S → S) w :
  (∀ x s, x ∈ xs → body x s w = (Ok (f x s), w)) →
  for_ xs s body w = (Ok (foldl (λ s x, f x s) s xs), w).
Proof.
  revert s. induction xs as [|x xs IH]; intros s Hbody; simpl; [done|].
  erewrite bind_Ok by (apply Hbody; left).
  apply IH. intros y s' Hy. apply Hbody. by right.
Qed.

(** On a grid of at least two rows and two columns, and at least
    [rows * columns] images, the plotter shows every cell. *)
Lemma plotter_grid (x : var) (rows columns n : Z) (s : list Z) w :
  2 ≤ rows → 2 ≤ columns → shape (value x) = n :: s → rows * columns ≤ n →
  plotter x rows columns w =
  (Ok (), set_trace (trace w ++ [EvShow (tid x) rows columns (grid_cells rows columns)]) w).
Proof.
  intros Hr Hc Hsh Hn. unfold plotter, subplots.
  rewrite decide_True by lia.
  erewrite (bind_Ok (ret _)) by reflexivity.
  unfold subplots_axes. rewrite decide_False by lia.
  rewrite decide_False by lia. rewrite decide_False by lia.
  erewrite bind_Ok; [reflexivity|].
  apply (for_pure _ _ _
    (λ i cells, foldl (λ cells j, cells ++ [(i, j, j + i * columns)]) cells (range columns))).
  intros i cells Hi. apply elem_of_seqZ in Hi.
  apply (for_pure _ _ _ (λ j cells, cells ++ [(i, j, j + i * columns)])).
  intros j cells' Hj. apply elem_of_seqZ in Hj.
  unfold ax_getitem, array_getitem. rewrite Hsh.
  rewrite decide_True by lia. erewrite (bind_Ok (ret _)) by reflexivity.
  rewrite decide_True by nia. reflexivity.
Qed.

(** On a grid of a single row or a single column the plotter raises at the
    first cell, before anything is shown: [ax] is not a two-dimensional
    array. *)
Lemma plotter_single (x : var) (rows columns : Z) w :
  0 < rows → 0 < columns → rows = 1 ∨ columns = 1 →
  plotter x rows columns w =
  (Raise (if decide (rows = 1 ∧ columns = 1) then TypeError else IndexError), w).
Proof.
  intros Hr Hc Hone. unfold plotter, subplots.
  rewrite decide_True by lia.
  erewrite (bind_Ok (ret _)) by reflexivity.
  assert (Hax : ∀ i j, ax_getitem (subplots_axes rows columns) i j w =
    (Raise (if decide (rows = 1 ∧ columns = 1) then TypeError else IndexError), w)).
  { intros i j. unfold subplots_axes, ax_getitem. repeat case_decide; try reflexivity; lia. }
  erewrite bind_Raise; [reflexivity|].
  unfold range. rewrite (seqZ_cons 0 rows) by lia. simpl for_.
  erewrite bind_Raise; [reflexivity|].
  rewrite (seqZ_cons 0 columns) by lia. simpl for_.
  erewrite bind_Raise; [reflexivity|].
  erewrite bind_Raise; [reflexivity|]. apply Hax.
Qed.

(** [generate] raises only if its plotter does, and returns the images and,
    if asked, the latents. *)
Lemma generate_spec self num_rows num_cols device plot return_noise w :
  ∃ g w1,
    value g = images self num_rows num_cols device w
    ∧ grad_fn g = GNone
    ∧ trace w1 = trace w ++
        [EvRandn [num_rows * num_cols; seed_size self; 1; 1] (next_tid w);
         EvForward Gen true (next_tid w) (next_tid w + 1)] ++
        (match device with
         | CPU => [EvDetach (next_tid w + 1) (next_tid w + 2)]
         | CUDA => [EvTo CPU (next_tid w + 1) (next_tid w + 2);
                    EvDetach (next_tid w + 2) (next_tid w + 3)]
         end)%nat
    ∧ generate self num_rows num_cols device plot return_noise w =
      bind (if plot then plotter g num_rows num_cols else ret ())
        (λ _, if return_noise then
                bind (cpu (Var (next_tid w) (latents self num_rows num_cols device w) GNone))
                  (λ noise_cpu, ret (Pair g noise_cpu))
              else ret (Single g)) w1.
Proof.
  unfold generate, cpu, to, images, latents. destruct device.
  - do 2 eexists. split_and!; cycle 3.
    + cbn. reflexivity.
    + reflexivity.
    + reflexivity.
    + cbn. rewrite <- !app_assoc. cbn. repeat f_equal; lia.
  - do 2 eexists. split_and!; cycle 3.
    + cbn. reflexivity.
    + reflexivity.
    + reflexivity.
    + cbn. rewrite <- !app_assoc. cbn. repeat f_equal; lia.
Qed.

Lemma cpu_spec (x : var) w :
  ∃ y w' pr, cpu x w = (Ok y, w') ∧ value y = on_cpu (value x) ∧ grad_fn y = grad_fn x
             ∧ trace w' = trace w ++ pr.
Proof.
  unfold cpu, to, on_cpu. destruct x as [t [sh d dt] g]. simpl. destruct d; simpl.
  - eexists _, _, []. by rewrite app_nil_r.
  - by eexists _, _, [_].
Qed.

(** Whenever [generate] returns: a pair if latents were asked for, a single
    tensor otherwise; the images and the latents are those of [images] and
    [latents], on the host. *)
Lemma generate_returns self num_rows num_cols device plot return_noise w r w' :
  generate self num_rows num_cols device plot return_noise w = (Ok r, w') →
  ∃ g, value g = images self num_rows num_cols device w ∧ grad_fn g = GNone ∧
    if return_noise then
      ∃ noise, r = Pair g noise
               ∧ value noise = on_cpu (latents self num_rows num_cols device w)
    else r = Single g.
Proof.
  destruct (generate_spec self num_rows num_cols device plot return_noise w)
    as (g & w1 & Hg & Hleaf & _ & ->).
  intros Hrun. exists g. split; [done|]. split; [done|].
  unfold bind at 1 in Hrun.
  destruct ((if plot then plotter g num_rows num_cols else ret ()) w1) as [[[]|e] w2];
    simpl in Hrun; [|discriminate].
  destruct return_noise.
  - destruct (cpu_spec (Var (next_tid w) (latents self num_rows num_cols device w) GNone) w2)
      as (y & w3 & pr & Hcpu & Hy & _).
    erewrite bind_Ok in Hrun by exact Hcpu. injection Hrun as <- <-. eauto.
  - by injection Hrun as <- <-.
Qed.

(** [generate] does return when it does not plot, or plots a grid of at
    least two rows and two columns; its first two calls sample the latents
    and run the generator on them. *)
Lemma generate_total self num_rows num_cols device plot return_noise w :
  plot = false ∨ (2 ≤ num_rows ∧ 2 ≤ num_cols) →
  ∃ r w' pr,
    generate self num_rows num_cols device plot return_noise w = (Ok r, w')
    ∧ trace w' = trace w ++
        [EvRandn [num_rows * num_cols; seed_size self; 1; 1] (next_tid w);
         EvForward Gen true (next_tid w) (next_tid w + 1)] ++ pr.
Proof.
  intros Hplot.
  destruct (generate_spec self num_rows num_cols device plot return_noise w)
    as (g & w1 & Hg & _ & Htr & ->).
  assert (Hp : ∃ w2 pr, (if plot then plotter g num_rows num_cols else ret ()) w1 = (Ok (), w2)
                        ∧ trace w2 = trace w1 ++ pr).
  { destruct plot; [|exists w1, []; by rewrite app_nil_r].
    destruct Hplot as [|[Hr Hc]]; [done|]. eexists _, [_]. split.
    - eapply plotter_grid; [done|done| |reflexivity]. by rewrite Hg.
    - reflexivity. }
  destruct Hp as (w2 & pr & Hp & Htr2). erewrite bind_Ok by exact Hp.
  destruct return_noise.
  - destruct (cpu_spec (Var (next_tid w) (latents self num_rows num_cols device w) GNone) w2)
      as (y & w3 & pr' & Hcpu & _ & _ & Htr3).
    erewrite bind_Ok by exact Hcpu. eexists _, _, _. split; [reflexivity|].
    rewrite Htr3, Htr2, Htr. rewrite <- !app_assoc. reflexivity.
  - eexists _, _, _. split; [reflexivity|].
    rewrite Htr2, Htr. rewrite <- !app_assoc. reflexivity.
Qed.

(** Without the plot, or on a grid of at least two rows and two columns, [generate] samples [num_rows * num_cols] latent
    vectors of length [seed_size] from the random generator, and returns the
    batch of [num_rows * num_cols] images made from them, with the latents if
    they were asked for and alone otherwise. *)
Lemma generate_grid self num_rows num_cols device (plot return_noise : bool) w :
  plot = false ∨ (2 ≤ num_rows ∧ 2 ≤ num_cols) →
  ∃ g w',
    value g = images self num_rows num_cols device w
    ∧ shape (value g) = num_rows * num_cols :: item_shape (gen self) [seed_size self; 1; 1]
    ∧ EvRandn [num_rows * num_cols; seed_size self; 1; 1] (next_tid w) ∈ trace w'
    ∧ if return_noise then
        ∃ noise, generate self num_rows num_cols device plot return_noise w = (Ok (Pair g noise), w')
                 ∧ value noise = on_cpu (latents self num_rows num_cols device w)
                 ∧ shape (value noise) = [num_rows * num_cols; seed_size self; 1; 1]
      else generate self num_rows num_cols device plot return_noise w = (Ok (Single g), w').
Proof.
  intros Hplot.
  destruct (generate_total self num_rows num_cols device plot return_noise w Hplot)
    as (r & w' & pr & Hrun & Htr).
  destruct (generate_returns _ _ _ _ _ _ _ _ _ Hrun) as (g & Hg & _ & Hr).
  exists g, w'. split; [done|]. split; [by rewrite Hg|]. split.
  - rewrite Htr. rewrite !elem_of_app, !elem_of_cons. tauto.
  - destruct return_noise; [|by subst].
    destruct Hr as (noise & -> & Hn). exists noise. by rewrite Hn.
Qed.

(** C8. With the plot on, which is the default, [generate] raises on every
    grid of a single row or a single column, after it has sampled the latents
    and run the generator: [ax[i,j]] is evaluated on what [plt.subplots]
    returns for such a grid, the Axes object itself ([TypeError]) or a
    one-dimensional array ([IndexError]).  Nothing is returned. *)
Theorem C8_generate_raises_on_a_single_row_or_column (self : GAN) (num_rows num_cols : Z)
    (device : device) (return_noise : bool) (w : world) :
  0 < num_rows → 0 < num_cols → num_rows = 1 ∨ num_cols = 1 →
  (generate self num_rows num_cols device true return_noise w).1 =
  Raise (if decide (num_rows = 1 ∧ num_cols = 1) then TypeError else IndexError).
Proof.
  intros Hr Hc Hone.
  destruct (generate_spec self num_rows num_cols device true return_noise w)
    as (g & w1 & Hg & _ & _ & ->).
  erewrite bind_Raise; [reflexivity|]. by apply plotter_single.
Qed.

(** C10. Whenever [generate] returns with [return_noise] on, it returns a
    pair; the second component has the shape
    [(num_rows * num_cols, seed_size, 1, 1)] and holds the latents that were
    sampled; both components are on the host.  A call with every argument at
    its default returns such a pair, of 64 images and 64 latents. *)
Theorem C10_returned_pair_is_on_the_host (self : GAN) :
  (∀ num_rows num_cols device plot w r w',
     generate self num_rows num_cols device plot true w = (Ok r, w') →
     ∃ g noise,
       r = Pair g noise
       ∧ shape (value noise) = [num_rows * num_cols; seed_size self; 1; 1]
       ∧ data (value noise) = data (latents self num_rows num_cols device w)
       ∧ dev (value noise) = CPU
       ∧ dev (value g) = CPU
       ∧ value g = images self num_rows num_cols device w)
  ∧ (∀ cuda_is_available w,
       ∃ g noise w',
         generate_plain self cuda_is_available w = (Ok (Pair g noise), w')
         ∧ shape (value noise) = [64; seed_size self; 1; 1]
         ∧ shape (value g) = 64 :: item_shape (gen self) [seed_size self; 1; 1]
         ∧ dev (value noise) = CPU
         ∧ dev (value g) = CPU).
Proof.
  split.
  - intros num_rows num_cols device plot w r w' Hrun.
    destruct (generate_returns _ _ _ _ _ _ _ _ _ Hrun) as (g & Hg & _ & noise & -> & Hn).
    exists g, noise. rewrite Hn, Hg. split_and!; reflexivity.
  - intros cuda w. unfold generate_plain.
    destruct (generate_grid self 8 8 (default_device cuda) true true w) as (g & w' & Hg & Hsh & _ & Hr).
    { right. lia. }
    destruct Hr as (noise & Hrun & Hn & Hshn).
    exists g, noise, w'. rewrite Hrun, Hn, Hg. split_and!; reflexivity.
Qed.

End Generate.

(** ** The traversal of a model *)

Lemma nn_module_nested_ind (P : nn_module → Prop) :
  (∀ i c w b cs, Forall P cs → P (Layer i c w b cs)) → ∀ m, P m.
Proof.
  intros Hstep. fix IH 1. intros [i c w b cs]. apply Hstep.
  induction cs as [|c' cs IHcs]; constructor; [apply IH|apply IHcs].
Qed.

Lemma named_modules_unfold memo i c w b cs :
  named_modules memo (Layer i c w b cs) =
  if decide (i ∈ memo) then ([], memo)
  else (Layer i c w b cs :: (named_modules_list ({[i]} ∪ memo) cs).1,
        (named_modules_list ({[i]} ∪ memo) cs).2).
Proof.
  simpl. destruct (decide (i ∈ memo)); reflexivity.
Qed.

Lemma descendants_self m : m ∈ descendants m.
Proof. destruct m. simpl. by left. Qed.

Lemma elem_of_flat_map_descendants (cs : list nn_module) x :
  x ∈ flat_map descendants cs ↔ ∃ c, c ∈ cs ∧ x ∈ descendants c.
Proof.
  induction cs as [|c cs IH]; simpl.
  - rewrite elem_of_nil. split; [done|]. intros (c & Hc & _). by apply elem_of_nil in Hc.
  - rewrite elem_of_app, IH. split.
    + intros [Hx|(c' & Hc' & Hx)]; [exists c; split; [by left|done]|].
      exists c'. split; [by right|done].
    + intros (c' & Hc' & Hx). apply elem_of_cons in Hc' as [->|Hc']; [by left|].
      right. by exists c'.
Qed.

Lemma descendants_size m x : x ∈ descendants m → (msize x ≤ msize m)%nat.
Proof.
  revert x. induction m as [i c w b cs IH] using nn_module_nested_ind. intros x Hx.
  simpl in Hx. apply elem_of_cons in Hx as [->|Hx]; [done|].
  apply elem_of_flat_map_descendants in Hx as (c' & Hc' & Hx). simpl.
  induction cs as [|c0 cs IHcs]; [by apply elem_of_nil in Hc'|].
  apply Forall_cons in IH as [IH0 IH]. simpl.
  apply elem_of_cons in Hc' as [->|Hc'].
  - specialize (IH0 x Hx). lia.
  - specialize (IHcs IH Hc'). lia.
Qed.

Lemma children_size i c w b cs x :
  x ∈ flat_map descendants cs → (msize x < msize (Layer i c w b cs))%nat.
Proof.
  intros Hx. apply elem_of_flat_map_descendants in Hx as (c' & Hc' & Hx).
  apply descendants_size in Hx. simpl.
  induction cs as [|c0 cs IHcs]; [by apply elem_of_nil in Hc'|]. simpl.
  apply elem_of_cons in Hc' as [->|Hc']; [lia|]. specialize (IHcs Hc'). lia.
Qed.

Lemma descendants_trans m x d : x ∈ descendants m → d ∈ descendants x → d ∈ descendants m.
Proof.
  revert x d. induction m as [i c w b cs IH] using nn_module_nested_ind. intros x d Hx Hd.
  simpl in Hx. apply elem_of_cons in Hx as [->|Hx]; [done|].
  simpl. right.
  apply elem_of_flat_map_descendants in Hx as (c' & Hc' & Hx).
  apply elem_of_flat_map_descendants. exists c'. split; [done|].
  rewrite Forall_forall in IH. by apply (IH c' Hc' x d).
Qed.

Lemma named_modules_list_traversal cs :
  Forall (λ m, ∀ memo, identified (descendants m) → closed_on memo (descendants m) →
                traversal memo (descendants m) (named_modules memo m)) cs →
  ∀ memo, identified (flat_map descendants cs) → closed_on memo (flat_map descendants cs) →
    traversal memo (flat_map descendants cs) (named_modules_list memo cs).
Proof.
  induction 1 as [|c cs Hc _ IH]; intros memo Hid Hclosed.
  - simpl. unfold traversal. simpl. split_and!.
    + constructor.
    + intros x Hx. by apply elem_of_nil in Hx.
    + intros x Hx. by apply elem_of_nil in Hx.
    + intros i. rewrite elem_of_nil. tauto.
    + intros d Hd. by apply elem_of_nil in Hd.
  - simpl in *.
    destruct (Hc memo) as (Hnd1 & Hfresh1 & Hsub1 & Hmemo1 & Hcov1).
    { intros x y Hx Hy. apply Hid; apply elem_of_app; by left. }
    { intros x Hx. apply Hclosed. apply elem_of_app. by left. }
    destruct (IH (named_modules memo c).2) as (Hnd2 & Hfresh2 & Hsub2 & Hmemo2 & Hcov2).
    { intros x y Hx Hy. apply Hid; apply elem_of_app; by right. }
    { intros x Hx Hm d Hd. apply Hmemo1 in Hm as [Hm|Hm].
      - apply Hmemo1. left. apply (Hclosed x); [apply elem_of_app; by right|done|done].
      - apply list_elem_of_fmap in Hm as (y & Hxy & Hy).
        assert (x = y) as ->.
        { apply Hid; [apply elem_of_app; by right|apply elem_of_app; left; by apply Hsub1|done]. }
        apply Hcov1. eapply descendants_trans; [by apply Hsub1|done]. }
    unfold traversal. simpl. split_and!.
    + rewrite fmap_app. apply NoDup_app. split_and!; [done| |done].
      intros i Hi1 Hi2. apply list_elem_of_fmap in Hi2 as (x & -> & Hx).
      apply (Hfresh2 x Hx). apply Hmemo1. by right.
    + intros x Hx. apply elem_of_app in Hx as [Hx|Hx]; [by apply Hfresh1|].
      intros Hm. apply (Hfresh2 x Hx). apply Hmemo1. by left.
    + intros x Hx. apply elem_of_app. apply elem_of_app in Hx as [Hx|Hx]; auto.
    + intros i. rewrite Hmemo2, Hmemo1, fmap_app, elem_of_app. tauto.
    + intros d Hd. apply elem_of_app in Hd as [Hd|Hd]; [|by apply Hcov2].
      apply Hmemo2. left. by apply Hcov1.
Qed.

Lemma named_modules_traversal m memo :
  identified (descendants m) → closed_on memo (descendants m) →
  traversal memo (descendants m) (named_modules memo m).
Proof.
  revert memo. induction m as [i c w b cs IH] using nn_module_nested_ind.
  intros memo Hid Hclosed.
  rewrite named_modules_unfold. destruct (decide (i ∈ memo)) as [Hi|Hi].
  - unfold traversal. simpl. split_and!.
    + constructor.
    + intros x Hx. by apply elem_of_nil in Hx.
    + intros x Hx. by apply elem_of_nil in Hx.
    + intros j. rewrite elem_of_nil. tauto.
    + intros d Hd. apply (Hclosed (Layer i c w b cs)); [apply descendants_self|done|done].
  - destruct (named_modules_list_traversal cs IH ({[i]} ∪ memo))
      as (Hnd & Hfresh & Hsub & Hmemo & Hcov).
    { intros x y Hx Hy. apply Hid; simpl; by right. }
    { intros x Hx Hm d Hd. apply elem_of_union in Hm as [Hm|Hm].
      - apply elem_of_singleton in Hm.
        assert (x = Layer i c w b cs) as Heq.
        { apply Hid; [simpl; by right|apply descendants_self|done]. }
        pose proof (children_size i c w b cs x Hx) as Hlt. rewrite Heq in Hlt. lia.
      - apply elem_of_union. right.
        apply (Hclosed x); [simpl; by right|done|done]. }
    unfold traversal. simpl. split_and!.
    + constructor; [|done]. intros Hin. apply list_elem_of_fmap in Hin as (x & Hx & Hin).
      apply (Hfresh x Hin). rewrite <- Hx. set_solver.
    + intros x Hx. apply elem_of_cons in Hx as [->|Hx]; [done|].
      intros Hm. apply (Hfresh x Hx). set_solver.
    + intros x Hx. apply elem_of_cons in Hx as [->|Hx]; [by left|]. right. by apply Hsub.
    + intros j. rewrite Hmemo, elem_of_cons. set_solver.
    + intros d Hd. apply elem_of_cons in Hd as [->|Hd]; [|by apply Hcov].
      apply Hmemo. left. set_solver.
Qed.

(** [model.modules()] yields every module of the model, each once. *)
Lemma modules_once (model : nn_module) :
  identified (descendants model) →
  NoDup (mid <$> modules model)
  ∧ (∀ x, x ∈ modules model → x ∈ descendants model)
  ∧ (∀ d, d ∈ descendants model → mid d ∈ mid <$> modules model).
Proof.
  intros Hid.
  destruct (named_modules_traversal model ∅ Hid) as (Hnd & _ & Hsub & Hmemo & Hcov).
  { intros x _ Hm. by apply not_elem_of_empty in Hm. }
  split_and!; [done|done|].
  intros d Hd. apply Hcov, Hmemo in Hd as [Hd|Hd]; [by apply not_elem_of_empty in Hd|done].
Qed.

Lemma NoDup_identified (ds : list nn_module) :
  NoDup (mid <$> ds) → identified ds.
Proof.
  intros Hnd x y Hx Hy Hxy.
  apply list_elem_of_lookup in Hx as [i Hi]. apply list_elem_of_lookup in Hy as [j Hj].
  assert (i = j) as ->; [|congruence].
  eapply NoDup_lookup; [exact Hnd| |].
  - rewrite list_lookup_fmap, Hi. reflexivity.
  - rewrite list_lookup_fmap, Hj. simpl. by rewrite Hxy.
Qed.

(** ** [weight_init] *)

Section Init.
Context `{Torch}.

Lemma normal_spec p mean std w :
  ∃ w', normal_ p mean std w = (Ok (), w')
        ∧ trace w' = trace w ++ [EvInitNormal p mean std]
        ∧ (∀ q, q ≠ p → params w' !! q = params w !! q)
        ∧ params w' !! p = normal_fill (rng w) mean std <$> params w !! p.
Proof.
  unfold normal_, normal_fill. destruct (params w !! p) as [t|] eqn:Hp.
  - eexists. split; [reflexivity|]. simpl. split_and!; [done| |].
    + intros q Hq. by rewrite lookup_insert_ne.
    + by rewrite lookup_insert_eq.
  - eexists. split; [reflexivity|]. simpl. by rewrite Hp.
Qed.

Lemma constant_spec p v w :
  ∃ w', constant_ p v w = (Ok (), w')
        ∧ trace w' = trace w ++ [EvInitConstant p v]
        ∧ (∀ q, q ≠ p → params w' !! q = params w !! q)
        ∧ params w' !! p = constant_fill v <$> params w !! p.
Proof.
  unfold constant_, constant_fill. eexists. split; [reflexivity|]. simpl. split_and!; [done| |].
  - intros q Hq. by rewrite lookup_alter_ne.
  - by rewrite lookup_alter_eq.
Qed.

Lemma weight_init_layer_spec layer w :
  has_attrs layer →
  ∃ w', weight_init_layer layer w = (Ok (), w')
        ∧ trace w' = trace w ++ init_calls layer
        ∧ (∀ p, p ∉ init_targets layer → params w' !! p = params w !! p)
        ∧ (NoDup (init_targets layer) → initialised layer w w').
Proof.
  unfold has_attrs, weight_init_layer, init_calls, init_targets, initialised.
  destruct (contains "Conv" (cls_name layer)).
  - intros [p Hp]. rewrite Hp. simpl.
    destruct (normal_spec p 0 std w) as (w' & Hrun & Htr & Hframe & Hval).
    exists w'. erewrite (bind_Ok (ret p)) by reflexivity. split_and!; [done|done| |].
    + intros q Hq. apply Hframe. set_solver.
    + intros _ p' [= <-]. by eexists.
  - destruct (contains "BatchNorm" (cls_name layer)).
    + intros [[p Hp] [q Hq]]. rewrite Hp, Hq. simpl.
      destruct (normal_spec p 1 std w) as (w1 & Hrun1 & Htr1 & Hframe1 & Hval1).
      destruct (constant_spec q 0 w1) as (w' & Hrun2 & Htr2 & Hframe2 & Hval2).
      exists w'. erewrite (bind_Ok (ret p)) by reflexivity.
      erewrite bind_Ok by exact Hrun1. erewrite (bind_Ok (ret q)) by reflexivity.
      split_and!; [done| | |].
      * rewrite Htr2, Htr1. by rewrite <- app_assoc.
      * intros r Hr. apply not_elem_of_cons in Hr as [Hrp Hr].
        apply not_elem_of_cons in Hr as [Hrq _].
        rewrite Hframe2 by done. by apply Hframe1.
      * intros Hnd p' q' [= <-] [= <-].
        assert (p ≠ q) by (intros ->; apply NoDup_cons in Hnd as [Hnd _]; set_solver).
        split.
        -- exists (rng w). rewrite Hframe2 by done. done.
        -- rewrite Hval2. by rewrite Hframe1.
    + intros _. exists w. split_and!; [done|by rewrite app_nil_r|done|done].
Qed.

Lemma init_targets_weight layer p :
  weight layer = Some p →
  contains "Conv" (cls_name layer) || contains "BatchNorm" (cls_name layer) = true →
  p ∈ init_targets layer.
Proof.
  unfold init_targets. intros -> Hname.
  destruct (contains "Conv" _); simpl in *; [by left|]. rewrite Hname. by left.
Qed.

Lemma init_targets_bias layer q :
  bias layer = Some q →
  contains "Conv" (cls_name layer) = false → contains "BatchNorm" (cls_name layer) = true →
  q ∈ init_targets layer.
Proof.
  unfold init_targets. intros -> -> ->. apply elem_of_app. right. by left.
Qed.

Lemma initialised_frame layer (w0 w w' w1 : world) :
  (∀ p, p ∈ init_targets layer → params w0 !! p = params w !! p) →
  (∀ p, p ∈ init_targets layer → params w1 !! p = params w' !! p) →
  initialised layer w w' → initialised layer w0 w1.
Proof.
  unfold initialised. intros H0 H1.
  destruct (contains "Conv" (cls_name layer)) eqn:Hc.
  - intros Hi p Hp. destruct (Hi p Hp) as [r Hr]. exists r.
    rewrite H0, H1 by (apply init_targets_weight; [done|by rewrite Hc]). done.
  - destruct (contains "BatchNorm" (cls_name layer)) eqn:Hb; [|done].
    intros Hi p q Hp Hq. destruct (Hi p q Hp Hq) as [[r Hr] Hz]. split.
    + exists r. rewrite H0, H1 by (apply init_targets_weight; [done|by rewrite Hc, Hb]). done.
    + rewrite H0, H1 by (by apply init_targets_bias). done.
Qed.

(** The loop of [weight_init] over a list of layers. *)
Lemma weight_init_layers (ls : list nn_module) w :
  Forall has_attrs ls →
  ∃ w', for_ ls () (λ layer _, weight_init_layer layer) w = (Ok (), w')
        ∧ trace w' = trace w ++ flat_map init_calls ls
        ∧ (∀ p, p ∉ flat_map init_targets ls → params w' !! p = params w !! p)
        ∧ (NoDup (flat_map init_targets ls) → ∀ layer, layer ∈ ls → initialised layer w w').
Proof.
  intros Hattrs. revert w. induction Hattrs as [|l ls Hl _ IH]; intros w.
  - exists w. simpl. split_and!; [done|by rewrite app_nil_r|done|].
    intros _ layer Hin. by apply elem_of_nil in Hin.
  - destruct (weight_init_layer_spec l w Hl) as (w1 & Hrun1 & Htr1 & Hframe1 & Hinit1).
    destruct (IH w1) as (w' & Hrun & Htr & Hframe & Hinit).
    exists w'. simpl. erewrite bind_Ok by exact Hrun1. split_and!; [done| | |].
    + rewrite Htr, Htr1. by rewrite <- app_assoc.
    + intros p Hp. apply not_elem_of_app in Hp as [Hp1 Hp2].
      rewrite Hframe by done. by apply Hframe1.
    + intros Hnd layer Hin. apply NoDup_app in Hnd as (Hnd1 & Hdisj & Hnd2).
      apply elem_of_cons in Hin as [->|Hin].
      * apply (initialised_frame l w w w1 w'); [done| |by apply Hinit1].
        intros p Hp. apply Hframe. by apply Hdisj.
      * apply (initialised_frame layer w w1 w' w'); [|done|by apply Hinit].
        intros p Hp. symmetry. apply Hframe1. intros Hp1. apply (Hdisj p Hp1).
        apply list_elem_of_In, in_flat_map. exists layer.
        split; by apply list_elem_of_In.
Qed.

(** C4, as the code has it.  On a model whose module identifiers are object
    identities, whose layers have the attributes that are read, and whose
    initialised parameters are distinct objects: [model.modules()] yields
    every module of the model once; [weight_init] returns; for each yielded
    layer in turn it calls [normal_] with mean 0 and deviation 0.02 on the
    weight if the class name contains "Conv", else [normal_] with mean 1 and
    deviation 0.02 on the weight and [constant_] with 0 on the bias if it
    contains "BatchNorm", else nothing; afterwards the weight of a "Conv"
    layer holds such a normal sample of its shape, the weight and the bias of
    a "BatchNorm" layer that is not a "Conv" layer hold such a sample and
    zeros; every other parameter is as it was. *)
Theorem C4_weight_init_by_class_name (model : nn_module) (w : world) :
  identified (descendants model) →
  Forall has_attrs (modules model) →
  NoDup (flat_map init_targets (modules model)) →
  NoDup (mid <$> modules model)
  ∧ (∀ layer, layer ∈ descendants model → mid layer ∈ mid <$> modules model)
  ∧ ∃ w', weight_init model w = (Ok (), w')
          ∧ trace w' = trace w ++ flat_map init_calls (modules model)
          ∧ (∀ layer, layer ∈ modules model → initialised layer w w')
          ∧ (∀ p, p ∉ flat_map init_targets (modules model) → params w' !! p = params w !! p).
Proof.
  intros Hid Hattrs Hnd.
  destruct (modules_once model Hid) as (Hnodup & _ & Hcov).
  split; [done|]. split; [done|].
  destruct (weight_init_layers (modules model) w Hattrs) as (w' & Hrun & Htr & Hframe & Hinit).
  exists w'. split_and!; [done|done|by apply Hinit|done].
Qed.

End Init.

(** ** The loops of [train] *)

Section Train.
Context `{Torch}.

Lemma grows_refl fid w : grows fid w w.
Proof.
  split_and!; [done|done|]. exists []. by rewrite app_nil_r.
Qed.

Lemma fresh_from_mono n n' e : (n ≤ n')%nat → fresh_from n' e → fresh_from n e.
Proof.
  unfold fresh_from. intros Hn Hf. eapply Forall_impl; [exact Hf|].
  intros o Ho. simpl in Ho. lia.
Qed.

Lemma grows_trans fid w1 w2 w3 : grows fid w1 w2 → grows fid w2 w3 → grows fid w1 w3.
Proof.
  intros (Hn1 & Hh1 & evs1 & Ht1 & He1) (Hn2 & Hh2 & evs2 & Ht2 & He2).
  split_and!.
  - lia.
  - intros i Hi. rewrite Hh2 by lia. by apply Hh1.
  - exists (evs1 ++ evs2). split; [by rewrite Ht2, Ht1, app_assoc|].
    apply Forall_app. split; [done|].
    eapply Forall_impl; [exact He2|]. intros e [Hf Hu]. split; [|done].
    by eapply fresh_from_mono.
Qed.

Lemma quiet_refl fid w : quiet fid w w.
Proof. split; [apply grows_refl|done]. Qed.

Lemma quiet_trans fid w1 w2 w3 : quiet fid w1 w2 → quiet fid w2 w3 → quiet fid w1 w3.
Proof.
  intros [Hg1 Hc1] [Hg2 Hc2]. split; [by eapply grows_trans|]. by rewrite Hc2.
Qed.

(** A loop keeps what each of its iterations keeps. *)
Lemma for_keeps {A S} (R : world → world → Prop) (xs : list A) (body : A → S → M S) :
  (∀ w, R w w) → (∀ w1 w2 w3, R w1 w2 → R w2 w3 → R w1 w3) →
  (∀ x s w, R w (body x s w).2) →
  ∀ s w, R w (for_ xs s body w).2.
Proof.
  intros Hrefl Htrans Hbody. induction xs as [|x xs IH]; intros s w; simpl; [apply Hrefl|].
  unfold bind. specialize (Hbody x s w).
  destruct (body x s w) as [[s'|e] w']; simpl in *; [|done].
  eapply Htrans; [exact Hbody|apply IH].
Qed.

Lemma untracked_inputs_app evs evs' :
  untracked_inputs (evs ++ evs') = untracked_inputs evs ++ untracked_inputs evs'.
Proof. apply omap_app. Qed.

(** A new tensor object. *)
Lemma new_var_quiet fid ev v g w :
  (∀ i, event_outputs (ev i) = [i] ∧ uses_fixed fid (ev i) ∧ untracked_inputs [ev i] = []) →
  quiet fid w (new_var ev v g w).2.
Proof.
  intros Hev. destruct (Hev (next_tid w)) as (Ho & Hu & Hc).
  unfold quiet, grows, new_var. simpl. split_and!.
  - lia.
  - intros i Hi. rewrite lookup_insert_ne by lia. done.
  - eexists [_]. split; [done|]. constructor; [|constructor].
    split; [|done]. unfold fresh_from. rewrite Ho. by repeat constructor.
  - rewrite untracked_inputs_app, Hc. by rewrite app_nil_r.
Qed.

(** A training step, on any batch. *)
Lemma train_step_quiet fid self device epoch num_epochs i batch opts w :
  quiet fid w (train_step self device epoch num_epochs i batch opts w).2.
Proof.
  destruct (shape (value batch)) as [|b s] eqn:Hshape.
  - destruct opts as [og od]. unfold train_step, shape0. rewrite Hshape.
    erewrite bind_Raise by reflexivity. apply quiet_refl.
  - destruct (train_step_spec self device epoch num_epochs i batch opts w b s Hshape)
      as (r & w' & pr & Hrun & Htr & Hpr & Hn & _ & _ & Hext & _).
    rewrite Hrun. simpl. split; [split_and!|].
    + lia.
    + done.
    + eexists. split; [exact Htr|].
      apply Forall_app. split.
      * unfold step_calls, dis_calls, gen_calls.
        destruct (device_eqb _ _); simpl; repeat constructor; lia.
      * destruct Hpr as [->|[line ->]]; repeat constructor.
    + rewrite Htr, !untracked_inputs_app.
      assert (untracked_inputs pr = []) as -> by (by destruct Hpr as [->|[line ->]]).
      assert (untracked_inputs (step_calls b (seed_size self) device (tid batch)
                (negb (device_eqb (dev (value batch)) device)) (next_tid w)) = []) as ->
        by (by destruct (device_eqb _ _)).
      by rewrite !app_nil_r.
Qed.

(** The inner loop: the batches of one epoch. *)
Lemma batches_quiet fid self device epoch num_epochs (batches : list (Z * tensor elt)) opts w :
  quiet fid w
    (for_ batches opts (λ '(i, t) opts,
       bind (new_var EvYield t GNone)
         (λ batch, train_step self device epoch num_epochs i batch opts)) w).2.
Proof.
  apply (for_keeps (quiet fid)); [apply quiet_refl|apply quiet_trans|].
  intros [i t] s w0. unfold bind at 1. cbn [fst snd new_var].
  eapply quiet_trans; [|apply train_step_quiet].
  apply (new_var_quiet fid EvYield t GNone). done.
Qed.

(** The plotter changes nothing but the trace, by at most one figure. *)
Lemma for_world_pure {A S} (xs : list A) (body : A → S → M S) :
  (∀ x s w, (body x s w).2 = w) → ∀ s w, (for_ xs s body w).2 = w.
Proof.
  intros Hbody. induction xs as [|x xs IH]; intros s w; simpl; [done|].
  unfold bind. specialize (Hbody x s w).
  destruct (body x s w) as [[s'|e] w']; simpl in *; subst; [apply IH|done].
Qed.

Lemma plotter_world (x : var) rows columns w :
  ∃ pr, (plotter x rows columns w).2 = set_trace (trace w ++ pr) w
        ∧ (pr = [] ∨ ∃ cells, pr = [EvShow (tid x) rows columns cells]).
Proof.
  assert (Hsame : set_trace (trace w ++ []) w = w) by (destruct w; unfold set_trace; simpl; by rewrite app_nil_r).
  unfold plotter, subplots. case_decide.
  - erewrite (bind_Ok (ret _)) by reflexivity. unfold bind at 1.
    set (loop := for_ (range rows) [] _).
    assert (Hloop : (loop w).2 = w).
    { apply for_world_pure. intros i cells w0. apply for_world_pure. intros j cells' w1.
      unfold ax_getitem, array_getitem, bind, ret, raise.
      destruct (subplots_axes rows columns); simpl; try done.
      case_decide; simpl; [|done].
      destruct (shape (value x)); simpl; [done|]. case_decide; done. }
    destruct (loop w) as [[cells|e] w']; simpl in *; subst w'.
    + eexists [_]. split; [reflexivity|]. right. by eexists.
    + exists []. by split; [|left].
  - erewrite bind_Raise by reflexivity. exists []. by split; [|left].
Qed.

Lemma call_spec n m tracked (x : var) w :
  ∃ y w', call n m tracked x w = (Ok y, w')
          ∧ tid y = next_tid w
          ∧ shape (value y) = forward_shape m (shape (value x))
          ∧ next_tid w' = S (next_tid w)
          ∧ trace w' = trace w ++ [EvForward n tracked (tid x) (next_tid w)]
          ∧ (∀ i, (i < next_tid w)%nat → heap w' !! i = heap w !! i).
Proof.
  unfold call, new_var. eexists _, _. split; [reflexivity|]. simpl.
  split_and!; try done. intros i Hi. by rewrite lookup_insert_ne by lia.
Qed.

Lemma cpu_world (x : var) w :
  ∃ y w' pr, cpu x w = (Ok y, w')
             ∧ shape (value y) = shape (value x)
             ∧ (next_tid w ≤ next_tid w')%nat
             ∧ (∀ i, (i < next_tid w)%nat → heap w' !! i = heap w !! i)
             ∧ trace w' = trace w ++ pr
             ∧ (pr = [] ∨ pr = [EvTo CPU (tid x) (next_tid w)]).
Proof.
  unfold cpu, to, new_var. destruct (device_eqb _ _).
  - exists x, w, []. rewrite app_nil_r. split_and!; auto.
  - eexists _, _, [_]. split; [reflexivity|]. simpl.
    split_and!; auto. intros i Hi. by rewrite lookup_insert_ne by lia.
Qed.

Lemma end_of_epoch_grows self (fixed_seed : var) w :
  grows (tid fixed_seed) w (end_of_epoch self true (Some fixed_seed) w).2
  ∧ untracked_inputs (trace (end_of_epoch self true (Some fixed_seed) w).2)
    = untracked_inputs (trace w) ++ [tid fixed_seed].
Proof.
  unfold end_of_epoch.
  destruct (call_spec Gen (gen self) false fixed_seed w)
    as (y & w1 & Hrun1 & Hy & _ & Hn1 & Ht1 & Hh1).
  destruct (cpu_world y w1) as (z & w2 & pr2 & Hrun2 & _ & Hn2 & Hh2 & Ht2 & Hpr2).
  destruct (plotter_world z 8 8 w2) as (pr3 & Hw3 & Hpr3).
  erewrite bind_Ok by exact Hrun1. erewrite bind_Ok by exact Hrun2. rewrite Hw3.
  unfold grows, set_trace. simpl.
  assert (untracked_inputs pr2 = []) as Hu2 by (by destruct Hpr2 as [->| ->]).
  assert (untracked_inputs pr3 = []) as Hu3 by (by destruct Hpr3 as [->|[cells ->]]).
  split; [split_and!|].
  - lia.
  - intros i Hi. rewrite Hh2 by lia. by apply Hh1.
  - exists (EvForward Gen false (tid fixed_seed) (next_tid w) :: pr2 ++ pr3).
    split.
    + rewrite Ht2, Ht1. rewrite <- !app_assoc. reflexivity.
    + constructor; [split; [by repeat constructor|done]|].
      apply Forall_app. split.
      * destruct Hpr2 as [->| ->]; repeat constructor. lia.
      * destruct Hpr3 as [->|[cells ->]]; repeat constructor.
  - rewrite Ht2, Ht1. rewrite !untracked_inputs_app, Hu2, Hu3. simpl.
    by rewrite !app_nil_r.
Qed.

Lemma iterate_spec (dl : pyobj) w :
  ∃ batches w', iterate dl w = (Ok batches, w')
                ∧ next_tid w' = next_tid w ∧ heap w' = heap w ∧ trace w' = trace w.
Proof. unfold iterate. by eexists _, _. Qed.

Lemma bind_ret_world {A B} (c : M A) (b : B) w : (bind c (λ _, ret b) w).2 = (c w).2.
Proof. unfold bind. by destruct (c w) as [[a|e] w']. Qed.

Lemma bind_ret_Ok {A B} (c : M A) (b : B) w r :
  (bind c (λ _, ret b) w).1 = Ok r → ∃ a, (c w).1 = Ok a.
Proof. unfold bind. destruct (c w) as [[a|e] w']; simpl; [by eexists|done]. Qed.

(** One epoch with the plot on: it obeys [grows], and if it completes it has
    run the generator once without gradient tracking, on the fixed batch. *)
Lemma train_epoch_grows self dl device (fixed_seed : var) num_epochs epoch opts w :
  grows (tid fixed_seed) w
    (train_epoch self dl device true (Some fixed_seed) num_epochs epoch opts w).2
  ∧ (∀ r, (train_epoch self dl device true (Some fixed_seed) num_epochs epoch opts w).1 = Ok r →
       untracked_inputs
         (trace (train_epoch self dl device true (Some fixed_seed) num_epochs epoch opts w).2)
       = untracked_inputs (trace w) ++ [tid fixed_seed]).
Proof.
  unfold train_epoch.
  destruct (iterate_spec dl w) as (batches & w1 & Hrun1 & Hn1 & Hh1 & Ht1).
  erewrite bind_Ok by exact Hrun1.
  pose proof (batches_quiet (tid fixed_seed) self device epoch num_epochs batches opts w1)
    as [Hg Hq].
  assert (Hw1 : grows (tid fixed_seed) w w1).
  { unfold grows. rewrite Hn1, Hh1, Ht1. apply grows_refl. }
  set (loop := for_ batches opts _) in *.
  revert Hg Hq. destruct (loop w1) as [[opts'|e] w2] eqn:Hfor; cbn [fst snd]; intros Hg Hq.
  - rewrite (bind_Ok loop _ w1 opts' w2 Hfor). rewrite bind_ret_world.
    destruct (end_of_epoch_grows self fixed_seed w2) as [Hg3 Hc3].
    split.
    + eapply grows_trans; [exact Hw1|]. eapply grows_trans; [exact Hg|exact Hg3].
    + intros r _. rewrite Hc3, Hq, Ht1. done.
  - rewrite (bind_Raise loop _ w1 e w2 Hfor). cbn [fst snd].
    split; [by eapply grows_trans|]. intros r Hr. discriminate.
Qed.

(** The outer loop. *)
Lemma epochs_grows self dl device (fixed_seed : var) num_epochs (epochs : list Z) opts w :
  grows (tid fixed_seed) w
    (for_ epochs opts (train_epoch self dl device true (Some fixed_seed) num_epochs) w).2
  ∧ (∀ r, (for_ epochs opts (train_epoch self dl device true (Some fixed_seed) num_epochs) w).1
          = Ok r →
       untracked_inputs
         (trace (for_ epochs opts
                   (train_epoch self dl device true (Some fixed_seed) num_epochs) w).2)
       = untracked_inputs (trace w) ++ replicate (length epochs) (tid fixed_seed)).
Proof.
  revert opts w. induction epochs as [|epoch epochs IH]; intros opts w; simpl.
  - split; [apply grows_refl|]. intros r _. by rewrite app_nil_r.
  - destruct (train_epoch_grows self dl device fixed_seed num_epochs epoch opts w) as [Hg Hc].
    unfold bind.
    destruct (train_epoch self dl device true (Some fixed_seed) num_epochs epoch opts w)
      as [[opts'|e] w1]; cbn [fst snd] in *.
    + destruct (IH opts' w1) as [Hg' Hc']. split; [by eapply grows_trans|].
      intros r Hr. rewrite (Hc' r Hr), (Hc opts' eq_refl).
      by rewrite <- app_assoc.
    + split; [done|]. intros r Hr. discriminate.
Qed.

(** [train] on a [DataLoader] with the plot on, up to its outer loop. *)
Lemma train_start self dl num_epochs batch_size device w :
  py_type dl = DataLoader →
  ∃ fixed_seed w0,
    train self dl num_epochs batch_size device true w =
    bind (for_ (range num_epochs)
            (AdamW (parameters (gen self)) (gen_lr self) (gen_betas self),
             AdamW (parameters (dis self)) (dis_lr self) (dis_betas self))
            (train_epoch self dl device true (Some fixed_seed) num_epochs))
      (λ _, ret ()) w0
    ∧ tid fixed_seed = next_tid w
    ∧ next_tid w0 = S (next_tid w)
    ∧ heap w0 !! next_tid w =
        Some (Tensor [64; seed_size self; 1; 1] device
                (randn_data (rng w) (numel [64; seed_size self; 1; 1])).1)
    ∧ trace w0 = trace w ++ [EvModuleTo Dis device; EvModuleTo Gen device;
                             EvRandn [64; seed_size self; 1; 1] (next_tid w)].
Proof.
  intros Hty. unfold train, assert_. rewrite bool_decide_eq_true_2 by done.
  erewrite (bind_Ok (ret ())) by reflexivity.
  erewrite bind_Ok by (unfold module_to, emit; reflexivity).
  erewrite bind_Ok by (unfold module_to, emit; reflexivity).
  erewrite bind_Ok by (unfold bind, randn, new_var; simpl; reflexivity).
  eexists _, _. split; [reflexivity|]. simpl. split_and!; try done.
  - by rewrite lookup_insert_eq.
  - by rewrite <- !app_assoc.
Qed.

(** ** The calls of an epoch, in order *)

(** [plotter] shows its figure when it returns. *)
Lemma plotter_shown (x : var) rows columns w :
  (plotter x rows columns w).1 = Ok () →
  ∃ cells, (plotter x rows columns w).2
           = set_trace (trace w ++ [EvShow (tid x) rows columns cells]) w.
Proof.
  unfold plotter, subplots. case_decide.
  - erewrite (bind_Ok (ret _)) by reflexivity.
    set (loop := for_ (range rows) [] _).
    assert (Hloop : (loop w).2 = w).
    { apply for_world_pure. intros i cells w0. apply for_world_pure. intros j cells' w1.
      unfold ax_getitem, array_getitem, bind, ret, raise.
      destruct (subplots_axes rows columns); simpl; try done.
      case_decide; simpl; [|done].
      destruct (shape (value x)); simpl; [done|]. case_decide; done. }
    destruct (loop w) as [[cells|e] w'] eqn:Hl; simpl in Hloop; subst w'.
    + rewrite (bind_Ok loop _ w cells w Hl). intros _. exists cells. reflexivity.
    + rewrite (bind_Raise loop _ w e w Hl). discriminate.
  - by erewrite bind_Raise by reflexivity.
Qed.

(** The end of an epoch that completes, with the plot on. *)
Lemma end_of_epoch_shown self (fixed_seed : var) w :
  (end_of_epoch self true (Some fixed_seed) w).1 = Ok () →
  ∃ out src cells,
    ((trace (end_of_epoch self true (Some fixed_seed) w).2
      = trace w ++ [EvForward Gen false (tid fixed_seed) out; EvShow src 8 8 cells]
      ∧ src = out)
     ∨ trace (end_of_epoch self true (Some fixed_seed) w).2
       = trace w ++ [EvForward Gen false (tid fixed_seed) out; EvTo CPU out src;
                     EvShow src 8 8 cells]).
Proof.
  unfold end_of_epoch.
  destruct (call_spec Gen (gen self) false fixed_seed w)
    as (y & w1 & Hrun1 & Hy & _ & Hn1 & Ht1 & _).
  erewrite bind_Ok by exact Hrun1. unfold cpu, to.
  destruct (device_eqb (dev (value y)) CPU).
  - erewrite (bind_Ok (ret y)) by reflexivity. intros Hok.
    destruct (plotter_shown y 8 8 w1 Hok) as (cells & ->).
    exists (tid y), (tid y), cells. left. split; [|done].
    cbn [trace set_trace]. by rewrite Ht1, Hy, <- app_assoc.
  - erewrite (bind_Ok (new_var _ _ _)) by reflexivity. intros Hok.
    destruct (plotter_shown _ 8 8 _ Hok) as (cells & ->).
    exists (tid y), (next_tid w1), cells. right.
    cbn [trace set_trace alloc tid]. by rewrite Ht1, Hy, <- !app_assoc.
Qed.

(** The batches of an epoch that completes. *)
Lemma batches_segment self device epoch num_epochs (batches : list (Z * tensor elt)) opts w
    opts' w' :
  for_ batches opts (λ '(i, t) opts,
    bind (new_var EvYield t GNone)
      (λ batch, train_step self device epoch num_epochs i batch opts)) w = (Ok opts', w') →
  ∃ bs, trace w' = trace w ++ bs
        ∧ untracked_inputs bs = [] ∧ shows_of bs = []
        ∧ length (yields_of bs) = length batches
        ∧ steps_of bs = concat (replicate (length batches) [Dis; Gen]).
Proof.
  revert opts w. induction batches as [|[i t] batches IH]; intros opts w.
  - intros [= <- <-]. exists []. by rewrite app_nil_r.
  - cbn [for_].
    set (w0 := set_trace (trace w ++ [EvYield (next_tid w)]) (alloc t w)).
    assert (Hfirst : bind (new_var EvYield t GNone)
              (λ batch, train_step self device epoch num_epochs i batch opts) w
            = train_step self device epoch num_epochs i (Var (next_tid w) t GNone) opts w0).
    { by erewrite (bind_Ok (new_var _ _ _)) by reflexivity. }
    destruct (shape t) as [|b s] eqn:Hshape.
    { intros Hrun. exfalso. revert Hrun. erewrite bind_Raise; [discriminate|].
      rewrite Hfirst. destruct opts as [og od]. unfold train_step, shape0.
      cbn [value]. rewrite Hshape. by erewrite bind_Raise by reflexivity. }
    destruct (train_step_spec self device epoch num_epochs i (Var (next_tid w) t GNone)
                opts w0 b s Hshape) as (r & w1 & pr & Hrun1 & Htr1 & Hpr & _).
    rewrite <- Hfirst in Hrun1. destruct r as [opts1|e].
    + erewrite bind_Ok by exact Hrun1. intros Hrest.
      destruct (IH opts1 w1 Hrest) as (bs & Htr & Hu & Hf & Hy & Hs).
      destruct (steps_of_step_calls b (seed_size self) device (next_tid w)
                  (negb (device_eqb (dev t) device)) (next_tid w0)) as (Hs1 & Hy1 & Hf1 & _).
      assert (Hu1 : untracked_inputs (step_calls b (seed_size self) device (next_tid w)
                      (negb (device_eqb (dev t) device)) (next_tid w0)) = [])
        by (by destruct (negb _)).
      assert (Hpr' : untracked_inputs pr = [] ∧ shows_of pr = [] ∧ yields_of pr = []
                     ∧ steps_of pr = []) by (by destruct Hpr as [->|[line ->]]).
      destruct Hpr' as (Hpu & Hpf & Hpy & Hps).
      exists ([EvYield (next_tid w)] ++ (step_calls b (seed_size self) device (next_tid w)
                 (negb (device_eqb (dev t) device)) (next_tid w0) ++ pr) ++ bs).
      cbn [tid value] in Htr1. split_and!.
      * rewrite Htr, Htr1. subst w0. cbn [trace set_trace]. by rewrite <- !app_assoc.
      * rewrite !untracked_inputs_app, Hu1, Hpu, Hu. done.
      * rewrite !shows_of_app, Hf1, Hpf, Hf. done.
      * rewrite !yields_of_app, !length_app, Hy1, Hpy, Hy. done.
      * rewrite !steps_of_app, Hs1, Hps, Hs. done.
    + erewrite bind_Raise by exact Hrun1. discriminate.
Qed.

(** An epoch that completes, with the plot on: its batches, then the pass on
    the fixed batch and the figure. *)
Lemma train_epoch_segment self dl device (fixed_seed : var) num_epochs epoch opts w opts' w' :
  train_epoch self dl device true (Some fixed_seed) num_epochs epoch opts w = (Ok opts', w') →
  ∃ sg, trace w' = trace w ++ sg.1 ++ sg.2 ∧ epoch_events dl (tid fixed_seed) sg.
Proof.
  unfold train_epoch. erewrite (bind_Ok (iterate dl)) by reflexivity.
  set (loop := for_ _ opts _).
  destruct (loop (set_rng (py_iter dl (rng w)).2 w)) as [[opts1|e] w1] eqn:Hloop.
  - erewrite bind_Ok by exact Hloop.
    destruct (batches_segment _ _ _ _ _ _ _ _ _ Hloop) as (bs & Htr1 & Hu & Hf & Hy & Hs).
    pose proof (end_of_epoch_shown self fixed_seed w1) as Hend.
    unfold bind. destruct (end_of_epoch self true (Some fixed_seed) w1) as [[[]|e] w2];
      cbn [fst snd] in *; [|discriminate].
    intros [= <- <-]. destruct (Hend eq_refl) as (out & src & cells & Hps).
    assert (Hlen : length (enumerate (py_iter dl (rng w)).1) = length (py_iter dl (rng w)).1).
    { unfold enumerate. rewrite length_zip, length_seqZ. lia. }
    rewrite Hlen in Hy, Hs. cbn [trace set_rng] in Htr1.
    destruct Hps as [[Htr2 ->]|Htr2].
    + exists (bs, [EvForward Gen false (tid fixed_seed) out; EvShow out 8 8 cells]).
      split; [by rewrite Htr2, Htr1, <- app_assoc|].
      unfold epoch_events. cbn [fst snd]. split_and!; [done|done|by eexists|by rewrite Hy|].
      exists out, out, cells. by left.
    + exists (bs, [EvForward Gen false (tid fixed_seed) out; EvTo CPU out src;
                   EvShow src 8 8 cells]).
      split; [by rewrite Htr2, Htr1, <- app_assoc|].
      unfold epoch_events. cbn [fst snd]. split_and!; [done|done|by eexists|by rewrite Hy|].
      exists out, src, cells. by right.
  - erewrite bind_Raise by exact Hloop. discriminate.
Qed.

(** A run of epochs that completes is the sequence of its epochs. *)
Lemma epochs_segments self dl device (fixed_seed : var) num_epochs (epochs : list Z)
    opts w opts' w' :
  for_ epochs opts (train_epoch self dl device true (Some fixed_seed) num_epochs) w
    = (Ok opts', w') →
  ∃ segs, trace w' = trace w ++ flat_map (λ sg, sg.1 ++ sg.2) segs
          ∧ length segs = length epochs
          ∧ Forall (epoch_events dl (tid fixed_seed)) segs.
Proof.
  revert opts w. induction epochs as [|epoch epochs IH]; intros opts w.
  - intros [= <- <-]. exists []. by rewrite app_nil_r.
  - cbn [for_].
    destruct (train_epoch self dl device true (Some fixed_seed) num_epochs epoch opts w)
      as [[opts1|e] w1] eqn:Hepoch.
    + erewrite bind_Ok by exact Hepoch. intros Hrest.
      destruct (train_epoch_segment _ _ _ _ _ _ _ _ _ _ Hepoch) as (sg & Htr1 & Hsg).
      destruct (IH opts1 w1 Hrest) as (segs & Htr & Hlen & Hall).
      exists (sg :: segs). split_and!.
      * rewrite Htr, Htr1. cbn [flat_map]. by rewrite <- !app_assoc.
      * simpl. by rewrite Hlen.
      * by constructor.
    + erewrite bind_Raise by exact Hepoch. discriminate.
Qed.

(** C5, as the code has it.  With the plot on, [train] on a [DataLoader]
    samples one batch of 64 latent vectors of length [seed_size], shaped
    [(64, seed_size, 1, 1)], right after moving the networks and before its
    loops; the tensor object stays on the heap as sampled and is never
    created again; every forward pass of the generator made without gradient
    tracking reads this object; and a run that completes has made one such
    pass per epoch, at the end of the epoch: its calls are, epoch after
    epoch, those of the batches of one pass over the loader, each batch with
    its two optimizer steps, and then the pass on the fixed batch followed
    by the figure of its output. *)
Theorem C5_fixed_batch_of_64_is_sampled_once (self : GAN) (dl : pyobj)
    (num_epochs batch_size : Z) (device : device) (w : world) :
  py_type dl = DataLoader →
  ∃ evs,
    trace (train self dl num_epochs batch_size device true w).2 =
      trace w ++ [EvModuleTo Dis device; EvModuleTo Gen device;
                  EvRandn [64; seed_size self; 1; 1] (next_tid w)] ++ evs
    ∧ heap (train self dl num_epochs batch_size device true w).2 !! next_tid w =
        Some (Tensor [64; seed_size self; 1; 1] device
                (randn_data (rng w) (numel [64; seed_size self; 1; 1])).1)
    ∧ Forall (uses_fixed (next_tid w)) evs
    ∧ Forall (λ e, next_tid w ∉ event_outputs e) evs
    ∧ ((train self dl num_epochs batch_size device true w).1 = Ok () →
       untracked_inputs evs = replicate (Z.to_nat num_epochs) (next_tid w))
    ∧ ((train self dl num_epochs batch_size device true w).1 = Ok () →
       ∃ segs, evs = flat_map (λ sg, sg.1 ++ sg.2) segs
               ∧ length segs = Z.to_nat num_epochs
               ∧ Forall (epoch_events dl (next_tid w)) segs).
Proof.
  intros Hty.
  destruct (train_start self dl num_epochs batch_size device w Hty)
    as (fs & w0 & -> & Hfs & Hn0 & Hh0 & Ht0).
  destruct (epochs_grows self dl device fs num_epochs (range num_epochs)
              (AdamW (parameters (gen self)) (gen_lr self) (gen_betas self),
               AdamW (parameters (dis self)) (dis_lr self) (dis_betas self)) w0)
    as [(Hn & Hh & evs & Htr & Hevs) Hcount].
  rewrite bind_ret_world. exists evs. rewrite Hfs in *. split_and!.
  - rewrite Htr, Ht0. by rewrite <- app_assoc.
  - rewrite Hh by lia. done.
  - eapply Forall_impl; [exact Hevs|]. by intros e [_ Hu].
  - eapply Forall_impl; [exact Hevs|]. intros e [Hf _] Hin.
    unfold fresh_from in Hf. rewrite Forall_forall in Hf. specialize (Hf _ Hin). lia.
  - intros Hok. apply bind_ret_Ok in Hok as [r Hr].
    specialize (Hcount r Hr). rewrite Htr, untracked_inputs_app in Hcount.
    apply app_inv_head in Hcount. rewrite Hcount. unfold range.
    by rewrite length_seqZ.
  - intros Hok. apply bind_ret_Ok in Hok as [r Hr]. revert Htr Hr.
    destruct (for_ _ _ _ w0) as [r' w'] eqn:Hloop. cbn [fst snd]. intros Htr ->.
    destruct (epochs_segments _ _ _ _ _ _ _ _ _ _ Hloop) as (segs & Htr' & Hlen & Hall).
    exists segs. rewrite Htr in Htr'. apply app_inv_head in Htr'.
    unfold range in Hlen. rewrite length_seqZ in Hlen. by rewrite Hfs in Hall.
Qed.
End Train.

(** * The theorems on a concrete model

    Each theorem with hypotheses is applied to the small model of the
    section [Toy]; the two statements of the spec that the code does not
    satisfy are evaluated there. *)

Section Witnesses.
#[local] Existing Instance toy_torch.

Lemma toy_parameters_disjoint : parameters (gen toy_self) ## parameters (dis toy_self).
Proof.
  intros p Hg Hd.
  change (parameters (gen toy_self)) with [10; 11; 12]%nat in Hg.
  change (parameters (dis toy_self)) with [20; 21]%nat in Hd.
  rewrite !elem_of_cons, elem_of_nil in Hg. rewrite !elem_of_cons, elem_of_nil in Hd. lia.
Defined.

Lemma C1_witness :
  parameters (gen toy_self) ## parameters (dis toy_self)
  ∧ shape (value toy_data) = 4 :: [3; 2; 2]
  ∧ params (dis_phase toy_self (Optimizer (parameters (dis toy_self)) 0.0002 (0.5, 0.999)%Q ∅)
              CPU toy_data 4 toy_world1).2 !! 10%nat
    = params toy_world1 !! 10%nat.
Proof.
  split; [exact toy_parameters_disjoint|]. split; [reflexivity|].
  refine (proj1 (C1_updates_leave_the_other_network toy_self 0.0002 (0.5, 0.999)%Q ∅
            0.0002 (0.5, 0.999)%Q ∅ CPU toy_data toy_data toy_data 4 [3; 2; 2] 0 1 0 toy_world1
            toy_parameters_disjoint eq_refl) 10%nat _).
  change (parameters (gen toy_self)) with [10; 11; 12]%nat. by left.
Defined.

Lemma C2_witness :
  shape (value toy_data) = 4 :: [3; 2; 2]
  ∧ ∃ evs noise fake_img pred,
      trace (train_step toy_self CPU 0 1 0 toy_data
               (AdamW [10; 11; 12]%nat 0.0002 (0.5, 0.999)%Q,
                AdamW [20; 21]%nat 0.0002 (0.5, 0.999)%Q) toy_world1).2
      = trace toy_world1 ++ evs
      ∧ forwards_of Gen evs = [(true, noise, fake_img)]
      ∧ forwards_of Dis (after is_zero_grad_gen evs) = [(true, fake_img, pred)].
Proof.
  split; [reflexivity|].
  destruct (C2_fake_batch_is_generated_once toy_self CPU 0 1 0 toy_data
              (AdamW [10; 11; 12]%nat 0.0002 (0.5, 0.999)%Q,
               AdamW [20; 21]%nat 0.0002 (0.5, 0.999)%Q) toy_world1 4 [3; 2; 2] eq_refl)
    as (evs & noise & fake_img & pred & v & Htr & _ & Hg & Hd & _).
  exists evs, noise, fake_img, pred. split; [exact Htr|]. split; [exact Hg|exact Hd].
Defined.


Lemma C6_witness :
  shape (value toy_data) = 4 :: [3; 2; 2]
  ∧ ∃ evs fake_dis_lbl real_dis_lbl,
      trace (train_step toy_self CPU 0 1 0 toy_data
               (AdamW [10; 11; 12]%nat 0.0002 (0.5, 0.999)%Q,
                AdamW [20; 21]%nat 0.0002 (0.5, 0.999)%Q) toy_world1).2
      = trace toy_world1 ++ evs
      ∧ fulls evs = [([4], 0.1%Q, fake_dis_lbl); ([4], 0.9%Q, real_dis_lbl)]
      ∧ heap (train_step toy_self CPU 0 1 0 toy_data
               (AdamW [10; 11; 12]%nat 0.0002 (0.5, 0.999)%Q,
                AdamW [20; 21]%nat 0.0002 (0.5, 0.999)%Q) toy_world1).2 !! fake_dis_lbl
        = Some (Tensor [4] CPU (replicate 4 (fl 0.1))).
Proof.
  split; [reflexivity|].
  destruct (C6_smoothed_labels toy_self CPU 0 1 0 toy_data
              (AdamW [10; 11; 12]%nat 0.0002 (0.5, 0.999)%Q,
               AdamW [20; 21]%nat 0.0002 (0.5, 0.999)%Q) toy_world1 4 [3; 2; 2] eq_refl)
    as (evs & fl & rl & p1 & o1 & p2 & o2 & p3 & o3 & Htr & Hf & Hh1 & _).
  exists evs, fl, rl. split; [exact Htr|]. split; [exact Hf|exact Hh1].
Defined.

Lemma C7_witness :
  py_type toy_list ≠ DataLoader
  ∧ train toy_self toy_list 1 128 CPU true toy_world =
    (Raise (AssertionError "Require PyTorch's DataLoader for your dataloader"), toy_world).
Proof.
  assert (Hty : py_type toy_list ≠ DataLoader) by discriminate.
  split; [exact Hty|].
  exact (C7_wrong_batch_source_fails_fast toy_self toy_list 1 128 CPU true toy_world Hty).
Defined.

Lemma C8_witness :
  0 < 1 ∧ 0 < 3 ∧ (1 = 1 ∨ 3 = 1)
  ∧ (generate toy_self 1 3 CPU true true toy_world).1 = Raise IndexError.
Proof.
  assert (H1 : 0 < 1) by lia. assert (H3 : 0 < 3) by lia.
  split; [exact H1|]. split; [exact H3|]. split; [by left|].
  exact (C8_generate_raises_on_a_single_row_or_column toy_self 1 3 CPU true toy_world
           H1 H3 (or_introl eq_refl)).
Defined.

Lemma C10_witness :
  ∃ g noise w',
    generate toy_self 2 3 CPU true true toy_world = (Ok (Pair g noise), w')
    ∧ shape (value noise) = [6; 2; 1; 1]
    ∧ dev (value noise) = CPU
    ∧ dev (value g) = CPU.
Proof.
  destruct (generate_total toy_self 2 3 CPU true true toy_world) as (r & w' & pr & Hrun & _).
  { right. lia. }
  destruct (proj1 (C10_returned_pair_is_on_the_host toy_self) 2 3 CPU true toy_world r w' Hrun)
    as (g & noise & -> & Hsh & _ & Hd & Hg & _).
  exists g, noise, w'. split; [exact Hrun|]. split; [exact Hsh|]. split; [exact Hd|exact Hg].
Defined.

Lemma C4_witness :
  identified (descendants toy_gen)
  ∧ Forall has_attrs (modules toy_gen)
  ∧ NoDup (flat_map init_targets (modules toy_gen))
  ∧ ∃ w', weight_init toy_gen toy_world = (Ok (), w')
          ∧ trace w' = trace toy_world ++ flat_map init_calls (modules toy_gen)
          ∧ (∀ layer, layer ∈ modules toy_gen → initialised layer toy_world w').
Proof.
  assert (Hid : identified (descendants toy_gen)).
  { apply NoDup_identified. apply (bool_decide_unpack _). by vm_compute. }
  assert (Hattrs : Forall has_attrs (modules toy_gen)).
  { change (modules toy_gen) with
      [toy_gen; Layer 1 "ConvTranspose2d" (Some 10%nat) None [];
       Layer 2 "BatchNorm2d" (Some 11%nat) (Some 12%nat) []; Layer 3 "ReLU" None None []].
    repeat constructor; vm_compute; eauto. }
  assert (Hnd : NoDup (flat_map init_targets (modules toy_gen))).
  { apply (bool_decide_unpack _). by vm_compute. }
  split; [exact Hid|]. split; [exact Hattrs|]. split; [exact Hnd|].
  destruct (C4_weight_init_by_class_name toy_gen toy_world Hid Hattrs Hnd)
    as (_ & _ & w' & Hrun & Htr & Hinit & _).
  exists w'. split; [exact Hrun|]. split; [exact Htr|exact Hinit].
Defined.

Lemma C5_witness :
  py_type toy_dl = DataLoader
  ∧ (train toy_self toy_dl 1 128 CPU true toy_world).1 = Ok ()
  ∧ ∃ evs,
      trace (train toy_self toy_dl 1 128 CPU true toy_world).2 =
        trace toy_world ++ [EvModuleTo Dis CPU; EvModuleTo Gen CPU;
                            EvRandn [64; 2; 1; 1] 0%nat] ++ evs
      ∧ untracked_inputs evs = [0%nat]
      ∧ ∃ segs, evs = flat_map (λ sg, sg.1 ++ sg.2) segs
                ∧ length segs = 1%nat
                ∧ Forall (epoch_events toy_dl 0%nat) segs.
Proof.
  split; [reflexivity|].
  assert (Hok : (train toy_self toy_dl 1 128 CPU true toy_world).1 = Ok ()) by (by vm_compute).
  split; [exact Hok|].
  destruct (C5_fixed_batch_of_64_is_sampled_once toy_self toy_dl 1 128 CPU toy_world eq_refl)
    as (evs & Htr & _ & _ & _ & Hcount & Hsegs).
  exists evs. split; [exact Htr|]. split; [exact (Hcount Hok)|exact (Hsegs Hok)].
Defined.

(** The claim C4 as the spec states it fails on a layer whose class name
    contains both "Conv" and "BatchNorm": the first test of [weight_init]
    takes it, so its weight is drawn with mean 0 and its bias is left as it
    was. *)
Lemma C4_counterexample :
  toy_fused ∈ modules toy_fused
  ∧ contains "BatchNorm" (cls_name toy_fused) = true
  ∧ weight_init toy_fused toy_world_fused
    = (Ok (), (weight_init toy_fused toy_world_fused).2)
  ∧ trace (weight_init toy_fused toy_world_fused).2 = [EvInitNormal 30 0 0.02]
  ∧ params (weight_init toy_fused toy_world_fused).2 !! 31%nat = Some (toy_scalar 7)
  ∧ params (weight_init toy_fused toy_world_fused).2 !! 31%nat
    ≠ constant_fill 0 <$> params toy_world_fused !! 31%nat.
Proof.
  split; [by left|]. split; [reflexivity|]. split; [reflexivity|].
  split; [reflexivity|]. split; [reflexivity|].
  vm_compute. discriminate.
Qed.

(** The claim C5 as the spec states it fails on every run: the batch that
    the end of an epoch feeds to the generator has 64 samples, not 128. *)
Lemma C5_counterexample :
  untracked_inputs (trace (train toy_self toy_dl 1 128 CPU true toy_world).2) = [0%nat]
  ∧ shape <$> heap (train toy_self toy_dl 1 128 CPU true toy_world).2 !! 0%nat
    = Some [64; 2; 1; 1]
  ∧ ¬ (∃ t, heap (train toy_self toy_dl 1 128 CPU true toy_world).2 !! 0%nat = Some t
            ∧ head (shape t) = Some 128).
Proof.
  split; [by vm_compute|]. split; [by vm_compute|].
  intros (t & Ht & Hhead).
  assert (Hs : shape <$> heap (train toy_self toy_dl 1 128 CPU true toy_world).2 !! 0%nat
               = Some [64; 2; 1; 1]) by (by vm_compute).
  rewrite Ht in Hs. clear Ht. destruct t as [sh d dt]. simpl in Hs, Hhead.
  injection Hs as ->. discriminate Hhead.
Qed.
(** Without the invariant of C1 the frame fails: a weight tied between
    the two networks is moved by the discriminator update. *)
Example tied_weight_is_moved :
  let self := {| seed_size := 2; gen := toy_gen;
                 dis := Layer 4 "Discriminator" None None
                          [Layer 5 "Conv2d" (Some 10%nat) (Some 21%nat) []];
                 print_loss_every := 25; gen_lr := 0.0002%Q; dis_lr := 0.0002%Q;
                 gen_betas := (0.5%Q, 0.999%Q); dis_betas := (0.5%Q, 0.999%Q) |} in
  10%nat ∈ parameters (gen self)
  ∧ params (dis_phase self (AdamW (parameters (dis self)) 0.0002 (0.5, 0.999)%Q)
              CPU toy_data 4 toy_world1).2 !! 10%nat
    ≠ params toy_world1 !! 10%nat.
Proof.
  split; [by left|]. vm_compute. discriminate.
Qed.

(** A container whose class name contains "Conv" has no weight:
    [weight_init] raises on it, and the layers after it are not reached. *)
Example weight_init_on_a_container :
  let model := Layer 0 "ConvBlock" None None
                 [Layer 2 "BatchNorm2d" (Some 11%nat) (Some 12%nat) []] in
  weight_init model toy_world = (Raise AttributeError, toy_world).
Proof. reflexivity. Qed.
End Witnesses.

(** * Further properties of [gan.py] *)

(** ** [plotter] *)

Section PlotterMore.
Context `{Torch}.

Lemma foldl_snoc {A B} (f : A → B) (l : list A) (acc : list B) :
  foldl (λ cells x, cells ++ [f x]) acc l = acc ++ (f <$> l).
Proof.
  revert acc. induction l as [|x l IH]; intros acc; simpl; [by rewrite app_nil_r|].
  rewrite IH. by rewrite <- app_assoc.
Qed.

Lemma foldl_rows {A B} (f : A → list B) (l : list A) (acc : list B) :
  foldl (λ cells x, cells ++ f x) acc l = acc ++ (l ≫= f).
Proof.
  revert acc. induction l as [|x l IH]; intros acc; simpl; [by rewrite app_nil_r|].
  rewrite IH. by rewrite <- app_assoc.
Qed.

Lemma grid_cells_rows rows columns :
  grid_cells rows columns =
  range rows ≫= (λ i, (λ j, (i, j, j + i * columns)) <$> range columns).
Proof.
  unfold grid_cells. generalize (range rows) as l.
  enough (∀ (l : list Z) acc,
    foldl (λ cells i, foldl (λ cells j, cells ++ [(i, j, j + i * columns)]) cells (range columns))
      acc l = acc ++ (l ≫= (λ i, (λ j, (i, j, j + i * columns)) <$> range columns)))
    as Hgen by (intros l; apply (Hgen l [])).
  induction l as [|i l IH]; intros acc; simpl; [by rewrite app_nil_r|].
  rewrite IH, foldl_snoc. by rewrite <- app_assoc.
Qed.

Lemma elem_of_grid_cells rows columns i j k :
  (i, j, k) ∈ grid_cells rows columns ↔
  0 ≤ i < rows ∧ 0 ≤ j < columns ∧ k = j + i * columns.
Proof.
  rewrite grid_cells_rows, list_elem_of_bind. unfold range. split.
  - intros (i' & Hin & Hi'). apply elem_of_seqZ in Hi'.
    apply list_elem_of_fmap in Hin as (j' & [= -> -> ->] & Hj'). apply elem_of_seqZ in Hj'. lia.
  - intros (Hi & Hj & ->). exists i. split; [|apply elem_of_seqZ; lia].
    apply list_elem_of_fmap. exists j. split; [done|]. apply elem_of_seqZ. lia.
Qed.

Lemma grid_cells_images (rows : nat) columns :
  0 ≤ columns →
  (λ c, c.2) <$> grid_cells (Z.of_nat rows) columns = seqZ 0 (Z.of_nat rows * columns).
Proof.
  intros Hc. rewrite grid_cells_rows. unfold range.
  induction rows as [|rows IH].
  - done.
  - rewrite seqZ_S, bind_app, fmap_app, IH. simpl. rewrite app_nil_r.
    rewrite <- list_fmap_compose.
    replace (Z.of_nat (S rows) * columns) with (Z.of_nat rows * columns + columns) by lia.
    rewrite seqZ_app by lia. f_equal.
    replace (seqZ (0 + Z.of_nat rows * columns) columns)
      with (Z.add (Z.of_nat rows * columns) <$> seqZ 0 columns)
      by (rewrite fmap_add_seqZ; f_equal; lia).
    apply list_fmap_ext. intros _ j _. simpl. lia.
Qed.

(** X1. On a grid of at least two rows and two columns, and with at least
    [rows * columns] images in [data], [plotter] returns and shows one
    figure: the cell of row [i] and column [j] holds the image
    [j + i * columns], every cell of the grid is filled, and the images shown
    are the first [rows * columns] of [data], once each and in order. *)
Theorem X1_plotter_shows_every_image_of_the_grid (x : var) (rows columns n c : Z) (s : list Z) w :
  2 ≤ rows → 2 ≤ columns → shape (value x) = n :: c :: s → rows * columns ≤ n →
  ∃ cells,
    plotter x rows columns w =
      (Ok (), set_trace (trace w ++ [EvShow (tid x) rows columns cells]) w)
    ∧ (λ c, c.2) <$> cells = seqZ 0 (rows * columns)
    ∧ (∀ i j k, (i, j, k) ∈ cells ↔ 0 ≤ i < rows ∧ 0 ≤ j < columns ∧ k = j + i * columns).
Proof.
  intros Hr Hc Hsh Hn. exists (grid_cells rows columns). split_and!.
  - by eapply plotter_grid.
  - rewrite <- (Z2Nat.id rows) by lia. apply grid_cells_images. lia.
  - apply elem_of_grid_cells.
Qed.

Lemma for_raises {A S} (xs : list A) (body : A → S → M S) (e : exn) w :
  (∀ x s, x ∈ xs → (∃ s', body x s w = (Ok s', w)) ∨ body x s w = (Raise e, w)) →
  (∃ x, x ∈ xs ∧ ∀ s, body x s w = (Raise e, w)) →
  ∀ s, for_ xs s body w = (Raise e, w).
Proof.
  induction xs as [|x xs IH]; intros Hall (x0 & Hx0 & Hraise) s.
  - by apply elem_of_nil in Hx0.
  - simpl. destruct (Hall x s) as [[s' Hok]|Hr]; [by left| |].
    + erewrite bind_Ok by exact Hok. apply IH.
      * intros y s0 Hy. apply Hall. by right.
      * apply elem_of_cons in Hx0 as [->|Hx0]; [|by exists x0].
        rewrite Hraise in Hok. discriminate.
    + by erewrite bind_Raise by exact Hr.
Qed.

Lemma for_returns_or_raises {A S} (xs : list A) (body : A → S → M S) (e : exn) w :
  (∀ x s, x ∈ xs → (∃ s', body x s w = (Ok s', w)) ∨ body x s w = (Raise e, w)) →
  ∀ s, (∃ s', for_ xs s body w = (Ok s', w)) ∨ for_ xs s body w = (Raise e, w).
Proof.
  induction xs as [|x xs IH]; intros Hall s.
  - left. by eexists.
  - simpl. destruct (Hall x s) as [[s' Hok]|Hr]; [by left| |].
    + erewrite bind_Ok by exact Hok. apply IH. intros y s0 Hy. apply Hall. by right.
    + right. by erewrite bind_Raise by exact Hr.
Qed.

(** X2. With fewer images than cells, [plotter] raises [IndexError] at
    [data[j + i * columns]], in the first cell past the last image;
    [plt.show()] is not reached and nothing else has changed. *)
Theorem X2_plotter_raises_on_too_few_images (x : var) (rows columns n c : Z) (s : list Z) w :
  2 ≤ rows → 2 ≤ columns → shape (value x) = n :: c :: s → 0 ≤ n < rows * columns →
  plotter x rows columns w = (Raise IndexError, w).
Proof.
  intros Hr Hc Hsh Hn. unfold plotter, subplots.
  rewrite decide_True by lia.
  erewrite (bind_Ok (ret _)) by reflexivity.
  unfold subplots_axes. rewrite !decide_False by lia.
  erewrite bind_Raise; [reflexivity|].
  assert (Hcell : ∀ i j cells, 0 ≤ i < rows → 0 ≤ j < columns →
    bind (ax_getitem (Axes2D rows columns) i j)
      (λ _, bind (array_getitem (shape (value x)) (j + i * columns))
              (λ _, ret (cells ++ [(i, j, j + i * columns)]))) w
    = if decide (j + i * columns < n) then (Ok (cells ++ [(i, j, j + i * columns)]), w)
      else (Raise IndexError, w)).
  { intros i j cells Hi Hj. unfold ax_getitem, array_getitem. rewrite Hsh.
    rewrite decide_True by lia. erewrite (bind_Ok (ret _)) by reflexivity.
    case_decide; reflexivity. }
  assert (Hrow : ∀ i cells, i ∈ range rows →
    (∃ cells', for_ (range columns) cells (λ j cells,
        bind (ax_getitem (Axes2D rows columns) i j)
          (λ _, bind (array_getitem (shape (value x)) (j + i * columns))
                  (λ _, ret (cells ++ [(i, j, j + i * columns)])))) w = (Ok cells', w))
    ∨ for_ (range columns) cells (λ j cells,
        bind (ax_getitem (Axes2D rows columns) i j)
          (λ _, bind (array_getitem (shape (value x)) (j + i * columns))
                  (λ _, ret (cells ++ [(i, j, j + i * columns)])))) w = (Raise IndexError, w)).
  { intros i cells Hi. apply elem_of_seqZ in Hi. apply for_returns_or_raises.
    intros j cells' Hj. apply elem_of_seqZ in Hj. rewrite Hcell by lia.
    case_decide; [left; by eexists|by right]. }
  apply for_raises; [exact (λ i cells Hi, Hrow i cells Hi)|].
  exists (n `div` columns). split.
  - apply elem_of_seqZ. split; [apply Z.div_pos; lia|].
    rewrite Z.add_0_l. apply Z.div_lt_upper_bound; lia.
  - intros cells. apply for_raises.
    + intros j cells' Hj. apply elem_of_seqZ in Hj.
      assert (0 ≤ n `div` columns < rows).
      { split; [apply Z.div_pos; lia|]. apply Z.div_lt_upper_bound; lia. }
      rewrite Hcell by lia. case_decide; [left; by eexists|by right].
    + exists (n `mod` columns).
      pose proof (Z.mod_pos_bound n columns ltac:(lia)) as Hmod.
      pose proof (Z.div_mod n columns ltac:(lia)) as Hdm.
      assert (0 ≤ n `div` columns < rows).
      { split; [apply Z.div_pos; lia|]. apply Z.div_lt_upper_bound; lia. }
      split; [apply elem_of_seqZ; lia|].
      intros cells'. rewrite Hcell by lia. rewrite decide_False by lia. reflexivity.
Qed.

End PlotterMore.

Lemma prefix_app (s1 s2 : string) :
  String.prefix s1 s2 = true ↔ ∃ post, s2 = s1 +:+ post.
Proof.
  revert s2. induction s1 as [|a s1 IH]; intros s2.
  - split; [intros _; by exists s2|intros _; by destruct s2].
  - destruct s2 as [|b s2]; simpl.
    + split; [done|intros [post Hp]; discriminate Hp].
    + destruct (Ascii.ascii_dec a b) as [->|Hab].
      * rewrite IH. split; intros [post Hp]; exists post; [by rewrite Hp|by injection Hp].
      * split; [done|]. intros [post Hp]. injection Hp as Hb _. by destruct Hab.
Qed.

(** X3. The test [needle in hay] of [weight_init] on the name of a class
    holds exactly when [needle] occurs in [hay] as a block of consecutive
    characters, wherever it stands: a prefix, a suffix or the middle of the
    name. *)
Theorem X3_contains_is_substring (needle hay : string) :
  contains needle hay = true ↔ ∃ pre post, hay = pre +:+ needle +:+ post.
Proof.
  induction hay as [|c hay IH].
  - cbn [contains]. rewrite orb_false_r, prefix_app. split.
    + intros [post Hp]. by exists EmptyString, post.
    + intros (pre & post & Hp). destruct pre as [|? ?]; [|discriminate Hp]. by exists post.
  - cbn [contains]. rewrite orb_true_iff, IH, prefix_app. split.
    + intros [[post Hp]|(pre & post & Hp)].
      * by exists EmptyString, post.
      * exists (String c pre), post. simpl. by rewrite Hp.
    + intros (pre & post & Hp). destruct pre as [|a pre].
      * left. by exists post.
      * right. exists pre, post. simpl in Hp. by injection Hp.
Qed.

(** ** [weight_init] *)

Section InitMore.
Context `{Torch}.

Lemma same_layout_refl w : same_layout w w.
Proof. intros p. by destruct (params w !! p). Qed.

Lemma same_layout_trans w1 w2 w3 :
  same_layout w1 w2 → same_layout w2 w3 → same_layout w1 w3.
Proof.
  intros H12 H23 p. specialize (H12 p). specialize (H23 p).
  destruct (params w1 !! p), (params w2 !! p), (params w3 !! p); try done.
  destruct H12 as [? ?], H23 as [? ?]. split; congruence.
Qed.

Lemma only_refills_refl w : only_refills w w.
Proof.
  split_and!; try done; [apply same_layout_refl|].
  exists []. by rewrite app_nil_r.
Qed.

Lemma only_refills_trans w1 w2 w3 :
  only_refills w1 w2 → only_refills w2 w3 → only_refills w1 w3.
Proof.
  intros (Hg1 & Hb1 & Hh1 & Hn1 & Hl1 & evs1 & Ht1 & Hf1)
         (Hg2 & Hb2 & Hh2 & Hn2 & Hl2 & evs2 & Ht2 & Hf2).
  split_and!; try congruence; [by eapply same_layout_trans|].
  exists (evs1 ++ evs2). split; [by rewrite Ht2, Ht1, <- app_assoc|by apply Forall_app].
Qed.

Lemma bind_keeps {A B} (R : world → world → Prop) (c : M A) (k : A → M B) w :
  (∀ w1 w2 w3, R w1 w2 → R w2 w3 → R w1 w3) →
  R w (c w).2 → (∀ a w', R w' (k a w').2) → R w (bind c k w).2.
Proof.
  intros Htrans Hc Hk. unfold bind. destruct (c w) as [[a|e] w']; simpl in *; [|done].
  eapply Htrans; [exact Hc|apply Hk].
Qed.

Lemma normal_refills p mean sd w : only_refills w (normal_ p mean sd w).2.
Proof.
  unfold normal_. destruct (params w !! p) as [t|] eqn:Hp; simpl.
  - split_and!; try done; [|by exists [EvInitNormal p mean sd]; split; [|repeat constructor]].
    intros q. simpl. destruct (decide (q = p)) as [->|Hne].
    + by rewrite lookup_insert_eq, Hp.
    + rewrite lookup_insert_ne by done. by destruct (params w !! q).
  - split_and!; try done; [intros q; simpl; by destruct (params w !! q)|].
    exists [EvInitNormal p mean sd]. split; [done|repeat constructor].
Qed.

Lemma constant_refills p v w : only_refills w (constant_ p v w).2.
Proof.
  unfold constant_. simpl. split_and!; try done.
  - intros q. simpl. destruct (decide (q = p)) as [->|Hne].
    + rewrite lookup_alter_eq. by destruct (params w !! p).
    + rewrite lookup_alter_ne by done. by destruct (params w !! q).
  - exists [EvInitConstant p v]. split; [done|repeat constructor].
Qed.

Lemma attr_data_world a w : (attr_data a w).2 = w.
Proof. by destruct a. Qed.

Lemma weight_init_layer_refills layer w : only_refills w (weight_init_layer layer w).2.
Proof.
  unfold weight_init_layer.
  destruct (contains "Conv" (cls_name layer)); [|destruct (contains "BatchNorm" (cls_name layer))].
  - apply bind_keeps; [apply only_refills_trans| |intros; apply normal_refills].
    rewrite attr_data_world. apply only_refills_refl.
  - apply bind_keeps; [apply only_refills_trans| |intros p w'].
    { rewrite attr_data_world. apply only_refills_refl. }
    apply bind_keeps; [apply only_refills_trans|apply normal_refills|intros _ w1].
    apply bind_keeps; [apply only_refills_trans| |intros; apply constant_refills].
    rewrite attr_data_world. apply only_refills_refl.
  - apply only_refills_refl.
Qed.

(** X4. Whatever the model, and whether it returns or raises,
    [weight_init] changes nothing but values of parameters, the random
    generator and the trace: every parameter keeps its shape and its device,
    no parameter appears or disappears, the gradients, the buffers and the
    tensors are left alone, and the only calls made are those of [nn.init]. *)
Theorem X4_weight_init_only_refills_parameters (model : nn_module) (w : world) :
  only_refills w (weight_init model w).2.
Proof.
  unfold weight_init.
  apply (for_keeps only_refills);
    [apply only_refills_refl|apply only_refills_trans|intros; apply weight_init_layer_refills].
Qed.

Lemma has_attrs_dec layer : has_attrs layer ∨ ¬ has_attrs layer.
Proof.
  unfold has_attrs.
  destruct (contains "Conv" (cls_name layer)); [|destruct (contains "BatchNorm" (cls_name layer))].
  - destruct (weight layer); [left; by eexists|right; by intros [? ?]].
  - destruct (weight layer), (bias layer);
      [left; split; by eexists|right..]; intros [[? ?] [? ?]]; done.
  - by left.
Qed.

Lemma all_or_not_has_attrs (ls : list nn_module) :
  Forall has_attrs ls ∨ ¬ Forall has_attrs ls.
Proof.
  induction ls as [|l ls [IH|IH]].
  - left. constructor.
  - destruct (has_attrs_dec l) as [Hl|Hl]; [left; by constructor|right].
    intros Hall. by apply Forall_cons in Hall as [? _].
  - right. intros Hall. by apply Forall_cons in Hall as [_ ?].
Qed.

Lemma first_without_attrs (ls : list nn_module) :
  ¬ Forall has_attrs ls →
  ∃ pre l post, ls = pre ++ l :: post ∧ Forall has_attrs pre ∧ ¬ has_attrs l.
Proof.
  induction ls as [|l ls IH]; intros Hn; [destruct Hn; constructor|].
  destruct (has_attrs_dec l) as [Hl|Hl].
  - destruct IH as (pre & l' & post & -> & Hpre & Hl').
    { intros Hls. apply Hn. by constructor. }
    exists (l :: pre), l', post. split_and!; [done|by constructor|done].
  - exists [], l, ls. split_and!; [done|constructor|done].
Qed.

Lemma weight_init_layer_fails layer w :
  ¬ has_attrs layer →
  ∃ w', weight_init_layer layer w = (Raise AttributeError, w')
        ∧ trace w' = trace w ++ init_calls_partial layer
        ∧ (∀ q, weight layer ≠ Some q → params w' !! q = params w !! q).
Proof.
  unfold has_attrs, weight_init_layer, init_calls_partial.
  destruct (contains "Conv" (cls_name layer)); [|destruct (contains "BatchNorm" (cls_name layer))].
  - intros Hn. destruct (weight layer) as [p|]; [destruct Hn; by eexists|].
    exists w. split_and!; [done|by rewrite app_nil_r|done].
  - intros Hn. destruct (weight layer) as [p|].
    + destruct (bias layer) as [q|]; [destruct Hn; split; by eexists|].
      destruct (normal_spec p 1 std w) as (w1 & Hrun1 & Htr1 & Hframe1 & Hval1).
      exists w1. simpl. erewrite (bind_Ok (ret p)) by reflexivity.
      erewrite bind_Ok by exact Hrun1. split_and!; [done|done|].
      intros q Hq. apply Hframe1. congruence.
    + exists w. split_and!; [done|by rewrite app_nil_r|done].
  - intros Hn. by destruct Hn.
Qed.

Lemma weight_init_layers_fail (pre post : list nn_module) (l : nn_module) w :
  Forall has_attrs pre → ¬ has_attrs l →
  ∃ w', for_ (pre ++ l :: post) () (λ layer _, weight_init_layer layer) w
          = (Raise AttributeError, w')
        ∧ trace w' = trace w ++ flat_map init_calls pre ++ init_calls_partial l
        ∧ (∀ q, q ∉ flat_map init_targets pre → weight l ≠ Some q →
             params w' !! q = params w !! q).
Proof.
  intros Hpre Hl. revert w. induction Hpre as [|x pre Hx _ IH]; intros w.
  - destruct (weight_init_layer_fails l w Hl) as (w' & Hrun & Htr & Hframe).
    exists w'. simpl. erewrite bind_Raise by exact Hrun. split_and!; [done|done|].
    intros q _. apply Hframe.
  - destruct (weight_init_layer_spec x w Hx) as (w1 & Hrun1 & Htr1 & Hframe1 & _).
    destruct (IH w1) as (w' & Hrun & Htr & Hframe).
    exists w'. simpl. erewrite bind_Ok by exact Hrun1. split_and!; [done| |].
    + rewrite Htr, Htr1. by rewrite <- !app_assoc.
    + intros q Hq Hw. apply not_elem_of_app in Hq as [Hq1 Hq2].
      rewrite Hframe by done. by apply Hframe1.
Qed.

Lemma weight_init_raises_layers (model : nn_module) (w : world) :
  ¬ Forall has_attrs (modules model) → (weight_init model w).1 = Raise AttributeError.
Proof.
  intros Hn. destruct (first_without_attrs _ Hn) as (pre & l & post & Heq & Hpre & Hl).
  unfold weight_init. rewrite Heq.
  destruct (weight_init_layers_fail pre post l w Hpre Hl) as (w' & Hrun & _).
  by rewrite Hrun.
Qed.

(** X5. [weight_init] returns if and only if every module it visits has
    the attributes it reads there ([weight] under a class name with Conv;
    [weight] and [bias] under one with BatchNorm and without Conv), and it
    raises [AttributeError] if and only if one has not. *)
Theorem X5_weight_init_raises_exactly_on_a_missing_attribute (model : nn_module) (w : world) :
  ((weight_init model w).1 = Ok () ↔ Forall has_attrs (modules model))
  ∧ ((weight_init model w).1 = Raise AttributeError ↔ ¬ Forall has_attrs (modules model)).
Proof.
  assert (Hok : Forall has_attrs (modules model) → (weight_init model w).1 = Ok ()).
  { intros Hall. destruct (weight_init_layers (modules model) w Hall) as (w' & Hrun & _).
    unfold weight_init. by rewrite Hrun. }
  pose proof (weight_init_raises_layers model w) as Hfail.
  split; split.
  - intros Hr. destruct (all_or_not_has_attrs (modules model)) as [Hall|Hn]; [done|].
    rewrite (Hfail Hn) in Hr. discriminate Hr.
  - exact Hok.
  - intros Hr Hall. rewrite (Hok Hall) in Hr. discriminate Hr.
  - exact Hfail.
Qed.

(** X6. [weight_init] is not atomic.  At the first module that lacks an
    attribute it raises [AttributeError] after it has initialised every
    module before that one and, when that one is a batch normalisation with
    a weight and no bias, after it has redrawn that weight; the parameters of
    the later modules are not written. *)
Theorem X6_weight_init_stops_at_the_first_missing_attribute (model : nn_module)
    (pre post : list nn_module) (l : nn_module) (w : world) :
  modules model = pre ++ l :: post → Forall has_attrs pre → ¬ has_attrs l →
  ∃ w', weight_init model w = (Raise AttributeError, w')
        ∧ trace w' = trace w ++ flat_map init_calls pre ++ init_calls_partial l
        ∧ (∀ q, q ∉ flat_map init_targets pre → weight l ≠ Some q →
             params w' !! q = params w !! q).
Proof.
  intros Heq Hpre Hl. unfold weight_init. rewrite Heq.
  by apply weight_init_layers_fail.
Qed.

(** ** [GAN.__init__] *)

Lemma weight_init_frame (model : nn_module) (w : world) (q : nat) :
  q ∉ flat_map init_targets (modules model) →
  params (weight_init model w).2 !! q = params w !! q.
Proof.
  intros Hq. unfold weight_init.
  destruct (all_or_not_has_attrs (modules model)) as [Hall|Hn].
  - destruct (weight_init_layers (modules model) w Hall) as (w' & Hrun & _ & Hframe & _).
    rewrite Hrun. by apply Hframe.
  - destruct (first_without_attrs _ Hn) as (pre & l & post & Heq & Hpre & Hl).
    rewrite Heq in Hq |- *.
    destruct (weight_init_layers_fail pre post l w Hpre Hl) as (w' & Hrun & _ & Hframe).
    rewrite Hrun. rewrite flat_map_app in Hq. simpl in Hq.
    apply not_elem_of_app in Hq as [Hq1 Hq2]. apply not_elem_of_app in Hq2 as [Hq2 _].
    apply Hframe; [done|]. intros Hw. apply Hq2.
    unfold has_attrs in Hl. unfold init_targets.
    destruct (contains "Conv" (cls_name l)).
    + rewrite Hw. set_solver.
    + destruct (contains "BatchNorm" (cls_name l)); [rewrite Hw; set_solver|by destruct Hl].
Qed.

(** X7. [GAN.__init__] initialises the generator, then the discriminator,
    and stores its arguments as they are.  When a module of the generator
    lacks an attribute it raises [AttributeError] and has written parameters
    of the generator only; when one of the discriminator does, it raises
    [AttributeError] as well. *)
Theorem X7_GAN_init_initialises_the_generator_then_the_discriminator
    (generator discriminator : Z → nn_module) (s k : Z)
    (lr_g lr_d : Q) (betas_g betas_d : Q * Q) (w : world) :
  (Forall has_attrs (modules (generator s)) →
   Forall has_attrs (modules (discriminator s)) →
   ∃ w', GAN_init generator discriminator s k lr_g lr_d betas_g betas_d w
         = (Ok {| seed_size := s; gen := generator s; dis := discriminator s;
                  print_loss_every := k; gen_lr := lr_g; dis_lr := lr_d;
                  gen_betas := betas_g; dis_betas := betas_d |}, w')
         ∧ trace w' = trace w ++ flat_map init_calls (modules (generator s))
                              ++ flat_map init_calls (modules (discriminator s))
         ∧ (∀ p, p ∉ flat_map init_targets (modules (generator s)) →
                 p ∉ flat_map init_targets (modules (discriminator s)) →
                 params w' !! p = params w !! p))
  ∧ (¬ Forall has_attrs (modules (generator s)) →
     ∃ w', GAN_init generator discriminator s k lr_g lr_d betas_g betas_d w
           = (Raise AttributeError, w')
           ∧ ∀ p, p ∉ flat_map init_targets (modules (generator s)) →
                  params w' !! p = params w !! p)
  ∧ (Forall has_attrs (modules (generator s)) →
     ¬ Forall has_attrs (modules (discriminator s)) →
     ∃ w', GAN_init generator discriminator s k lr_g lr_d betas_g betas_d w
           = (Raise AttributeError, w')).
Proof.
  unfold GAN_init. split_and!.
  - intros Hg Hd.
    destruct (weight_init_layers _ w Hg) as (w1 & Hrun1 & Htr1 & Hframe1 & _).
    destruct (weight_init_layers _ w1 Hd) as (w2 & Hrun2 & Htr2 & Hframe2 & _).
    exists w2. fold (weight_init (generator s)) in Hrun1.
    fold (weight_init (discriminator s)) in Hrun2.
    erewrite bind_Ok by exact Hrun1. erewrite bind_Ok by exact Hrun2.
    split_and!; [done| |].
    + rewrite Htr2, Htr1. by rewrite <- app_assoc.
    + intros p Hp1 Hp2. rewrite Hframe2 by done. by apply Hframe1.
  - intros Hn.
    pose proof (weight_init_raises_layers (generator s) w Hn) as Hr.
    pose proof (weight_init_frame (generator s) w) as Hframe.
    destruct (weight_init (generator s) w) as [r w'] eqn:Hrun. simpl in Hr, Hframe. subst r.
    exists w'. erewrite bind_Raise by exact Hrun. done.
  - intros Hg Hn.
    destruct (weight_init_layers _ w Hg) as (w1 & Hrun1 & _).
    fold (weight_init (generator s)) in Hrun1.
    pose proof (weight_init_raises_layers (discriminator s) w1 Hn) as Hr.
    destruct (weight_init (discriminator s) w1) as [r w'] eqn:Hrun. simpl in Hr. subst r.
    exists w'. erewrite bind_Ok by exact Hrun1. by erewrite bind_Raise by exact Hrun.
Qed.

End InitMore.

(** ** One step of training *)

Section StepMore.
Context `{Torch}.

Lemma zero_grad_frame ps (gs : gmap nat (tensor elt)) (p : nat) :
  p ∉ ps →
  foldr (λ p gs, if zero_grad_set_to_none then delete p gs else alter zero_one p gs) gs ps !! p
  = gs !! p.
Proof.
  induction ps as [|q ps IH]; intros Hp; [done|].
  apply not_elem_of_cons in Hp as [Hne Hp]. simpl.
  destruct zero_grad_set_to_none.
  - rewrite lookup_delete_ne by done. by apply IH.
  - rewrite lookup_alter_ne by done. by apply IH.
Qed.

(** X8. [fake_img.detach()] at work: the update of the discriminator, on a
    batch that is a leaf of the graph (as the batches of a loader are),
    changes the gradient of no parameter outside the discriminator, hence of
    no parameter of the generator that the discriminator does not share. *)
Theorem X8_discriminator_update_sends_no_gradient_elsewhere (self : GAN) (o : optimizer)
    (device : device) (batch : var) (b : Z) (w : world) (p : nat) :
  grad_fn batch = GNone → p ∉ parameters (dis self) →
  grads (dis_phase self o device batch b w).2 !! p = grads w !! p.
Proof.
  intros Hleaf Hp.
  destruct (dis_phase_grads self o device batch b w Hleaf)
    as (buf_r & buf_f & pred_r & pred_f & fake_img & Hg).
  rewrite Hg. rewrite !accumulate_frame by done. by apply zero_grad_frame.
Qed.



End StepMore.

(** ** The report of a step *)

Section ReportMore.
Context `{Torch}.

(** A step is the two updates followed by the report, and the updates do
    not depend on the position of the batch in the run. *)
Lemma train_step_runs self device (batch : var) opts w b s :
  shape (value batch) = b :: s →
  let moved := negb (device_eqb (dev (value batch)) device) in
  ∃ dis_loss gen_loss og od w2,
    trace w2 = trace w ++ step_calls b (seed_size self) device (tid batch) moved (next_tid w)
    ∧ opt_params og = opt_params opts.1 ∧ opt_params od = opt_params opts.2
    ∧ ∀ epoch num_epochs i,
        train_step self device epoch num_epochs i batch opts w =
        bind (report self i epoch num_epochs dis_loss gen_loss) (λ _, ret (og, od)) w2.
Proof.
  intros Hshape moved. destruct opts as [og od].
  destruct (dis_phase_spec self od device batch b w)
    as (fi & lbl & dl & od' & w1 & Hrun1 & Hfi & Hlbl & Hdl & Hp1 & Hl1 & Hb1 & Hn1 & Ht1 & _).
  destruct (gen_phase_spec self og fi lbl w1)
    as (gl & og' & w2 & Hrun2 & Hgl & Hp2 & Hl2 & Hb2 & Hn2 & Ht2 & _).
  fold moved in Hlbl, Hn1, Ht1.
  exists dl, gl, og', od', w2. split_and!.
  - rewrite Ht2, Ht1, Hfi, Hlbl, Hn1. unfold step_calls. cbv zeta. by rewrite <- app_assoc.
  - done.
  - done.
  - intros epoch num_epochs i. unfold train_step, shape0. rewrite Hshape.
    erewrite (bind_Ok (ret b)) by reflexivity.
    erewrite bind_Ok by exact Hrun1. cbv beta iota.
    erewrite bind_Ok by exact Hrun2. cbv beta iota. reflexivity.
Qed.

(** X10. With [print_loss_every] not zero, a step on a batch that has a
    first dimension returns, and what it computes (the optimizers, the
    parameters, the gradients, the tensors, the calls of the two updates) is
    the same whatever [i], [epoch] and [num_epochs]: they reach the printed
    line only, which is printed exactly when [i % print_loss_every == 0] and
    then names the iteration, the epoch and the two losses. *)
Theorem X10_train_step_reports_every_print_loss_every_batches (self : GAN) (device : device)
    (batch : var) (opts : optimizer * optimizer) (w : world) (b : Z) (s : list Z) :
  shape (value batch) = b :: s → print_loss_every self ≠ 0 →
  ∃ og od w2 dis_loss_show gen_loss_show,
    trace w2 = trace w ++ step_calls b (seed_size self) device (tid batch)
                            (negb (device_eqb (dev (value batch)) device)) (next_tid w)
    ∧ ∀ epoch num_epochs i,
        train_step self device epoch num_epochs i batch opts w =
        (Ok (og, od),
         set_trace
           (trace w2 ++
            if decide (i `mod` print_loss_every self = 0) then
              [EvPrint ("Iteration " +:+ pretty i +:+ tab +:+ "[Epoch " +:+ pretty epoch +:+ "/"
                        +:+ pretty num_epochs +:+ "]" +:+ tab +:+ "Losses:" +:+ tab
                        +:+ " L_discriminator = " +:+ dis_loss_show +:+ tab
                        +:+ " L_generator = " +:+ gen_loss_show)]
            else []) w2).
Proof.
  intros Hshape Hk.
  destruct (train_step_runs self device batch opts w b s Hshape)
    as (dl & gl & og & od & w2 & Htr & _ & _ & Hrun).
  exists og, od, w2, (fmt4 (item dl)), (fmt4 (item gl)). split; [exact Htr|].
  intros epoch num_epochs i. rewrite Hrun. unfold report.
  rewrite decide_False by done. case_decide.
  - reflexivity.
  - rewrite app_nil_r. by destruct w2.
Qed.

End ReportMore.

(** ** A run of [train] *)

Section TrainMore.
Context `{Torch}.

Lemma ran_refl w : ran 0 0 w w.
Proof. exists []. by rewrite app_nil_r. Qed.

Lemma ran_trans a b c d w1 w2 w3 :
  ran a b w1 w2 → ran c d w2 w3 → ran (a + c) (b + d) w1 w3.
Proof.
  intros (evs1 & Ht1 & Hs1 & Hy1 & Hf1) (evs2 & Ht2 & Hs2 & Hy2 & Hf2).
  exists (evs1 ++ evs2). split_and!.
  - by rewrite Ht2, Ht1, <- app_assoc.
  - by rewrite steps_of_app, Hs1, Hs2, replicate_add, concat_app.
  - by rewrite yields_of_app, length_app, Hy1, Hy2.
  - by rewrite shows_of_app, length_app, Hf1, Hf2.
Qed.

Lemma train_step_ran self device epoch num_epochs i (batch : var) opts w :
  shape (value batch) ≠ [] → print_loss_every self ≠ 0 →
  ∃ opts' w' evs,
    train_step self device epoch num_epochs i batch opts w = (Ok opts', w')
    ∧ trace w' = trace w ++ evs
    ∧ steps_of evs = [Dis; Gen] ∧ yields_of evs = [] ∧ shows_of evs = [].
Proof.
  intros Hshape Hk. destruct (shape (value batch)) as [|b s] eqn:Hsh; [done|].
  destruct (train_step_spec self device epoch num_epochs i batch opts w b s Hsh)
    as (r & w' & pr & Hrun & Htr & Hpr & _ & _ & _ & _ & _ & Hok).
  destruct (Hok Hk) as (og & od & -> & _).
  destruct (steps_of_step_calls b (seed_size self) device (tid batch)
              (negb (device_eqb (dev (value batch)) device)) (next_tid w))
    as (Hs & Hy & Hf & _).
  eexists _, w', _. split; [exact Hrun|]. split; [exact Htr|].
  rewrite steps_of_app, yields_of_app, shows_of_app, Hs, Hy, Hf.
  destruct Hpr as [->|[line ->]]; done.
Qed.

Lemma batches_ran self device epoch num_epochs (batches : list (Z * tensor elt)) opts w :
  Forall (λ it, shape it.2 ≠ []) batches → print_loss_every self ≠ 0 →
  ∃ opts' w',
    for_ batches opts (λ '(i, t) opts,
      bind (new_var EvYield t GNone)
        (λ batch, train_step self device epoch num_epochs i batch opts)) w = (Ok opts', w')
    ∧ ran (length batches) 0 w w'.
Proof.
  intros Hall Hk. revert opts w. induction Hall as [|[i t] batches Ht _ IH]; intros opts w.
  - exists opts, w. split; [done|apply ran_refl].
  - cbn [for_].
    destruct (train_step_ran self device epoch num_epochs i
                (Var (next_tid w) t GNone) opts
                (set_trace (trace w ++ [EvYield (next_tid w)]) (alloc t w)) Ht Hk)
      as (opts1 & w1 & evs & Hrun1 & Htr1 & Hs1 & Hy1 & Hf1).
    destruct (IH opts1 w1) as (opts' & w' & Hrun & Hran).
    exists opts', w'. split.
    + erewrite (bind_Ok (bind _ _)); [exact Hrun|].
      erewrite (bind_Ok (new_var _ _ _)) by reflexivity. exact Hrun1.
    + change (length ((i, t) :: batches)) with (1 + length batches)%nat.
      change 0%nat with (0 + 0)%nat. eapply ran_trans; [|exact Hran].
      exists (EvYield (next_tid w) :: evs). split_and!.
      * rewrite Htr1. simpl. by rewrite <- app_assoc.
      * simpl. by rewrite Hs1.
      * simpl. by rewrite Hy1.
      * simpl. by rewrite Hf1.
Qed.

(** What [train] passes as [fixed_seed]: the batch of 64 latent vectors when
    the plot is on. *)
Lemma end_of_epoch_ran self (plot : bool) (fixed_seed : option var) w :
  (if plot then ∃ fs d dt, fixed_seed = Some fs ∧ value fs = Tensor [64; seed_size self; 1; 1] d dt
   else True) →
  ∃ w', end_of_epoch self plot fixed_seed w = (Ok (), w')
        ∧ ran 0 (if plot then 1 else 0) w w'.
Proof.
  unfold end_of_epoch. destruct plot; [|intros _; exists w; split; [done|apply ran_refl]].
  intros (fs & d & dt & -> & Hv).
  destruct (call_spec Gen (gen self) false fs w) as (y & w1 & Hrun1 & Hy & Hsh1 & _ & Ht1 & _).
  destruct (cpu_world y w1) as (z & w2 & pr2 & Hrun2 & Hsh2 & _ & _ & Ht2 & Hpr2).
  rewrite Hv in Hsh1. cbn [shape forward_shape] in Hsh1. rewrite Hsh1 in Hsh2.
  eexists. split.
  - erewrite bind_Ok by exact Hrun1. erewrite bind_Ok by exact Hrun2.
    eapply (plotter_grid z 8 8 64); [lia|lia|exact Hsh2|lia].
  - eexists. split_and!.
    + unfold set_trace; cbn [trace]. rewrite Ht2, Ht1, <- !app_assoc. reflexivity.
    + destruct Hpr2 as [->| ->]; reflexivity.
    + destruct Hpr2 as [->| ->]; reflexivity.
    + destruct Hpr2 as [->| ->]; reflexivity.
Qed.

Lemma train_epoch_ran self dl device (plot : bool) (fixed_seed : option var)
    num_epochs epoch opts w :
  batched dl → print_loss_every self ≠ 0 →
  (if plot then ∃ fs d dt, fixed_seed = Some fs ∧ value fs = Tensor [64; seed_size self; 1; 1] d dt
   else True) →
  ∃ opts' w',
    train_epoch self dl device plot fixed_seed num_epochs epoch opts w = (Ok opts', w')
    ∧ ran (length (py_iter dl (rng w)).1) (if plot then 1 else 0) w w'.
Proof.
  intros Hdl Hk Hfs. unfold train_epoch.
  erewrite (bind_Ok (iterate dl)) by reflexivity.
  destruct (batches_ran self device epoch num_epochs (enumerate (py_iter dl (rng w)).1) opts
              (set_rng (py_iter dl (rng w)).2 w)) as (opts1 & w1 & Hrun1 & Hran1); [|done|].
  { apply Forall_forall. intros [i t] Hin. simpl. apply (Hdl (rng w)).
    unfold enumerate in Hin. by apply elem_of_zip_r in Hin. }
  destruct (end_of_epoch_ran self plot fixed_seed w1 Hfs) as (w2 & Hrun2 & Hran2).
  exists opts1, w2. split.
  - erewrite bind_Ok by exact Hrun1. by erewrite bind_Ok by exact Hrun2.
  - assert (Hlen : length (enumerate (py_iter dl (rng w)).1) = length (py_iter dl (rng w)).1).
    { unfold enumerate. rewrite length_zip, length_seqZ. lia. }
    rewrite Hlen in Hran1.
    replace (length (py_iter dl (rng w)).1) with (length (py_iter dl (rng w)).1 + 0)%nat by lia.
    change (if plot then 1 else 0)%nat with (0 + if plot then 1 else 0)%nat.
    eapply ran_trans; [|exact Hran2].
    destruct Hran1 as (evs & Ht & Hrest). exists evs. by split.
Qed.

Lemma epochs_ran self dl device (plot : bool) (fixed_seed : option var)
    num_epochs (epochs : list Z) opts w :
  batched dl → print_loss_every self ≠ 0 →
  (if plot then ∃ fs d dt, fixed_seed = Some fs ∧ value fs = Tensor [64; seed_size self; 1; 1] d dt
   else True) →
  ∃ opts' w' nb,
    for_ epochs opts (train_epoch self dl device plot fixed_seed num_epochs) w = (Ok opts', w')
    ∧ ran nb (length epochs * if plot then 1 else 0) w w'
    ∧ ∀ k, (∀ r, length (py_iter dl r).1 = k) → nb = (length epochs * k)%nat.
Proof.
  intros Hdl Hk Hfs. revert opts w. induction epochs as [|epoch epochs IH]; intros opts w.
  - exists opts, w, 0%nat. split_and!; [done|apply ran_refl|done].
  - destruct (train_epoch_ran self dl device plot fixed_seed num_epochs epoch opts w Hdl Hk Hfs)
      as (opts1 & w1 & Hrun1 & Hran1).
    destruct (IH opts1 w1) as (opts' & w' & nb & Hrun & Hran & Hnb).
    exists opts', w', (length (py_iter dl (rng w)).1 + nb)%nat. split_and!.
    + cbn [for_]. by erewrite bind_Ok by exact Hrun1.
    + replace (length (epoch :: epochs) * (if plot then 1 else 0))%nat
        with ((if plot then 1 else 0) + length epochs * (if plot then 1 else 0))%nat
        by (simpl; lia).
      by eapply ran_trans.
    + intros k Hlen. rewrite (Hnb k Hlen), Hlen. simpl. lia.
Qed.

(** The statements of [train] before its loop. *)
Lemma train_begin self dl num_epochs batch_size device (plot : bool) w :
  py_type dl = DataLoader →
  ∃ fixed_seed w0,
    train self dl num_epochs batch_size device plot w =
    bind (for_ (range num_epochs)
            (AdamW (parameters (gen self)) (gen_lr self) (gen_betas self),
             AdamW (parameters (dis self)) (dis_lr self) (dis_betas self))
            (train_epoch self dl device plot fixed_seed num_epochs))
      (λ _, ret ()) w0
    ∧ (if plot then ∃ fs d dt, fixed_seed = Some fs
                               ∧ value fs = Tensor [64; seed_size self; 1; 1] d dt
       else True)
    ∧ trace w0 = trace w ++ [EvModuleTo Dis device; EvModuleTo Gen device]
                         ++ (if plot then [EvRandn [64; seed_size self; 1; 1] (next_tid w)]
                             else [])
    ∧ grads w0 =
        foldr (λ p gs, alter (moved_to device) p gs)
          (foldr (λ p gs, alter (moved_to device) p gs) (grads w) (parameters (dis self)))
          (parameters (gen self))
    ∧ params w0 =
        foldr (λ p ps, alter (moved_to device) p ps)
          (foldr (λ p ps, alter (moved_to device) p ps) (params w) (parameters (dis self)))
          (parameters (gen self)).
Proof.
  intros Hty. unfold train, assert_. rewrite bool_decide_eq_true_2 by done.
  erewrite (bind_Ok (ret ())) by reflexivity.
  erewrite bind_Ok by (unfold module_to, emit; reflexivity).
  erewrite bind_Ok by (unfold module_to, emit; reflexivity).
  destruct plot.
  - erewrite bind_Ok by (unfold bind, randn, new_var; simpl; reflexivity).
    eexists _, _. split; [reflexivity|]. simpl. split_and!; try done.
    + by eexists _, _, _.
    + by rewrite <- !app_assoc.
  - erewrite (bind_Ok (ret None)) by reflexivity.
    eexists _, _. split; [reflexivity|]. simpl. split_and!; try done.
    by rewrite <- !app_assoc.
Qed.

Lemma moved_lookup (d : device) (ps : list nat) (m : gmap nat (tensor elt)) (p : nat) :
  foldr (λ p ps, alter (moved_to d) p ps) m ps !! p =
  if decide (p ∈ ps) then moved_to d <$> m !! p else m !! p.
Proof.
  induction ps as [|q ps IH].
  - destruct (decide (p ∈ [])) as [Hin|_]; [by apply elem_of_nil in Hin|done].
  - cbn [foldr]. destruct (decide (q = p)) as [->|Hne].
    + rewrite lookup_alter_eq, IH.
      destruct (decide (p ∈ p :: ps)) as [_|Hn]; [|destruct Hn; by left].
      destruct (decide (p ∈ ps)); [|done]. by destruct (m !! p).
    + rewrite lookup_alter_ne by done. rewrite IH.
      destruct (decide (p ∈ ps)) as [Hin|Hin], (decide (p ∈ q :: ps)) as [Hin'|Hin']; try done.
      * destruct Hin'. by right.
      * apply elem_of_cons in Hin' as [->|Hp]; done.
Qed.

(** X11. With [num_epochs <= 0], [train] on a loader returns once it has
    moved the two networks to [device], every parameter and every gradient
    it has keeping its shape and its data, and, with the plot on, sampled the
    fixed batch: the loader is not iterated, no optimizer steps, and the
    parameters and gradients outside the two networks are as they were. *)
Theorem X11_train_without_epochs_only_moves_the_networks (self : GAN) (dl : pyobj)
    (num_epochs batch_size : Z) (device : device) (plot : bool) (w : world) :
  py_type dl = DataLoader → num_epochs ≤ 0 →
  ∃ w', train self dl num_epochs batch_size device plot w = (Ok (), w')
        ∧ trace w' = trace w ++ [EvModuleTo Dis device; EvModuleTo Gen device]
                             ++ (if plot then [EvRandn [64; seed_size self; 1; 1] (next_tid w)]
                                 else [])
        ∧ ∀ p, (params w' !! p =
                if decide (p ∈ parameters (gen self) ∨ p ∈ parameters (dis self))
                then moved_to device <$> params w !! p
                else params w !! p)
               ∧ (grads w' !! p =
                  if decide (p ∈ parameters (gen self) ∨ p ∈ parameters (dis self))
                  then moved_to device <$> grads w !! p
                  else grads w !! p).
Proof.
  intros Hty Hn.
  destruct (train_begin self dl num_epochs batch_size device plot w Hty)
    as (fs & w0 & Hrun & _ & Htr & Hg & Hp).
  exists w0. rewrite Hrun. unfold range. rewrite seqZ_nil by done. split_and!; try done.
  intros p. rewrite Hp, Hg, !moved_lookup.
  destruct (decide (p ∈ parameters (gen self))) as [Hpg|Hpg],
           (decide (p ∈ parameters (dis self))) as [Hpd|Hpd].
  - rewrite !decide_True by tauto.
    split; [by destruct (params w !! p)|by destruct (grads w !! p)].
  - rewrite !decide_True by tauto. by split.
  - rewrite !decide_True by tauto. by split.
  - rewrite !decide_False by tauto. by split.
Qed.

(** X12. On a loader whose batches all have a first dimension, and with
    [print_loss_every] not zero, [train] returns.  Every batch yielded is
    followed by one step of the optimizer of the discriminator and then one
    of the optimizer of the generator, and by nothing else that steps; one
    figure is shown per epoch with the plot on, none with the plot off; a
    loader of [k] batches per pass yields [num_epochs * k] batches. *)
Theorem X12_train_completes_with_one_update_of_each_network_per_batch (self : GAN) (dl : pyobj)
    (num_epochs batch_size : Z) (device : device) (plot : bool) (w : world) :
  py_type dl = DataLoader → print_loss_every self ≠ 0 → batched dl →
  ∃ w' evs,
    train self dl num_epochs batch_size device plot w = (Ok (), w')
    ∧ trace w' = trace w ++ evs
    ∧ steps_of evs = concat (replicate (length (yields_of evs)) [Dis; Gen])
    ∧ length (shows_of evs) = (if plot then Z.to_nat num_epochs else 0%nat)
    ∧ ∀ k, (∀ r, length (py_iter dl r).1 = k) →
           length (yields_of evs) = (Z.to_nat num_epochs * k)%nat.
Proof.
  intros Hty Hk Hdl.
  destruct (train_begin self dl num_epochs batch_size device plot w Hty)
    as (fs & w0 & Hrun & Hfs & Htr & _ & _).
  destruct (epochs_ran self dl device plot fs num_epochs (range num_epochs)
              (AdamW (parameters (gen self)) (gen_lr self) (gen_betas self),
               AdamW (parameters (dis self)) (dis_lr self) (dis_betas self)) w0 Hdl Hk Hfs)
    as (opts' & w' & nb & Hloop & (evs & Ht & Hs & Hy & Hf) & Hnb).
  unfold range in Hf, Hnb. rewrite length_seqZ in Hf, Hnb.
  eexists w', _. split_and!.
  - rewrite Hrun. by erewrite bind_Ok by exact Hloop.
  - rewrite Ht, Htr, <- app_assoc. reflexivity.
  - rewrite steps_of_app, yields_of_app, length_app.
    destruct plot; simpl; by rewrite Hs, Hy.
  - rewrite shows_of_app, length_app, Hf. destruct plot; simpl; lia.
  - intros k Hlen. rewrite yields_of_app, length_app, Hy, (Hnb k Hlen).
    destruct plot; simpl; lia.
Qed.

(** X13. With [print_loss_every = 0], [train] raises [ZeroDivisionError]
    at [i % self.print_loss_every] on the first batch, once both networks
    have been updated on that batch; nothing has been printed or shown. *)
Theorem X13_train_with_print_loss_every_zero_fails_after_the_first_step (self : GAN) (dl : pyobj)
    (num_epochs batch_size : Z) (device : device) (plot : bool) (w : world) :
  py_type dl = DataLoader → print_loss_every self = 0 → 0 < num_epochs →
  batched dl → (∀ r, (py_iter dl r).1 ≠ []) →
  ∃ w' evs,
    train self dl num_epochs batch_size device plot w = (Raise ZeroDivisionError, w')
    ∧ trace w' = trace w ++ evs
    ∧ steps_of evs = [Dis; Gen]
    ∧ length (yields_of evs) = 1%nat
    ∧ prints_of evs = [] ∧ shows_of evs = [].
Proof.
  intros Hty Hk Hn Hdl Hne.
  destruct (train_begin self dl num_epochs batch_size device plot w Hty)
    as (fs & w0 & Hrun & _ & Htr & _ & _).
  unfold range in Hrun. rewrite seqZ_cons in Hrun by done. cbn [for_] in Hrun.
  destruct (py_iter dl (rng w0)) as [batches r'] eqn:Hit.
  destruct batches as [|t batches]; [by destruct (Hne (rng w0)); rewrite Hit|].
  assert (Hsh : shape t ≠ []).
  { apply (Hdl (rng w0)). rewrite Hit. simpl. by left. }
  destruct (shape t) as [|b s] eqn:Hshape; [done|].
  set (w1 := set_trace (trace (set_rng r' w0) ++ [EvYield (next_tid w0)]) (alloc t (set_rng r' w0))).
  destruct (train_step_runs self device (Var (next_tid w0) t GNone)
              (AdamW (parameters (gen self)) (gen_lr self) (gen_betas self),
               AdamW (parameters (dis self)) (dis_lr self) (dis_betas self)) w1 b s Hshape)
    as (dl' & gl & og & od & w2 & Htr2 & _ & _ & Hstep).
  destruct (steps_of_step_calls b (seed_size self) device (next_tid w0)
              (negb (device_eqb (dev t) device)) (next_tid w1)) as (Hs & Hy & Hf & Hp).
  exists w2, ([EvModuleTo Dis device; EvModuleTo Gen device]
              ++ (if plot then [EvRandn [64; seed_size self; 1; 1] (next_tid w)] else [])
              ++ [EvYield (next_tid w0)]
              ++ step_calls b (seed_size self) device (next_tid w0)
                   (negb (device_eqb (dev t) device)) (next_tid w1)).
  assert (Hraise : train_step self device 0 num_epochs 0 (Var (next_tid w0) t GNone)
            (AdamW (parameters (gen self)) (gen_lr self) (gen_betas self),
             AdamW (parameters (dis self)) (dis_lr self) (dis_betas self)) w1
          = (Raise ZeroDivisionError, w2)).
  { rewrite Hstep. unfold report. by rewrite decide_True by done. }
  assert (Hepoch : train_epoch self dl device plot fs num_epochs 0
            (AdamW (parameters (gen self)) (gen_lr self) (gen_betas self),
             AdamW (parameters (dis self)) (dis_lr self) (dis_betas self)) w0
          = (Raise ZeroDivisionError, w2)).
  { unfold train_epoch.
    erewrite (bind_Ok (iterate dl)) by (unfold iterate; rewrite Hit; reflexivity).
    erewrite bind_Raise; [reflexivity|].
    unfold enumerate. cbn [fst snd]. rewrite seqZ_cons by (simpl; lia). cbn [zip_with for_].
    erewrite bind_Raise; [reflexivity|].
    erewrite (bind_Ok (new_var _ _ _)) by reflexivity. exact Hraise. }
  split_and!.
  - rewrite Hrun. erewrite bind_Raise; [reflexivity|].
    by erewrite bind_Raise by exact Hepoch.
  - rewrite Htr2. subst w1. cbn [trace set_trace alloc set_rng]. rewrite Htr.
    rewrite <- !app_assoc. reflexivity.
  - rewrite !steps_of_app, Hs. by destruct plot.
  - rewrite !yields_of_app, Hy. by destruct plot.
  - rewrite !prints_of_app, Hp. by destruct plot.
  - rewrite !shows_of_app, Hf. by destruct plot.
Qed.

End TrainMore.

(** ** What a run leaves alone *)

Section FrameMore.
Context `{Torch}.

Lemma untrained_refl w : untrained w w.
Proof. by split. Qed.

Lemma untrained_trans w1 w2 w3 : untrained w1 w2 → untrained w2 w3 → untrained w1 w3.
Proof. intros [? ?] [? ?]. split; congruence. Qed.

Lemma outside_refl ps w : outside ps w w.
Proof. by intros p _. Qed.

Lemma outside_trans ps w1 w2 w3 : outside ps w1 w2 → outside ps w2 w3 → outside ps w1 w3.
Proof.
  intros H12 H23 p Hp. destruct (H12 p Hp) as [? ?], (H23 p Hp) as [? ?]. split; congruence.
Qed.

Lemma untrained_outside ps w w' : untrained w w' → outside ps w w'.
Proof. intros [Hp Hg] p _. by rewrite Hp, Hg. Qed.

Lemma for_inv {A S} (I : S → Prop) (R : world → world → Prop) (xs : list A)
    (body : A → S → M S) :
  (∀ w, R w w) → (∀ w1 w2 w3, R w1 w2 → R w2 w3 → R w1 w3) →
  (∀ x s w, I s → R w (body x s w).2 ∧ ∀ s', (body x s w).1 = Ok s' → I s') →
  ∀ s w, I s → R w (for_ xs s body w).2.
Proof.
  intros Hrefl Htrans Hbody. induction xs as [|x xs IH]; intros s w Hs; simpl; [apply Hrefl|].
  unfold bind. destruct (Hbody x s w Hs) as [HR HI].
  destruct (body x s w) as [[s'|e] w']; simpl in *; [|done].
  eapply Htrans; [exact HR|]. apply IH. by apply HI.
Qed.

Lemma call_untrained n m tracked (x : var) w : untrained w (call n m tracked x w).2.
Proof. by split. Qed.

Lemma cpu_untrained (x : var) w : untrained w (cpu x w).2.
Proof. unfold cpu, to. by destruct (device_eqb _ _). Qed.

Lemma plotter_untrained (x : var) rows columns w : untrained w (plotter x rows columns w).2.
Proof. destruct (plotter_world x rows columns w) as (pr & -> & _). by split. Qed.

Lemma end_of_epoch_untrained self plot fixed_seed w :
  untrained w (end_of_epoch self plot fixed_seed w).2.
Proof.
  unfold end_of_epoch. destruct plot; [|apply untrained_refl].
  destruct fixed_seed as [fs|]; [|apply untrained_refl].
  apply bind_keeps; [apply untrained_trans|apply call_untrained|intros y w1].
  apply bind_keeps; [apply untrained_trans|apply cpu_untrained|intros z w2].
  apply plotter_untrained.
Qed.

Lemma generate_prefix self num_rows num_cols device plot return_noise w :
  ∃ g w1,
    tid g = (next_tid w + match device with CPU => 2 | CUDA => 3 end)%nat
    ∧ value g = images self num_rows num_cols device w
    ∧ params w1 = params w ∧ grads w1 = grads w
    ∧ rng w1 = (randn_data (rng w) (numel [num_rows * num_cols; seed_size self; 1; 1])).2
    ∧ bufs w1 = <[mid (gen self) :=
                   forward_buffers (gen self) ((λ p, params w !! p) <$> parameters (gen self))
                     (bufs w !! mid (gen self)) (latents self num_rows num_cols device w)]>
                  (bufs w)
    ∧ trace w1 = trace w ++
        [EvRandn [num_rows * num_cols; seed_size self; 1; 1] (next_tid w);
         EvForward Gen true (next_tid w) (next_tid w + 1)] ++
        (match device with
         | CPU => [EvDetach (next_tid w + 1) (next_tid w + 2)]
         | CUDA => [EvTo CPU (next_tid w + 1) (next_tid w + 2);
                    EvDetach (next_tid w + 2) (next_tid w + 3)]
         end)%nat
    ∧ generate self num_rows num_cols device plot return_noise w =
      bind (if plot then plotter g num_rows num_cols else ret ())
        (λ _, if return_noise then
                bind (cpu (Var (next_tid w) (latents self num_rows num_cols device w) GNone))
                  (λ noise_cpu, ret (Pair g noise_cpu))
              else ret (Single g)) w1.
Proof.
  unfold generate, cpu, to, images, latents. destruct device.
  - do 2 eexists. split_and!; cycle 7.
    + cbn. reflexivity.
    + cbn. lia.
    + reflexivity.
    + reflexivity.
    + reflexivity.
    + reflexivity.
    + reflexivity.
    + cbn. rewrite <- !app_assoc. cbn. repeat f_equal; lia.
  - do 2 eexists. split_and!; cycle 7.
    + cbn. reflexivity.
    + cbn. lia.
    + reflexivity.
    + reflexivity.
    + reflexivity.
    + reflexivity.
    + reflexivity.
    + cbn. rewrite <- !app_assoc. cbn. repeat f_equal; lia.
Qed.

(** X14. [generate] changes no parameter and no gradient, whatever its
    arguments and whether it returns or raises; it draws once from the
    random generator, and its forward pass, made outside [torch.no_grad()]
    and in the mode the generator is in, is the one change to the buffers. *)
Theorem X14_generate_changes_no_parameter_and_no_gradient (self : GAN) (num_rows num_cols : Z)
    (device : device) (plot return_noise : bool) (w : world) :
  untrained w (generate self num_rows num_cols device plot return_noise w).2
  ∧ rng (generate self num_rows num_cols device plot return_noise w).2
    = (randn_data (rng w) (numel [num_rows * num_cols; seed_size self; 1; 1])).2
  ∧ bufs (generate self num_rows num_cols device plot return_noise w).2
    = <[mid (gen self) :=
          forward_buffers (gen self) ((λ p, params w !! p) <$> parameters (gen self))
            (bufs w !! mid (gen self)) (latents self num_rows num_cols device w)]> (bufs w).
Proof.
  destruct (generate_prefix self num_rows num_cols device plot return_noise w)
    as (g & w1 & _ & _ & Hp & Hg & Hr & Hb & _ & Hrun).
  rewrite Hrun. clear Hrun.
  set (rest := bind _ _).
  assert (Hk : untrained w1 (rest w1).2 ∧ rng (rest w1).2 = rng w1 ∧ bufs (rest w1).2 = bufs w1).
  { apply (bind_keeps (λ w w', untrained w w' ∧ rng w' = rng w ∧ bufs w' = bufs w)).
    - intros wa wb wc ([? ?] & ? & ?) ([? ?] & ? & ?). unfold untrained. split_and!; congruence.
    - destruct plot; [|by split].
      destruct (plotter_world g num_rows num_cols w1) as (pr & -> & _). by split.
    - intros _ w2. destruct return_noise; [|by split].
      apply (bind_keeps (λ w w', untrained w w' ∧ rng w' = rng w ∧ bufs w' = bufs w)).
      + intros wa wb wc ([? ?] & ? & ?) ([? ?] & ? & ?). unfold untrained.
        split_and!; congruence.
      + unfold cpu, to. by destruct (device_eqb _ _).
      + by intros. }
  destruct Hk as ([Hp' Hg'] & Hr' & Hb'). unfold untrained.
  rewrite Hp', Hg', Hr', Hb'. by split_and!.
Qed.

End FrameMore.

Section TrainFrame.
Context `{Torch}.

Lemma train_step_grads self device epoch num_epochs i (batch : var) og od w b s :
  shape (value batch) = b :: s → grad_fn batch = GNone →
  ∃ θg bg x up f0 f1 f2,
    grads (train_step self device epoch num_epochs i batch (og, od) w).2 =
    backprop (GForward (gen self) θg bg x GNone) up
      (accumulate (parameters (dis self)) 0 f0
         (foldr (λ p gs, if zero_grad_set_to_none then delete p gs else alter zero_one p gs)
            (accumulate (parameters (dis self)) 0 f1
               (accumulate (parameters (dis self)) 0 f2
                  (foldr (λ p gs, if zero_grad_set_to_none then delete p gs
                                  else alter zero_one p gs)
                     (grads w) (parameters (dis self)))))
            (parameters (gen self)))).
Proof.
  destruct batch as [t [sh d dt] g]. simpl. intros -> ->.
  unfold train_step, shape0. simpl.
  unfold dis_phase, gen_phase, report, to. simpl.
  destruct (device_eqb d device); repeat case_decide; do 7 eexists; cbn; reflexivity.
Qed.

Lemma train_step_outside self device epoch num_epochs i (batch : var) opts w :
  grad_fn batch = GNone → own_optimizers self opts →
  outside (parameters (gen self) ++ parameters (dis self)) w
    (train_step self device epoch num_epochs i batch opts w).2
  ∧ ∀ opts', (train_step self device epoch num_epochs i batch opts w).1 = Ok opts' →
             own_optimizers self opts'.
Proof.
  intros Hleaf Hown. destruct (shape (value batch)) as [|b s] eqn:Hshape.
  - destruct opts as [og od]. unfold train_step, shape0. rewrite Hshape.
    erewrite bind_Raise by reflexivity. split; [apply outside_refl|]. intros opts' Hr.
    discriminate Hr.
  - split.
    + intros p Hp. apply not_elem_of_app in Hp as [Hpg Hpd].
      destruct opts as [og od]. destruct Hown as [Hog Hod]. simpl in Hog, Hod. split.
      * destruct (train_step_params self device epoch num_epochs i batch og od w b s Hshape)
          as (gs_d & gs_g & ->).
        rewrite step_params_frame by (by rewrite Hog). simpl.
        by rewrite step_params_frame by (by rewrite Hod).
      * destruct (train_step_grads self device epoch num_epochs i batch og od w b s
                    Hshape Hleaf) as (θg & bg & x & up & f0 & f1 & f2 & ->).
        cbn [backprop]. rewrite !accumulate_frame by done.
        rewrite zero_grad_frame by done. rewrite !accumulate_frame by done.
        by apply zero_grad_frame.
    + destruct (train_step_runs self device batch opts w b s Hshape)
        as (dl & gl & og & od & w2 & _ & Hog & Hod & Hrun).
      intros opts'. rewrite Hrun. unfold bind.
      destruct (report self i epoch num_epochs dl gl w2) as [[[]|e] w3]; simpl; [|done].
      intros [= <-]. destruct Hown as [Hg Hd]. split; simpl; congruence.
Qed.

Lemma batches_outside self device epoch num_epochs (batches : list (Z * tensor elt)) opts w :
  own_optimizers self opts →
  outside (parameters (gen self) ++ parameters (dis self)) w
    (for_ batches opts (λ '(i, t) opts,
       bind (new_var EvYield t GNone)
         (λ batch, train_step self device epoch num_epochs i batch opts)) w).2
  ∧ ∀ opts', (for_ batches opts (λ '(i, t) opts,
                bind (new_var EvYield t GNone)
                  (λ batch, train_step self device epoch num_epochs i batch opts)) w).1
             = Ok opts' → own_optimizers self opts'.
Proof.
  revert opts w. induction batches as [|[i t] batches IH]; intros opts w Hown.
  - split; [apply outside_refl|]. by intros opts' [= <-].
  - cbn [for_].
    set (w0 := set_trace (trace w ++ [EvYield (next_tid w)]) (alloc t w)).
    destruct (train_step_outside self device epoch num_epochs i (Var (next_tid w) t GNone)
                opts w0 eq_refl Hown) as [Hout Hinv].
    assert (Hfirst : bind (new_var EvYield t GNone)
              (λ batch, train_step self device epoch num_epochs i batch opts) w
            = train_step self device epoch num_epochs i (Var (next_tid w) t GNone) opts w0).
    { by erewrite (bind_Ok (new_var _ _ _)) by reflexivity. }
    destruct (train_step self device epoch num_epochs i (Var (next_tid w) t GNone) opts w0)
      as [[opts1|e] w1] eqn:Hstep; simpl in Hout, Hinv.
    + erewrite bind_Ok by exact Hfirst.
      destruct (IH opts1 w1 (Hinv opts1 eq_refl)) as [Hout' Hinv'].
      split; [|exact Hinv']. eapply outside_trans; [|exact Hout'].
      intros p Hp. exact (Hout p Hp).
    + erewrite bind_Raise by exact Hfirst. simpl. split; [|by intros opts' [=]].
      intros p Hp. exact (Hout p Hp).
Qed.

Lemma train_epoch_outside self dl device plot fixed_seed num_epochs epoch opts w :
  own_optimizers self opts →
  outside (parameters (gen self) ++ parameters (dis self)) w
    (train_epoch self dl device plot fixed_seed num_epochs epoch opts w).2
  ∧ ∀ opts', (train_epoch self dl device plot fixed_seed num_epochs epoch opts w).1 = Ok opts' →
             own_optimizers self opts'.
Proof.
  intros Hown. unfold train_epoch.
  erewrite (bind_Ok (iterate dl)) by reflexivity.
  destruct (batches_outside self device epoch num_epochs (enumerate (py_iter dl (rng w)).1)
              opts (set_rng (py_iter dl (rng w)).2 w) Hown) as [Hout Hinv].
  set (loop := for_ _ opts _) in *.
  destruct (loop (set_rng (py_iter dl (rng w)).2 w)) as [[opts1|e] w1] eqn:Hloop;
    simpl in Hout, Hinv.
  - erewrite bind_Ok by exact Hloop.
    pose proof (end_of_epoch_untrained self plot fixed_seed w1) as Hend.
    unfold bind. destruct (end_of_epoch self plot fixed_seed w1) as [[[]|e] w2]; simpl in *.
    + split; [|intros opts' [= <-]; by apply Hinv].
      eapply outside_trans; [exact Hout|by apply untrained_outside].
    + split; [|by intros opts' [=]].
      eapply outside_trans; [exact Hout|by apply untrained_outside].
  - erewrite bind_Raise by exact Hloop. simpl. split; [exact Hout|by intros opts' [=]].
Qed.

(** X15. Whatever is passed as the loader, and whether [train] returns or
    raises, a parameter that belongs to neither network keeps its value and
    its gradient. *)
Theorem X15_train_changes_only_the_two_networks (self : GAN) (dl : pyobj)
    (num_epochs batch_size : Z) (device : device) (plot : bool) (w : world) (p : nat) :
  p ∉ parameters (gen self) → p ∉ parameters (dis self) →
  params (train self dl num_epochs batch_size device plot w).2 !! p = params w !! p
  ∧ grads (train self dl num_epochs batch_size device plot w).2 !! p = grads w !! p.
Proof.
  intros Hpg Hpd. destruct (decide (py_type dl = DataLoader)) as [Hty|Hty].
  - destruct (train_begin self dl num_epochs batch_size device plot w Hty)
      as (fs & w0 & Hrun & _ & _ & Hg & Hp).
    rewrite Hrun, bind_ret_world.
    assert (Hout : outside (parameters (gen self) ++ parameters (dis self)) w0
              (for_ (range num_epochs)
                 (AdamW (parameters (gen self)) (gen_lr self) (gen_betas self),
                  AdamW (parameters (dis self)) (dis_lr self) (dis_betas self))
                 (train_epoch self dl device plot fs num_epochs) w0).2).
    { apply (for_inv (own_optimizers self));
        [apply outside_refl|apply outside_trans| |by split].
      intros epoch opts w1 Hown. by apply train_epoch_outside. }
    destruct (Hout p) as [Hp' Hg']; [by apply not_elem_of_app|].
    rewrite Hp', Hg', Hg, Hp, !moved_lookup.
    by rewrite !decide_False by done.
  - unfold train, assert_. rewrite bool_decide_eq_false_2 by done.
    by erewrite bind_Raise by reflexivity.
Qed.

End TrainFrame.

(** ** [GAN.generate] with the plot on *)

Section GenerateMore.
Context `{Torch}.

(** X16. On a grid of at least two rows and two columns, [generate] with
    the plot on returns, the pair or the images alone according to
    [return_noise], and shows exactly one figure: that of the tensor it
    returns, with each of its [num_rows * num_cols] images, once and in
    order. *)
Theorem X16_generate_shows_the_images_it_returns (self : GAN) (num_rows num_cols : Z)
    (device : device) (return_noise : bool) (w : world) :
  2 ≤ num_rows → 2 ≤ num_cols →
  ∃ g noise w' evs,
    generate self num_rows num_cols device true return_noise w =
      (Ok (if return_noise then Pair g noise else Single g), w')
    ∧ value g = images self num_rows num_cols device w
    ∧ trace w' = trace w ++ evs
    ∧ shows_of evs = [(tid g, num_rows, num_cols, grid_cells num_rows num_cols)]
    ∧ (λ c, c.2) <$> grid_cells num_rows num_cols = seqZ 0 (num_rows * num_cols).
Proof.
  intros Hr Hc.
  destruct (generate_prefix self num_rows num_cols device true return_noise w)
    as (g & w1 & Htid & Hv & _ & _ & _ & _ & Htr & Hrun).
  assert (Hsh : shape (value g) =
                num_rows * num_cols :: item_shape (gen self) [seed_size self; 1; 1])
    by (by rewrite Hv).
  pose proof (plotter_grid g num_rows num_cols _ _ w1 Hr Hc Hsh ltac:(lia)) as Hplot.
  assert (Hcells : (λ c, c.2) <$> grid_cells num_rows num_cols = seqZ 0 (num_rows * num_cols)).
  { rewrite <- (Z2Nat.id num_rows) by lia. apply grid_cells_images. lia. }
  rewrite Hrun. erewrite bind_Ok by exact Hplot. clear Hrun Hplot.
  exists g. destruct return_noise.
  - destruct (cpu_spec (Var (next_tid w) (latents self num_rows num_cols device w) GNone)
                (set_trace (trace w1 ++ [EvShow (tid g) num_rows num_cols
                                           (grid_cells num_rows num_cols)]) w1))
      as (noise & w' & pr & Hcpu & _ & _ & Htr').
    assert (Hpr : shows_of pr = []).
    { revert Hcpu Htr'. unfold cpu, to, new_var, ret. cbn [value dev latents].
      destruct (device_eqb device CPU).
      - intros [= <- <-] Heq. apply (f_equal shows_of) in Heq.
        rewrite shows_of_app in Heq. symmetry.
        apply (app_inv_head (shows_of (trace (set_trace
                 (trace w1 ++ [EvShow (tid g) num_rows num_cols
                                 (grid_cells num_rows num_cols)]) w1)))).
        by rewrite app_nil_r.
      - intros [= <- <-]. cbn [trace set_trace alloc]. intros Heq.
        apply app_inv_head in Heq. by rewrite <- Heq. }
    exists noise, w'. eexists. split_and!; [|exact Hv| | |exact Hcells].
    + erewrite bind_Ok by exact Hcpu. reflexivity.
    + rewrite Htr'. cbn [trace set_trace]. rewrite Htr, <- !app_assoc. reflexivity.
    + rewrite !shows_of_app, Hpr. by destruct device.
  - exists g. eexists _, _. split_and!; [reflexivity|exact Hv| | |exact Hcells].
    + cbn [trace set_trace]. rewrite Htr, <- !app_assoc. reflexivity.
    + by destruct device.
Qed.

End GenerateMore.

(** * The further properties on the small model *)

Section MoreWitnesses.
#[local] Existing Instance toy_torch.

Lemma X1_witness :
  2 ≤ 2 ∧ shape (value toy_data) = 4 :: 3 :: [2; 2] ∧ 2 * 2 ≤ 4
  ∧ ∃ cells,
      plotter toy_data 2 2 toy_world
      = (Ok (), set_trace (trace toy_world ++ [EvShow (tid toy_data) 2 2 cells]) toy_world)
      ∧ (λ c, c.2) <$> cells = seqZ 0 (2 * 2).
Proof.
  assert (H2 : 2 ≤ 2) by lia. assert (H4 : 2 * 2 ≤ 4) by lia.
  split; [exact H2|]. split; [reflexivity|]. split; [exact H4|].
  destruct (X1_plotter_shows_every_image_of_the_grid toy_data 2 2 4 3 [2; 2] toy_world
              H2 H2 eq_refl H4) as (cells & Hrun & Himg & _).
  exists cells. split; [exact Hrun|exact Himg].
Defined.

Lemma X2_witness :
  2 ≤ 2 ∧ 2 ≤ 3 ∧ shape (value toy_data) = 4 :: 3 :: [2; 2] ∧ 0 ≤ 4 < 2 * 3
  ∧ plotter toy_data 2 3 toy_world = (Raise IndexError, toy_world).
Proof.
  assert (H2 : 2 ≤ 2) by lia. assert (H3 : 2 ≤ 3) by lia. assert (H4 : 0 ≤ 4 < 2 * 3) by lia.
  split; [exact H2|]. split; [exact H3|]. split; [reflexivity|]. split; [exact H4|].
  exact (X2_plotter_raises_on_too_few_images toy_data 2 3 4 3 [2; 2] toy_world
           H2 H3 eq_refl H4).
Defined.

Lemma toy_no_bias_modules :
  modules toy_no_bias =
  [toy_no_bias; Layer 9 "Conv2d" (Some 40%nat) None []] ++
  Layer 10 "BatchNorm2d" (Some 41%nat) None [] :: [Layer 11 "Conv2d" (Some 42%nat) None []].
Proof. by vm_compute. Qed.

Lemma X6_witness :
  Forall has_attrs [toy_no_bias; Layer 9 "Conv2d" (Some 40%nat) None []]
  ∧ (¬ has_attrs (Layer 10 "BatchNorm2d" (Some 41%nat) None []))
  ∧ ∃ w', weight_init toy_no_bias toy_world = (Raise AttributeError, w')
          ∧ trace w' = trace toy_world ++ [EvInitNormal 40 0 0.02; EvInitNormal 41 1 0.02].
Proof.
  assert (Hpre : Forall has_attrs [toy_no_bias; Layer 9 "Conv2d" (Some 40%nat) None []]).
  { repeat constructor; vm_compute; eauto. }
  assert (Hl : ¬ has_attrs (Layer 10 "BatchNorm2d" (Some 41%nat) None [])).
  { vm_compute. intros [_ [q Hq]]. discriminate Hq. }
  split; [exact Hpre|]. split; [exact Hl|].
  destruct (X6_weight_init_stops_at_the_first_missing_attribute toy_no_bias _ _ _ toy_world
              toy_no_bias_modules Hpre Hl) as (w' & Hrun & Htr & _).
  exists w'. split; [exact Hrun|exact Htr].
Defined.

Lemma X7_witness :
  Forall has_attrs (modules toy_gen) ∧ Forall has_attrs (modules toy_dis)
  ∧ ∃ w', GAN_init (λ _, toy_gen) (λ _, toy_dis) 2 25 0.0002 0.0002 (0.5, 0.999)%Q (0.5, 0.999)%Q
            toy_world = (Ok toy_self, w')
          ∧ trace w' = [EvInitNormal 10 0 0.02; EvInitNormal 11 1 0.02; EvInitConstant 12 0;
                        EvInitNormal 20 0 0.02].
Proof.
  assert (Hg : Forall has_attrs (modules toy_gen)).
  { change (modules toy_gen) with
      [toy_gen; Layer 1 "ConvTranspose2d" (Some 10%nat) None [];
       Layer 2 "BatchNorm2d" (Some 11%nat) (Some 12%nat) []; Layer 3 "ReLU" None None []].
    repeat constructor; vm_compute; eauto. }
  assert (Hd : Forall has_attrs (modules toy_dis)).
  { change (modules toy_dis) with
      [toy_dis; Layer 5 "Conv2d" (Some 20%nat) (Some 21%nat) [];
       Layer 6 "Sigmoid" None None []].
    repeat constructor; vm_compute; eauto. }
  split; [exact Hg|]. split; [exact Hd|].
  destruct (X7_GAN_init_initialises_the_generator_then_the_discriminator
              (λ _, toy_gen) (λ _, toy_dis) 2 25 0.0002 0.0002 (0.5, 0.999)%Q (0.5, 0.999)%Q
              toy_world) as (Hok & _ & _).
  destruct (Hok Hg Hd) as (w' & Hrun & Htr & _).
  exists w'. split; [exact Hrun|exact Htr].
Defined.

Lemma X8_witness :
  grad_fn toy_data = GNone ∧ (10%nat ∉ parameters (dis toy_self))
  ∧ grads (dis_phase toy_self (AdamW [20; 21]%nat 0.0002 (0.5, 0.999)%Q) CPU toy_data 4
             toy_world1).2 !! 10%nat = grads toy_world1 !! 10%nat.
Proof.
  assert (Hp : 10%nat ∉ parameters (dis toy_self)).
  { change (parameters (dis toy_self)) with [20; 21]%nat. set_solver. }
  split; [reflexivity|]. split; [exact Hp|].
  exact (X8_discriminator_update_sends_no_gradient_elsewhere toy_self _ CPU toy_data 4
           toy_world1 10%nat eq_refl Hp).
Defined.


Lemma X10_witness :
  shape (value toy_data) = 4 :: [3; 2; 2] ∧ print_loss_every toy_self ≠ 0
  ∧ ∃ og od w2 line,
      train_step toy_self CPU 3 10 50 toy_data
        (AdamW [10; 11; 12]%nat 0.0002 (0.5, 0.999)%Q,
         AdamW [20; 21]%nat 0.0002 (0.5, 0.999)%Q) toy_world1
      = (Ok (og, od), set_trace (trace w2 ++ [EvPrint line]) w2)
      ∧ train_step toy_self CPU 3 10 51 toy_data
          (AdamW [10; 11; 12]%nat 0.0002 (0.5, 0.999)%Q,
           AdamW [20; 21]%nat 0.0002 (0.5, 0.999)%Q) toy_world1
        = (Ok (og, od), set_trace (trace w2 ++ []) w2).
Proof.
  assert (Hk : print_loss_every toy_self ≠ 0) by (simpl; lia).
  split; [reflexivity|]. split; [exact Hk|].
  destruct (X10_train_step_reports_every_print_loss_every_batches toy_self CPU toy_data
              (AdamW [10; 11; 12]%nat 0.0002 (0.5, 0.999)%Q,
               AdamW [20; 21]%nat 0.0002 (0.5, 0.999)%Q) toy_world1 4 [3; 2; 2] eq_refl Hk)
    as (og & od & w2 & ds & gs & _ & Hrun).
  exists og, od, w2. eexists. split.
  - exact (Hrun 3 10 50).
  - exact (Hrun 3 10 51).
Defined.

Lemma X11_witness :
  py_type toy_dl = DataLoader ∧ 0 ≤ 0
  ∧ ∃ w', train toy_self toy_dl 0 128 CUDA true toy_world_graded = (Ok (), w')
          ∧ trace w' = [EvModuleTo Dis CUDA; EvModuleTo Gen CUDA; EvRandn [64; 2; 1; 1] 0%nat]
          ∧ params w' !! 10%nat = Some (Tensor [1] CUDA [5%Q])
          ∧ grads w' !! 10%nat = Some (Tensor [1] CUDA [1%Q]).
Proof.
  assert (H0 : 0 ≤ 0) by lia.
  split; [reflexivity|]. split; [exact H0|].
  destruct (X11_train_without_epochs_only_moves_the_networks toy_self toy_dl 0 128 CUDA true
              toy_world_graded eq_refl H0) as (w' & Hrun & Htr & Hp).
  exists w'. split; [exact Hrun|]. split; [exact Htr|]. split.
  - etrans; [exact (proj1 (Hp 10%nat))|]. reflexivity.
  - etrans; [exact (proj2 (Hp 10%nat))|]. reflexivity.
Defined.

Lemma toy_dl_batched : batched toy_dl.
Proof.
  intros r t Ht. simpl in Ht.
  apply elem_of_cons in Ht as [->|Ht]; [done|].
  apply elem_of_cons in Ht as [->|Ht]; [done|]. by apply elem_of_nil in Ht.
Qed.

Lemma X12_witness :
  py_type toy_dl = DataLoader ∧ print_loss_every toy_self ≠ 0 ∧ batched toy_dl
  ∧ ∃ w' evs,
      train toy_self toy_dl 3 128 CPU true toy_world = (Ok (), w')
      ∧ trace w' = trace toy_world ++ evs
      ∧ steps_of evs = concat (replicate 6 [Dis; Gen])
      ∧ length (shows_of evs) = 3%nat.
Proof.
  assert (Hk : print_loss_every toy_self ≠ 0) by (simpl; lia).
  split; [reflexivity|]. split; [exact Hk|]. split; [exact toy_dl_batched|].
  destruct (X12_train_completes_with_one_update_of_each_network_per_batch toy_self toy_dl 3 128
              CPU true toy_world eq_refl Hk toy_dl_batched)
    as (w' & evs & Hrun & Htr & Hs & Hf & Hy).
  exists w', evs. split; [exact Hrun|]. split; [exact Htr|]. split; [|exact Hf].
  rewrite Hs, (Hy 2%nat (λ _, eq_refl)). reflexivity.
Defined.

Lemma X13_witness :
  py_type toy_dl = DataLoader ∧ print_loss_every toy_self0 = 0 ∧ 0 < 3
  ∧ batched toy_dl ∧ (∀ r, (py_iter toy_dl r).1 ≠ [])
  ∧ ∃ w' evs,
      train toy_self0 toy_dl 3 128 CPU true toy_world = (Raise ZeroDivisionError, w')
      ∧ trace w' = trace toy_world ++ evs
      ∧ steps_of evs = [Dis; Gen].
Proof.
  assert (H3 : 0 < 3) by lia.
  assert (Hne : ∀ r, (py_iter toy_dl r).1 ≠ []) by (intros r; discriminate).
  split; [reflexivity|]. split; [reflexivity|]. split; [exact H3|].
  split; [exact toy_dl_batched|]. split; [exact Hne|].
  destruct (X13_train_with_print_loss_every_zero_fails_after_the_first_step toy_self0 toy_dl 3
              128 CPU true toy_world eq_refl eq_refl H3 toy_dl_batched Hne)
    as (w' & evs & Hrun & Htr & Hs & _).
  exists w', evs. split; [exact Hrun|]. split; [exact Htr|exact Hs].
Defined.

Lemma X15_witness :
  (30%nat ∉ parameters (gen toy_self)) ∧ (30%nat ∉ parameters (dis toy_self))
  ∧ params (train toy_self toy_dl 3 128 CPU true toy_world_fused).2 !! 30%nat
    = Some (toy_scalar 5).
Proof.
  assert (Hg : 30%nat ∉ parameters (gen toy_self)).
  { change (parameters (gen toy_self)) with [10; 11; 12]%nat. set_solver. }
  assert (Hd : 30%nat ∉ parameters (dis toy_self)).
  { change (parameters (dis toy_self)) with [20; 21]%nat. set_solver. }
  split; [exact Hg|]. split; [exact Hd|].
  destruct (X15_train_changes_only_the_two_networks toy_self toy_dl 3 128 CPU true
              toy_world_fused 30%nat Hg Hd) as [Hp _].
  etrans; [exact Hp|]. reflexivity.
Defined.

Lemma X16_witness :
  2 ≤ 2 ∧ 2 ≤ 3
  ∧ ∃ g w' evs,
      generate toy_self 2 3 CPU true false toy_world = (Ok (Single g), w')
      ∧ trace w' = trace toy_world ++ evs
      ∧ shows_of evs = [(tid g, 2, 3, grid_cells 2 3)].
Proof.
  assert (H2 : 2 ≤ 2) by lia. assert (H3 : 2 ≤ 3) by lia.
  split; [exact H2|]. split; [exact H3|].
  destruct (X16_generate_shows_the_images_it_returns toy_self 2 3 CPU false toy_world H2 H3)
    as (g & noise & w' & evs & Hrun & _ & Htr & Hs & _).
  exists g, w', evs. split; [exact Hrun|]. split; [exact Htr|exact Hs].
Defined.

End MoreWitnesses.
